(** * RAG chat pipeline: a shallow embedding of [src/lib/rag.ts],
    [src/lib/db.ts], the chat route and the upload route.

  Conventions of the embedding.

  - Asynchronous functions are run to completion: an [await] is a
    sequencing point, a rejected promise is a thrown error.
  - Everything outside the process (SQL statements, HTTP calls, the
    Pinecone client, clocks and random sources, the file processors)
    is an event answered by an oracle; every event issued is recorded,
    with its answer, in the trace of the world.
  - JavaScript strings are modelled by [string]; a character stands for
    a code unit below U+0100.  The one message thrown by the source that
    holds a character above U+00FF, the cross mark that opens the message
    of [getDb], holds it as the three bytes of its UTF-8 encoding; no
    function of the model measures or cuts a thrown message.
  - [console.warn] and [console.error] are recorded in the world;
    informational [console.log] lines are not modelled.  Pictographs
    that prefix log labels in the source are left out of the labels. *)

From Stdlib Require Import String Ascii List Bool Arith ZArith QArith Lia Lqa.
From Stdlib Require Import Permutation Sorted.
From Stdlib Require Import DecimalString.
From Stdlib Require Import Floats.PrimFloat.
From Stdlib Require Import Numbers.Cyclic.Int63.Uint63.
Import ListNotations.

Local Close Scope Q_scope.
Local Open Scope string_scope.
Local Open Scope list_scope.
Local Open Scope nat_scope.

(** String concatenation, the [+] of JavaScript on strings and the
  joints of a template literal. *)
Notation "a ^^ b" := (String.append a b) (at level 60, right associativity).

(* ================================================================== *)
(** ** JavaScript strings and values *)
(* ================================================================== *)

Module JS.

(** A JavaScript [number] is an IEEE 754 binary64. *)
Definition number := float.

Definition number_of_nat (n : nat) : number :=
  PrimFloat.of_uint63 (Uint63.of_Z (Z.of_nat n)).

Definition string_of_nat (n : nat) : string :=
  NilZero.string_of_uint (Nat.to_uint n).

Definition string_of_Z (z : Z) : string :=
  NilZero.string_of_int (Z.to_int z).

Definition LF : ascii := ascii_of_nat 10.
Definition SP : ascii := " "%char.

(** ["\n"] and ["\n\n"]. *)
Definition nl : string := String LF "".
Definition nlnl : string := String LF (String LF "").

(** ECMAScript WhiteSpace and LineTerminator below U+0100:
    TAB, LF, VT, FF, CR, SP, NBSP. *)
Definition is_space (c : ascii) : bool :=
  let n := nat_of_ascii c in
  ((9 <=? n) && (n <=? 13)) || (n =? 32) || (n =? 160).

Fixpoint trimStart (s : string) : string :=
  match s with
  | "" => ""
  | String c s' => if is_space c then trimStart s' else s
  end.

(** [trimEnd] keeps a character when it is not a space or when
    something survives after it. *)
Fixpoint trimEnd (s : string) : string :=
  match s with
  | "" => ""
  | String c s' =>
      match trimEnd s' with
      | "" => if is_space c then "" else String c ""
      | t => String c t
      end
  end.

(** [s.trim()] *)
Definition trim (s : string) : string := trimEnd (trimStart s).

(** [!s || s.trim().length === 0] for a string [s]. *)
Definition is_blank (s : string) : bool :=
  (String.length s =? 0) || (String.length (trim s) =? 0).

(** A string used as a condition, and the [Boolean] of [filter]. *)
Definition nonempty (s : string) : bool := negb (String.length s =? 0).

(** [s.slice(0, n)] and [s.substring(0, n)] for [n >= 0]. *)
Definition slice_to (n : nat) (s : string) : string := substring 0 n s.

(** [s.slice(n)] for [n >= 0]. *)
Fixpoint slice_from (n : nat) (s : string) : string :=
  match n, s with
  | O, _ => s
  | S _, "" => ""
  | S n', String _ s' => slice_from n' s'
  end.

(** [s.replace(/\s+/g, ' ')]: every maximal run of white space becomes
    one space; [in_run] tells that the previous character was white
    space and the run's space is already written. *)
Fixpoint collapse_from (in_run : bool) (s : string) : string :=
  match s with
  | "" => ""
  | String c s' =>
      if is_space c
      then (if in_run then collapse_from true s'
            else String SP (collapse_from true s'))
      else String c (collapse_from false s')
  end.

Definition collapse_spaces (s : string) : string := collapse_from false s.

(** [s.startsWith(p)] *)
Definition startsWith (p s : string) : bool := prefix p s.

(** [hay.includes(needle)] *)
Fixpoint includes (needle hay : string) : bool :=
  prefix needle hay ||
  match hay with
  | "" => false
  | String _ hay' => includes needle hay'
  end.

(** [s.split(sep)] for a one-character separator: never the empty
    list, [''.split(' ')] is [['']]. *)
Fixpoint split (sep : ascii) (s : string) : list string :=
  match s with
  | "" => [""]
  | String c s' =>
      let r := split sep s' in
      if Ascii.eqb c sep then "" :: r
      else match r with
           | h :: t => String c h :: t
           | [] => [String c ""]
           end
  end.

(** [l.join(sep)] *)
Definition join (sep : string) (l : list string) : string :=
  String.concat sep l.

(** [toLowerCase] on code units below U+0100: A-Z, and the Latin-1
    capitals U+00C0-U+00DE except the multiplication sign U+00D7. *)
Definition lower_char (c : ascii) : ascii :=
  let n := nat_of_ascii c in
  if ((65 <=? n) && (n <=? 90))
     || ((192 <=? n) && (n <=? 222) && negb (n =? 215))
  then ascii_of_nat (n + 32) else c.

Fixpoint toLowerCase (s : string) : string :=
  match s with
  | "" => ""
  | String c s' => String (lower_char c) (toLowerCase s')
  end.

(** Values that come out of [JSON.parse] or sit in an [any] slot. *)
#[warnings="-register-all"]
Inductive jsval : Type :=
| JUndefined
| JNull
| JBool (b : bool)
| JNum (n : number)
| JStr (s : string)
| JArr (l : list jsval)
| JObj (fields : list (string * jsval)).

(** ToBoolean. *)
Definition truthy (v : jsval) : bool :=
  match v with
  | JUndefined | JNull => false
  | JBool b => b
  | JNum n => negb (PrimFloat.eqb n 0%float) && PrimFloat.eqb n n
  | JStr s => nonempty s
  | JArr _ | JObj _ => true
  end.

Fixpoint assoc (k : string) (fields : list (string * jsval)) : jsval :=
  match fields with
  | [] => JUndefined
  | (k', v) :: rest => if String.eqb k k' then v else assoc k rest
  end.

(** What a thrown value is: an [Error] with its message, a [TypeError]
    raised by the runtime, or any other thrown value with its
    [String(...)] rendering. *)
Inductive js_error : Type :=
| Error (message : string)
| TypeError (message : string)
| Thrown (shown : string).

(** [e instanceof Error ? e.message : String(e)] *)
Definition error_text (e : js_error) : string :=
  match e with
  | Error m | TypeError m => m
  | Thrown s => s
  end.

Inductive result (A : Type) : Type :=
| Ok (a : A)
| Err (e : js_error).
Arguments Ok {A} a.
Arguments Err {A} e.

(** [v.name] where [name] is neither an index nor ["length"]: a
    TypeError on [undefined] and [null], the field of an object,
    [undefined] on everything else. *)
Definition get (v : jsval) (name : string) : result jsval :=
  match v with
  | JUndefined | JNull =>
      Err (TypeError ("Cannot read properties of undefined (reading '" ^^ name ^^ "')"))
  | JObj fields => Ok (assoc name fields)
  | _ => Ok JUndefined
  end.

(** [v?.name] *)
Definition opt_get (v : jsval) (name : string) : jsval :=
  match v with
  | JObj fields => assoc name fields
  | _ => JUndefined
  end.

(** [v?.[0]] *)
Definition opt_first (v : jsval) : jsval :=
  match v with
  | JArr (x :: _) => x
  | JStr (String c _) => JStr (String c "")
  | JObj fields => assoc "0" fields
  | _ => JUndefined
  end.

End JS.
Export JS.

(* ================================================================== *)
(** ** The world outside the process *)
(* ================================================================== *)

Module World.

Definition vector := list number.

(** [process.env]: a variable is unset or holds a string. *)
Record config : Type := {
  OPENROUTER_API_KEY : option string;
  PINECONE_API_KEY : option string;
  PINECONE_INDEX : option string;
  NEXT_PUBLIC_APP_URL : option string;
  DATABASE_URL : option string
}.

(** An optional string used as a condition ([process.env.X], [userId],
    [name || null]): the string when it is defined and not empty. *)
Definition if_truthy (v : option string) : option string :=
  match v with
  | Some s => if String.length s =? 0 then None else Some s
  | None => None
  end.

(** The object built by [new Pinecone({ apiKey })]. *)
Inductive pinecone_client : Type := Pinecone (apiKey : string).

(** A row of [db.embeddings.search]: the columns of its SELECT.
    [content] is TEXT NOT NULL, [metadata] is JSONB. *)
Record pg_row : Type := {
  row_id : string;
  row_document_id : string;
  row_content : string;
  row_metadata : jsval;
  row_similarity : number
}.

(** A match of [index.query] with [includeMetadata: true]: a scored
    record of the index, which has no [content] field of its own. *)
Record pc_match : Type := {
  match_id : string;
  match_score : option number;
  match_metadata : option (list (string * jsval))
}.

Record query_response : Type := { matches : option (list pc_match) }.

(** A row of any other statement, column name to value. *)
Definition sql_row := list (string * jsval).

(** [{ fileName, fileType, uploadedAt }], the JSONB value written with
    an embedding. *)
Record stored_metadata : Type := {
  sm_fileName : string;
  sm_fileType : string;
  sm_uploadedAt : string
}.

(** The [Response] of the embeddings endpoint.  [emb_json] is
    [response.json()] followed by [data.data?.[0]?.embedding]: an error
    when either throws, [None] when the chain is falsy, the vector
    otherwise (the declared return type [number[]] is taken at face
    value). *)
Record embeddings_response : Type := {
  emb_ok : bool;
  emb_status : Z;
  emb_text : result string;
  emb_json : result (option vector)
}.

(** What [reader.read()] delivers: the decoded chunks in order, then
    the end of the stream or a thrown error. *)
Record upstream_body : Type := {
  reads : list string;
  broken : option js_error
}.

Record completions_response : Type := {
  cmp_ok : bool;
  cmp_status : Z;
  cmp_text : result string;
  cmp_body : option upstream_body
}.

Inductive content_part : Type :=
| TextPart (text : string)
| ImageUrlPart (url : string).

Inductive message_content : Type :=
| Plain (text : string)
| Parts (parts : list content_part).

Record prompt_message : Type := {
  pm_role : string;
  pm_content : message_content
}.

(** The JSON body posted to the completion service; [temperature: 0.7],
    [max_tokens: 1024] and [stream: true] are constants of the source. *)
Record completion_body : Type := {
  cb_model : string;
  cb_messages : list prompt_message
}.

(** Events: what the process asks of the outside, indexed by the type
    of the answer.  An answer of type [result _] is a promise that may
    reject. *)
Inductive extE : Type -> Type :=
(* @pinecone-database/pinecone *)
| NewPinecone (apiKey : string) : extE (result unit)
| PineconeUpsert (pc : pinecone_client) (index id : string)
    (values : vector) (metadata : list (string * jsval)) : extE (result unit)
| PineconeQuery (pc : pinecone_client) (index : string)
    (vector_ : vector) (topK : Z) : extE (result query_response)
(* fetch *)
| EmbeddingsFetch (bearer referer input : string)
    : extE (result embeddings_response)
| CompletionsFetch (bearer : option string) (body : completion_body)
    : extE (result completions_response)
(* the statements of db.ts *)
| SqlInitSchema : extE (result unit)
| SqlSelectUser (id : string) : extE (result (list sql_row))
| SqlUpsertUser (id email : string) (name : option string) (role : string)
    : extE (result (list sql_row))
| SqlSelectUserId (userId : string) : extE (result (list sql_row))
| SqlInsertDocument (id userId fileName fileType : string)
    (fileSize : Z) (originalText : string) : extE (result (list sql_row))
| SqlInsertEmbedding (id documentId : string) (chunkIndex : nat)
    (content : string) (embedding : vector) (metadata : stored_metadata)
    : extE (result (list sql_row))
| SqlSearchEmbeddings (queryEmbedding : vector) (limit : Z)
    : extE (result (list pg_row))
| SqlInsertChatMessage (id userId role content : string)
    (images : option (list string)) : extE (result (list sql_row))
(* clocks and random sources *)
| DateNow : extE Z
| DateISOString : extE string
| MathRandomBase36 : extE string
| RandomBytesHex : extE string
(* @/lib/fileProcessors *)
| ExtractTextFromPDF (buffer : list ascii) : extE (result string)
| ExtractTextFromDOCX (buffer : list ascii) : extE (result string)
| ExtractTextFromTXT (buffer : list ascii) : extE (result string)
| ProcessImage (buffer : list ascii) (mimeType : string) : extE (result string)
| ChunkText (text : string) : extE (result (list string)).

(** One issued event with its answer. *)
Inductive call : Type :=
| Call (X : Type) (e : extE X) (answer : X).
Arguments Call {X} e answer.

Inductive log_level : Type := Warn | Error_.

Record log_line : Type := {
  level : log_level;
  label : string;
  detail : string
}.

(** The mutable state of the process and its history. *)
Record world : Type := {
  trace : list call;
  console : list log_line;
  (** [let pineconeClient] of rag.ts *)
  pineconeClient : option pinecone_client;
  (** [let sql] of db.ts: whether the connection object exists *)
  sql : bool
}.

(** The outside: the environment variables, the answers to events
    (which may depend on everything that happened before), and the two
    JSON functions of the runtime. *)
Record runtime : Type := {
  env : config;
  oracle : list call -> forall X : Type, extE X -> X;
  JSON_parse : string -> result jsval;
  JSON_stringify : jsval -> string
}.

(** Computations: a result or a thrown error, and the world after. *)
Definition M (A : Type) : Type := world -> result A * world.

Definition ret {A} (a : A) : M A := fun w => (Ok a, w).

Definition throw {A} (e : js_error) : M A := fun w => (Err e, w).

Definition bind {A B} (c : M A) (k : A -> M B) : M B :=
  fun w =>
    match c w with
    | (Ok a, w') => k a w'
    | (Err e, w') => (Err e, w')
    end.

(** [try { c } catch (e) { h e }] *)
Definition catch {A} (c : M A) (h : js_error -> M A) : M A :=
  fun w =>
    match c w with
    | (Ok a, w') => (Ok a, w')
    | (Err e, w') => h e w'
    end.

Definition lift {A} (r : result A) : M A := fun w => (r, w).

Definition log (lv : log_level) (lbl dtl : string) : M unit :=
  fun w =>
    (Ok tt, {| trace := trace w;
               console := console w ++ [{| level := lv; label := lbl; detail := dtl |}];
               pineconeClient := pineconeClient w;
               sql := sql w |}).

Definition console_warn (lbl dtl : string) : M unit := log Warn lbl dtl.

Definition console_error (lbl : string) (e : js_error) : M unit :=
  log Error_ lbl (error_text e).

Definition record (c : call) (w : world) : world :=
  {| trace := trace w ++ [c];
     console := console w;
     pineconeClient := pineconeClient w;
     sql := sql w |}.

Definition set_pineconeClient (pc : pinecone_client) : M unit :=
  fun w =>
    (Ok tt, {| trace := trace w;
               console := console w;
               pineconeClient := Some pc;
               sql := sql w |}).

Definition set_sql : M unit :=
  fun w =>
    (Ok tt, {| trace := trace w;
               console := console w;
               pineconeClient := pineconeClient w;
               sql := true |}).

Definition read {A} (f : world -> A) : M A := fun w => (Ok (f w), w).

Section Perform.
Variable rt : runtime.

(** Issue an event, record it with the oracle's answer. *)
Definition perform {X} (e : extE X) : M X :=
  fun w =>
    let a := oracle rt (trace w) X e in
    (Ok a, record (Call e a) w).

(** [await] of an external promise: a rejection is thrown. *)
Definition await {Y} (e : extE (result Y)) : M Y :=
  fun w =>
    let a := oracle rt (trace w) (result Y) e in
    (a, record (Call e a) w).
End Perform.

End World.
Export World.

Declare Scope js_scope.
Delimit Scope js_scope with js.
Notation "x <- c ;; k" := (bind c (fun x => k))
(at level 100, c at next level, right associativity) : js_scope.
Notation "c ;; k" := (bind c (fun _ => k))
(at level 100, right associativity) : js_scope.
Local Open Scope js_scope.

(* ================================================================== *)
(** ** src/lib/db.ts *)
(* ================================================================== *)

Module Db.
Section WithRuntime.
Variable rt : runtime.

(** [try { c } catch (error) { console.error(label, error); throw error }] *)
Definition logged {A} (lbl : string) (c : M A) : M A :=
  catch c (fun error => console_error lbl error ;; throw error).

(** [getDb()]: the connection object is made on first use and needs
    DATABASE_URL. *)
Definition getDb : M unit :=
  connected <- read sql ;;
  if connected then ret tt
  else match if_truthy (DATABASE_URL (env rt)) with
       | None => throw (Error "❌ DATABASE_URL environment variable is not set")
       | Some _ => set_sql
       end.

(** [initializeDatabase()]: the CREATE statements, as one event. *)
Definition initializeDatabase : M unit :=
  getDb ;;
  logged "Database initialization error:" (await rt SqlInitSchema).

(** [db.users.upsert(id, email, name, role)]; [name || null]. *)
Definition users_upsert (id email : string) (name : option string)
    (role : string) : M (option sql_row) :=
  logged "User upsert error:"
    (getDb ;;
     result <- await rt (SqlUpsertUser id email (if_truthy name) role) ;;
     ret (hd_error result)).

(** [db.users.getById(id)]: [result[0] || null]. *)
Definition users_getById (id : string) : M (option sql_row) :=
  logged "Get user error:"
    (getDb ;;
     result <- await rt (SqlSelectUser id) ;;
     ret (hd_error result)).

(** [db.documents.create(...)]: checks the user row, then inserts. *)
Definition documents_create (id userId fileName fileType : string)
    (fileSize : Z) (originalText : string) : M (option sql_row) :=
  logged "Document creation error:"
    (getDb ;;
     userCheck <- await rt (SqlSelectUserId userId) ;;
     if length userCheck =? 0
     then throw (Error ("User " ^^ userId ^^ " does not exist"))
     else
       getDb ;;
       result <- await rt (SqlInsertDocument id userId fileName fileType
                             fileSize originalText) ;;
       ret (hd_error result)).

(** [db.embeddings.create(...)]: validates the dimension, then upserts
    the row by id. *)
Definition embeddings_create (id documentId : string) (chunkIndex : nat)
    (content : string) (embedding : vector) (metadata : stored_metadata)
    : M (option sql_row) :=
  logged "Embedding storage error:"
    (if negb (length embedding =? 1536)
     then throw (Error ("Invalid embedding dimensions: "
                        ^^ string_of_nat (length embedding) ^^ ", expected 1536"))
     else
       getDb ;;
       result <- await rt (SqlInsertEmbedding id documentId chunkIndex
                             content embedding metadata) ;;
       ret (hd_error result)).

(** [db.embeddings.search(queryEmbedding, limit)] *)
Definition embeddings_search (queryEmbedding : vector) (limit : Z)
    : M (list pg_row) :=
  logged "Embedding search error:"
    (if negb (length queryEmbedding =? 1536)
     then throw (Error ("Invalid query embedding dimensions: "
                        ^^ string_of_nat (length queryEmbedding)))
     else
       getDb ;;
       await rt (SqlSearchEmbeddings queryEmbedding limit)).

(** [db.chatMessages.create(...)]: no try block of its own. *)
Definition chatMessages_create (id userId role content : string)
    (images : option (list string)) : M (option sql_row) :=
  getDb ;;
  result <- await rt (SqlInsertChatMessage id userId role content images) ;;
  ret (hd_error result).

End WithRuntime.
End Db.

(* ================================================================== *)
(** ** src/lib/rag.ts *)
(* ================================================================== *)

Module Rag.

(** The metadata object the upload route hands to [storeEmbedding]. *)
Record embedding_metadata : Type := {
  md_content : string;
  md_fileName : string;
  md_fileType : string;
  md_chunkIndex : nat;
  md_uploadedAt : string;
  md_documentId : string;
  md_userId : string
}.

(** [Object.entries(metadata)], in insertion order. *)
Definition Object_entries (m : embedding_metadata) : list (string * jsval) :=
  [ ("content", JStr (md_content m));
    ("fileName", JStr (md_fileName m));
    ("fileType", JStr (md_fileType m));
    ("chunkIndex", JNum (number_of_nat (md_chunkIndex m)));
    ("uploadedAt", JStr (md_uploadedAt m));
    ("documentId", JStr (md_documentId m));
    ("userId", JStr (md_userId m)) ].

(** An element of the array [queryEmbeddings] returns: a row of the
    primary store or a match of the secondary index, each as its
    store delivered it. *)
Inductive match_ : Type :=
| Primary (r : pg_row)
| Secondary (m : pc_match).

(** [m.content] *)
Definition content_field (m : match_) : jsval :=
  match m with
  | Primary r => JStr (row_content r)
  | Secondary _ => JUndefined
  end.

(** [m.metadata?.name] *)
Definition metadata_field (m : match_) (name : string) : jsval :=
  match m with
  | Primary r => opt_get (row_metadata r) name
  | Secondary p =>
      match match_metadata p with
      | Some fields => assoc name fields
      | None => JUndefined
      end
  end.

(** [a || b] *)
Definition js_or (a b : jsval) : jsval := if truthy a then a else b.

(** The local function [textSimilarity(a, b)] of [retrieveContext].
    The score is kept exact: the source adds the doubles 1 and 0.1. *)
Definition textSimilarity (a b : string) : Q :=
  let a := toLowerCase a in
  let b := toLowerCase b in
  let score := if includes a b then 1%Q else 0%Q in
  fold_left (fun score w => if includes w b then (score + (1 # 10))%Q else score)
            (split SP a) score.

(** [textSimilarity(query, m.content)]: [toLowerCase] is called on
    [m.content], a TypeError when that is not a string. *)
Definition similarity_of (query : string) (m : match_) : result Q :=
  match content_field m with
  | JStr c => Ok (textSimilarity query c)
  | _ => Err (TypeError "Cannot read properties of undefined (reading 'toLowerCase')")
  end.

(** The comparator handed to [matches.sort]. *)
Definition compare_matches (query : string) (a b : match_) : result Q :=
  match similarity_of query b with
  | Err e => Err e
  | Ok sb =>
      match similarity_of query a with
      | Err e => Err e
      | Ok sa => Ok (sb - sa)%Q
      end
  end.

(** [Array.prototype.sort(cmp)]: stable, [a] stays before [b] unless
    [cmp(a, b) > 0]; an error thrown by [cmp] leaves [sort].  Written
    as an insertion sort; on arrays of two or more elements every
    element is compared at least once, on shorter ones [cmp] is never
    called. *)
Fixpoint insert {A} (cmp : A -> A -> result Q) (x : A) (sorted : list A)
    : result (list A) :=
  match sorted with
  | [] => Ok [x]
  | y :: ys =>
      match cmp x y with
      | Err e => Err e
      | Ok v =>
          if Qle_bool v 0 then Ok (x :: y :: ys)
          else match insert cmp x ys with
               | Ok r => Ok (y :: r)
               | Err e => Err e
               end
      end
  end.

Fixpoint sort {A} (cmp : A -> A -> result Q) (l : list A) : result (list A) :=
  match l with
  | [] => Ok []
  | x :: xs =>
      match sort cmp xs with
      | Ok s => insert cmp x s
      | Err e => Err e
      end
  end.

(** The callback of [matches.map] in [retrieveContext]. *)
Definition extract_content (m : match_) : string :=
  let content :=
    js_or (content_field m)
      (js_or (metadata_field m "content")
         (js_or (metadata_field m "chunk_content") (JStr ""))) in
  match content with
  | JStr s => s
  | _ => ""
  end.

Section WithRuntime.
Variable rt : runtime.

(** [initPinecone()] *)
Definition initPinecone : M (option pinecone_client) :=
  cached <- read pineconeClient ;;
  match cached with
  | Some pc => ret (Some pc)
  | None =>
      catch
        (match if_truthy (PINECONE_API_KEY (env rt)) with
         | None =>
             console_warn "PINECONE_API_KEY not set, Pinecone disabled" "" ;;
             ret None
         | Some apiKey =>
             await rt (NewPinecone apiKey) ;;
             set_pineconeClient (Pinecone apiKey) ;;
             ret (Some (Pinecone apiKey))
         end)
        (fun error =>
           console_error "Pinecone initialization failed:" error ;;
           ret None)
  end.

(** [embedText(text)] *)
#[warnings="-abstract-large-number"]
Definition embedText (text : string) : M vector :=
  catch
    (if is_blank text
     then throw (Error "Empty text provided for embedding")
     else
       match if_truthy (OPENROUTER_API_KEY (env rt)) with
       | None => throw (Error "OPENROUTER_API_KEY is not set")
       | Some key =>
           let maxLength := 8000 in
           let cleanedText := trim (collapse_spaces (slice_to maxLength text)) in
           let referer :=
             match if_truthy (NEXT_PUBLIC_APP_URL (env rt)) with
             | Some url => url
             | None => "http://localhost:3000"
             end in
           response <- await rt (EmbeddingsFetch ("Bearer " ^^ key) referer cleanedText) ;;
           if negb (emb_ok response)
           then
             errorText <- lift (emb_text response) ;;
             throw (Error ("Embedding API failed (" ^^ string_of_Z (emb_status response)
                           ^^ "): " ^^ errorText))
           else
             data <- lift (emb_json response) ;;
             match data with
             | None => throw (Error "Invalid embedding response from API")
             | Some embedding =>
                 if negb (length embedding =? 1536)
                 then throw (Error ("Invalid embedding dimensions: "
                                    ^^ string_of_nat (length embedding)
                                    ^^ ", expected 1536"))
                 else ret embedding
             end
       end)
    (fun error => console_error "Embedding error:" error ;; throw error).

(** The loop that builds [cleanMetadata] in [storeEmbedding]. *)
Definition cleanMetadata (entries : list (string * jsval)) : list (string * jsval) :=
  fold_left
    (fun clean kv =>
       match snd kv with
       | JUndefined | JNull => clean
       | JStr _ | JNum _ | JBool _ => clean ++ [kv]
       | value => clean ++ [(fst kv, JStr (JSON_stringify rt value))]
       end)
    entries [].

(** [storeEmbedding(id, embedding, metadata)].  [embedding] is an
    array, so [!embedding] is false and the guard is the length test;
    the inner computations return the [errors] they pushed. *)
Definition storeEmbedding (id : string) (embedding : vector)
    (metadata : embedding_metadata) : M unit :=
  catch
    ((if negb (length embedding =? 1536)
      then throw (Error ("Invalid embedding: expected 1536 dimensions, got "
                         ^^ string_of_nat (length embedding)))
      else ret tt) ;;
     (* 1. Always store in PostgreSQL (primary storage) *)
     catch
       (Db.embeddings_create rt id (md_documentId metadata)
          (md_chunkIndex metadata) (md_content metadata) embedding
          {| sm_fileName := md_fileName metadata;
             sm_fileType := md_fileType metadata;
             sm_uploadedAt := md_uploadedAt metadata |} ;;
        ret tt)
       (fun pgError =>
          log Error_ "" ("PostgreSQL storage failed: " ^^ error_text pgError) ;;
          throw pgError) ;;
     (* 2. Optionally store in Pinecone (if configured) *)
     errors <-
       match if_truthy (PINECONE_INDEX (env rt)) with
       | None => ret []
       | Some indexName =>
           catch
             (pc <- initPinecone ;;
              match pc with
              | None => ret []
              | Some c =>
                  await rt (PineconeUpsert c indexName id embedding
                              (cleanMetadata (Object_entries metadata))) ;;
                  ret []
              end)
             (fun pineconeError =>
                let error := "Pinecone storage failed: " ^^ error_text pineconeError in
                console_warn "" error ;;
                ret [error])
       end ;;
     if 0 <? length errors
     then console_warn ("Partial success storing " ^^ id ^^ ":") (join "," errors)
     else ret tt)
    (fun error => console_error "Failed to store embedding:" error ;; throw error).

(** The [try] block of [queryEmbeddings(queryEmbedding, topK)].  A
    [return] inside an inner [try] is a [Some]; [None] falls through to
    what follows. *)
Definition queryEmbeddings_try (queryEmbedding : vector) (topK : Z)
    : M (list match_) :=
  (if negb (length queryEmbedding =? 1536)
   then throw (Error ("Invalid query embedding: expected 1536 dimensions, got "
                      ^^ string_of_nat (length queryEmbedding)))
   else ret tt) ;;
  (* Try PostgreSQL first *)
  fromPg <-
    catch
      (results <- Db.embeddings_search rt queryEmbedding topK ;;
       if 0 <? length results
       then ret (Some (map Primary results))
       else ret None)
      (fun pgError => console_error "PostgreSQL query failed:" pgError ;; ret None) ;;
  match fromPg with
  | Some results => ret results
  | None =>
      (* Fallback to Pinecone if configured *)
      fromPinecone <-
        match if_truthy (PINECONE_INDEX (env rt)) with
        | None => ret None
        | Some indexName =>
            catch
              (pc <- initPinecone ;;
               match pc with
               | None => ret None
               | Some c =>
                   results <- await rt (PineconeQuery c indexName queryEmbedding topK) ;;
                   match matches results with
                   | Some ms =>
                       if 0 <? length ms
                       then ret (Some (map Secondary ms))
                       else ret None
                   | None => ret None
                   end
               end)
              (fun pineconeError =>
                 console_error "Pinecone query failed:" pineconeError ;; ret None)
        end ;;
      match fromPinecone with
      | Some results => ret results
      | None => ret []
      end
  end.

(** [queryEmbeddings(queryEmbedding, topK)] *)
Definition queryEmbeddings (queryEmbedding : vector) (topK : Z)
    : M (list match_) :=
  catch (queryEmbeddings_try queryEmbedding topK)
        (fun error => console_error "Query error:" error ;; ret []).

(** The [try] block of [retrieveContext(query)]. *)
Definition retrieveContext_try (query : string) : M string :=
  if is_blank query then ret ""
  else
    let rewrittenQuery :=
      "Use the document only. Extract the answer. Question: " ^^ query in
    queryEmbedding <- embedText rewrittenQuery ;;
    matches <- queryEmbeddings queryEmbedding 10 ;;
    matches <- lift (sort (compare_matches query) matches) ;;
    if length matches =? 0 then ret ""
    else ret (join nlnl (filter nonempty (map extract_content matches))).

(** [retrieveContext(query)] *)
Definition retrieveContext (query : string) : M string :=
  catch (retrieveContext_try query)
        (fun error => console_error "Context retrieval error:" error ;; ret "").

End WithRuntime.
End Rag.

(* ================================================================== *)
(** ** The chat route: POST of src/app/api/chat/route.ts *)
(* ================================================================== *)

Module ChatRoute.

Record chat_message : Type := {
  role : string;
  content : string
}.

(** What [await req.json()] delivers when it is an object: each of the
    three fields may be missing; [messages], when present, is an array
    of message objects. *)
Record request_json : Type := {
  json_messages : option (list chat_message);
  json_images : option (list string);
  json_userId : option string
}.

(** The request body [{ messages, images, userId }] once the first
    [console.log] of the route has read [messages.length]. *)
Record chat_request : Type := {
  messages : list chat_message;
  images : option (list string);
  userId : option string
}.

(** Lines 9 to 16 of the route, inside its [try]: [await req.json()],
    the destructuring, and the first [console.log], which reads
    [messages.length] and throws a TypeError when [messages] is
    [undefined] or [null]. *)
Definition body_of (json : result request_json) : result chat_request :=
  match json with
  | Err e => Err e
  | Ok j =>
      match json_messages j with
      | None => Err (TypeError "Cannot read properties of undefined (reading 'length')")
      | Some ms =>
          Ok {| messages := ms; images := json_images j; userId := json_userId j |}
      end
  end.

(** What the route answers: a JSON error body with its status, or the
    event stream (the strings enqueued before the stream is closed). *)
Inductive chat_response : Type :=
| ChatError (status : Z) (error : string)
| ChatStream (enqueued : list string).

(** [messages[messages.length - 1]] *)
Definition last_message (ms : list chat_message) : option chat_message :=
  match ms with
  | [] => None
  | m :: rest => Some (last rest m)
  end.

(** The constant [systemMessage] of the route. *)
Definition systemMessage (ragContext : string) : string :=
  if nonempty ragContext
  then "You are a helpful AI assistant. Use the following context to answer questions when relevant:"
       ^^ nlnl ^^ ragContext ^^ nlnl
       ^^ "If the context doesn't contain relevant information, answer based on your general knowledge."
  else "You are a helpful AI assistant.".

(** [images && images.length > 0] *)
Definition hasImages (images : option (list string)) : bool :=
  match images with
  | Some (_ :: _) => true
  | _ => false
  end.

Fixpoint mapi_from {A B} (i : nat) (f : A -> nat -> B) (l : list A) : list B :=
  match l with
  | [] => []
  | x :: xs => f x i :: mapi_from (S i) f xs
  end.

(** [l.map((x, index) => f(x, index))] *)
Definition mapi {A B} (f : A -> nat -> B) (l : list A) : list B :=
  mapi_from 0 f l.

(** The array [userMessages]: [index] counts in the filtered array and
    is compared with the length of the unfiltered one. *)
Definition userMessages (req : chat_request) : list prompt_message :=
  mapi
    (fun msg index =>
       let role_ :=
         if String.eqb (toLowerCase (role msg)) "assistant"
         then "assistant" else "user" in
       if String.eqb role_ "user" && hasImages (images req)
          && (S index =? length (messages req))
       then {| pm_role := role_;
               pm_content :=
                 Parts (TextPart (content msg)
                        :: map ImageUrlPart
                             (match images req with Some l => l | None => [] end)) |}
       else {| pm_role := role_; pm_content := Plain (content msg) |})
    (filter (fun msg => nonempty (role msg) && nonempty (content msg))
            (messages req)).

Definition model_for (req : chat_request) : string :=
  if hasImages (images req)
  then "google/gemini-flash-1.5"
  else "microsoft/phi-3-medium-128k-instruct".

(** The [messages] array of the completion request. *)
Definition completion_messages (ragContext : string) (req : chat_request)
    : list prompt_message :=
  {| pm_role := "assistant";
     pm_content := Plain ("Here is relevant document context:" ^^ nlnl ^^ ragContext) |}
  :: userMessages req.

Definition done_event : string := "data: [DONE]" ^^ nlnl.

(** [parsed.choices?.[0]?.delta?.content]: reading [choices] throws on
    [null], the optional chain after it does not. *)
Definition delta_of (parsed : jsval) : result jsval :=
  match get parsed "choices" with
  | Err e => Err e
  | Ok choices => Ok (opt_get (opt_get (opt_first choices) "delta") "content")
  end.

Section WithRuntime.
Variable rt : runtime.

(** The event enqueued for a delta. *)
Definition text_delta_event (delta : jsval) : string :=
  "data: "
  ^^ JSON_stringify rt
       (JObj [("type", JStr "text-delta"); ("delta", JObj [("text", delta)])])
  ^^ nlnl.

(** The body of [for (const line of lines)]: what one line enqueues;
    the inner [try] ignores what [JSON.parse] and the reading of the
    delta throw. *)
Definition handle_line (line : string) : list string :=
  if startsWith "data: " line
  then
    let data := slice_from 6 line in
    if String.eqb data "[DONE]" then [done_event]
    else
      match JSON_parse rt data with
      | Err _ => []
      | Ok parsed =>
          match delta_of parsed with
          | Err _ => []
          | Ok delta =>
              if truthy delta then [text_delta_event delta] else []
          end
      end
  else [].

(** The body of the [while] loop: what one chunk read enqueues. *)
Definition handle_chunk (chunk : string) : list string :=
  let lines := filter (fun line => nonempty (trim line)) (split LF chunk) in
  flat_map handle_line lines.

(** [start(controller)]: everything enqueued until [controller.close()],
    which is reached at the end of the stream, on a failed read, and
    when there is no body.  The reads go on after [POST] has returned
    its response: the line "Stream error:" logged on a failed read is
    written then, and is no part of the world [POST] leaves. *)
Definition stream_start (body : option upstream_body) : list string :=
  match body with
  | None => []
  | Some b => flat_map handle_chunk (reads b)
  end.

(** The [try] and [catch] of [POST(req)] from line 18 on; [body] is
    what lines 9 to 16 leave (see [body_of]): the request, or the error
    thrown there, which the [catch] receives as every other error. *)
Definition turn (body : result chat_request) : M chat_response :=
  catch
    (req <- lift body ;;
     match if_truthy (userId req) with
     | None => ret (ChatError 401 "Unauthorized")
     | Some userId =>
         catch (Db.initializeDatabase rt)
               (fun initError =>
                  console_warn "Database initialization check:" (error_text initError)) ;;
         (* Ensure user exists before storing messages *)
         catch
           (existingUser <- Db.users_getById rt userId ;;
            match existingUser with
            | Some _ => ret tt
            | None =>
                Db.users_upsert rt userId (userId ^^ "@temp.local")
                  (Some "Chat User") "user" ;;
                ret tt
            end)
           (fun userError => console_error "Error checking/creating user:" userError) ;;
         let lastMessage := last_message (messages req) in
         ragContext <-
           catch
             (match lastMessage with
              | None => throw (TypeError "Cannot read properties of undefined (reading 'content')")
              | Some m => Rag.retrieveContext rt (content m)
              end)
             (fun error => console_error "RAG context error:" error ;; ret "") ;;
         let _systemMessage := systemMessage ragContext in
         openrouterResponse <-
           await rt (CompletionsFetch (OPENROUTER_API_KEY (env rt))
                       {| cb_model := model_for req;
                          cb_messages := completion_messages ragContext req |}) ;;
         if negb (cmp_ok openrouterResponse)
         then
           errorText <- lift (cmp_text openrouterResponse) ;;
           log Error_ "OpenRouter API error:"
             (string_of_Z (cmp_status openrouterResponse) ^^ " " ^^ errorText) ;;
           ret (ChatError (cmp_status openrouterResponse) errorText)
         else
           (* Store user message in database *)
           catch
             (now <- perform rt DateNow ;;
              hex <- perform rt RandomBytesHex ;;
              match lastMessage with
              | None => throw (TypeError "Cannot read properties of undefined (reading 'content')")
              | Some m =>
                  Db.chatMessages_create rt
                    ("msg-" ^^ string_of_Z now ^^ "-" ^^ hex)
                    userId "user" (content m) (images req) ;;
                  ret tt
              end)
             (fun error => console_error "Error storing user message:" error) ;;
           ret (ChatStream (stream_start (cmp_body openrouterResponse)))
     end)
    (fun error =>
       console_error "Chat API error:" error ;;
       ret (ChatError 500 "Error processing chat request")).

(** [POST(req)]; [json] is [await req.json()]. *)
Definition POST (json : result request_json) : M chat_response :=
  turn (body_of json).

End WithRuntime.
End ChatRoute.

(* ================================================================== *)
(** ** The upload route: src/app/api/upload/route.ts *)
(* ================================================================== *)

Module UploadRoute.

Definition SUPPORTED_IMAGE_TYPES : list string :=
  [ "image/png"; "image/jpeg"; "image/jpg"; "image/gif";
    "image/webp"; "image/bmp"; "image/svg+xml"; "image/tiff"; "image/tif" ].

Definition SUPPORTED_DOC_TYPES : list string :=
  [ "application/pdf";
    "application/vnd.openxmlformats-officedocument.wordprocessingml.document";
    "application/msword";
    "text/plain" ].

Record file : Type := {
  file_name : string;
  file_size : Z;
  file_type : string;
  file_bytes : list ascii
}.

(** The parsed multipart form. *)
Record form : Type := {
  form_userId : option string;
  form_file : option file
}.

Inductive upload_response : Type :=
| UploadError (status : Z) (error : string) (details : option string)
    (supportedTypes : option (list string))
| UploadImage (base64 fileName fileType : string)
| UploadDocument (fileName fileType documentId : string)
    (chunksProcessed totalChunks successCount failCount : nat)
    (extractedText : string).

(** What the route holds when it enters the chunk loop. *)
Record ingest : Type := {
  in_file : file;
  in_userId : string;
  in_text : string;
  in_documentId : string;
  in_chunks : list string
}.

Definition includes_type (l : list string) (t : string) : bool :=
  existsb (String.eqb t) l.

Section WithRuntime.
Variable rt : runtime.

(** [ensureUserExists(userId)] *)
Definition ensureUserExists (userId : string) : M string :=
  catch
    (user <- Db.users_getById rt userId ;;
     match user with
     | None =>
         Db.users_upsert rt userId (userId ^^ "@temp.local")
           (Some "App User") "user" ;;
         ret userId
     | Some _ => ret userId
     end)
    (fun error =>
       console_error "Failed to ensure user exists:" error ;;
       throw (Error ("User creation failed: " ^^ error_text error))).

(** Steps 1 to 5 of [POST] and the chunking of step 6: an early
    response, or what the chunk loop needs. *)
Definition prepare (request : result form) : M (upload_response + ingest) :=
  formData <- lift request ;;
  match form_file formData with
  | None => ret (inl (UploadError 400 "No file provided" None None))
  | Some file_ =>
  match if_truthy (form_userId formData) with
  | None => ret (inl (UploadError 401 "User ID is required" None None))
  | Some userId =>
  (* STEP 1: Initialize database *)
  initialized <-
    catch (Db.initializeDatabase rt ;; ret true)
          (fun initError => console_error "Database init error:" initError ;; ret false) ;;
  if negb initialized
  then ret (inl (UploadError 500 "Database initialization failed" None None))
  else
  (* STEP 2: Ensure user exists *)
  ensured <-
    catch (finalUserId <- ensureUserExists userId ;; ret (inr finalUserId))
          (fun userError =>
             console_error "User creation failed:" userError ;;
             ret (inl (UploadError 500 "Failed to create user record"
                         (Some (error_text userError)) None))) ;;
  match ensured with
  | inl response => ret (inl response)
  | inr finalUserId =>
  let buffer := file_bytes file_ in
  let mimeType := file_type file_ in
  (* STEP 3: Handle images *)
  if includes_type SUPPORTED_IMAGE_TYPES mimeType || startsWith "image/" mimeType
  then
    catch
      (base64Image <- await rt (ProcessImage buffer mimeType) ;;
       ret (inl (UploadImage base64Image (file_name file_) mimeType)))
      (fun imageError =>
         console_error "Image processing error:" imageError ;;
         ret (inl (UploadError 500
                     ("Image processing failed: " ^^ error_text imageError)
                     None None)))
  else
  (* STEP 4: Extract text from document *)
  extracted <-
    catch
      (if String.eqb mimeType "application/pdf"
       then text <- await rt (ExtractTextFromPDF buffer) ;; ret (inr text)
       else if String.eqb mimeType
                 "application/vnd.openxmlformats-officedocument.wordprocessingml.document"
               || String.eqb mimeType "application/msword"
       then text <- await rt (ExtractTextFromDOCX buffer) ;; ret (inr text)
       else if String.eqb mimeType "text/plain"
       then text <- await rt (ExtractTextFromTXT buffer) ;; ret (inr text)
       else ret (inl (UploadError 400 "Unsupported file type" None
                        (Some (SUPPORTED_IMAGE_TYPES ++ SUPPORTED_DOC_TYPES)))))
      (fun extractError =>
         console_error "Text extraction error:" extractError ;;
         ret (inl (UploadError 500
                     ("Text extraction failed: " ^^ error_text extractError)
                     None None))) ;;
  match extracted with
  | inl response => ret (inl response)
  | inr extractedText =>
  if is_blank extractedText
  then ret (inl (UploadError 400 "No text content found in document" None None))
  else
  (* STEP 5: Create document record *)
  now <- perform rt DateNow ;;
  random <- perform rt MathRandomBase36 ;;
  let documentId := "doc-" ^^ string_of_Z now ^^ "-" ^^ random in
  created <-
    catch
      (Db.documents_create rt documentId finalUserId (file_name file_)
         mimeType (file_size file_) extractedText ;;
       ret None)
      (fun dbError =>
         console_error "Document creation error:" dbError ;;
         (* the values of the logged object, in its order *)
         log Error_ "Error details:"
           (documentId ^^ " " ^^ finalUserId ^^ " " ^^ file_name file_
            ^^ " " ^^ error_text dbError) ;;
         ret (Some (UploadError 500 "Database error"
                      (Some (error_text dbError)) None))) ;;
  match created with
  | Some response => ret (inl response)
  | None =>
  (* STEP 6: Chunk *)
  chunks <- await rt (ChunkText extractedText) ;;
  if length chunks =? 0
  then ret (inl (UploadError 400 "Failed to create text chunks" None None))
  else ret (inr {| in_file := file_;
                   in_userId := finalUserId;
                   in_text := extractedText;
                   in_documentId := documentId;
                   in_chunks := chunks |})
  end end end end end.

(** One turn of the [for] loop over the chunks: [true] when
    [successCount] is incremented, [false] when [failCount] is. *)
Definition process_chunk (c : ingest) (i : nat) (chunk : string) : M bool :=
  catch
    (embedding <- Rag.embedText rt chunk ;;
     if length embedding =? 0
     then console_warn ("Empty embedding for chunk " ^^ string_of_nat i) "" ;;
          ret false
     else
       let id := in_documentId c ^^ "-chunk-" ^^ string_of_nat i in
       (* Store in Pinecone *)
       catch
         (uploadedAt <- perform rt DateISOString ;;
          Rag.storeEmbedding rt id embedding
            {| Rag.md_content := chunk;
               Rag.md_fileName := file_name (in_file c);
               Rag.md_fileType := file_type (in_file c);
               Rag.md_chunkIndex := i;
               Rag.md_uploadedAt := uploadedAt;
               Rag.md_documentId := in_documentId c;
               Rag.md_userId := in_userId c |})
         (fun pineconeError =>
            console_error ("Pinecone error chunk " ^^ string_of_nat i ^^ ":") pineconeError) ;;
       (* Store in PostgreSQL *)
       catch
         (uploadedAt <- perform rt DateISOString ;;
          Db.embeddings_create rt id (in_documentId c) i chunk embedding
            {| sm_fileName := file_name (in_file c);
               sm_fileType := file_type (in_file c);
               sm_uploadedAt := uploadedAt |} ;;
          ret true)
         (fun pgError =>
            console_error ("PostgreSQL error chunk " ^^ string_of_nat i ^^ ":") pgError ;;
            ret false))
    (fun chunkError =>
       console_error ("Error processing chunk " ^^ string_of_nat i ^^ ":") chunkError ;;
       ret false).

(** [for (let i = 0; i < chunks.length; i++)] from index [i] on, with
    the two counters. *)
Fixpoint chunk_loop (c : ingest) (i : nat) (chunks : list string)
    (successCount failCount : nat) : M (nat * nat) :=
  match chunks with
  | [] => ret (successCount, failCount)
  | chunk :: rest =>
      stored <- process_chunk c i chunk ;;
      if stored
      then chunk_loop c (S i) rest (S successCount) failCount
      else chunk_loop c (S i) rest successCount (S failCount)
  end.

(** The response after the loop. *)
Definition document_response (c : ingest) (successCount failCount : nat)
    : upload_response :=
  UploadDocument (file_name (in_file c)) (file_type (in_file c))
    (in_documentId c) successCount (length (in_chunks c))
    successCount failCount
    (slice_to 500 (in_text c) ^^ "...").

(** [POST(request)]; [request] is [await request.formData()]. *)
Definition POST (request : result form) : M upload_response :=
  catch
    (prepared <- prepare request ;;
     match prepared with
     | inl response => ret response
     | inr c =>
         counts <- chunk_loop c 0 (in_chunks c) 0 0 ;;
         ret (document_response c (fst counts) (snd counts))
     end)
    (fun error =>
       console_error "Upload error:" error ;;
       ret (UploadError 500 "Failed to process file" (Some (error_text error)) None)).

End WithRuntime.
End UploadRoute.

(* ================================================================== *)
(** ** The chat client: src/components/ChatInterface.tsx *)
(* ================================================================== *)

Module ChatClient.
(** [Attachment] of src/types; [url] is never set. *)
Record attachment : Type := {
  att_name : string;
  att_type : string;
  att_size : Z;
  att_base64 : option string
}.

(** [Message] of src/types, without the flags of transient messages. *)
Record message : Type := {
  msg_id : string;
  msg_role : string;
  msg_content : string;
  msg_timestamp : Z;
  msg_attachments : option (list attachment)
}.

(** [ChatSession] of src/types. *)
Record session : Type := {
  s_id : string;
  s_title : string;
  s_messages : list message;
  s_createdAt : Z;
  s_updatedAt : Z
}.

(** [attachments.filter((a) => a.base64).map((a) => a.base64!)] *)
Definition images_of (attachments : list attachment) : list string :=
  flat_map (fun a => match if_truthy (att_base64 a) with
                     | Some base64 => [base64]
                     | None => []
                     end)
           attachments.

(** The [userMessage] of [handleSendMessage]. *)
Definition user_message (now timestamp : Z) (content : string)
    (attachments : list attachment) : message :=
  {| msg_id := string_of_Z now ^^ "-user";
     msg_role := "user";
     msg_content := content;
     msg_timestamp := timestamp;
     msg_attachments := if 0 <? length attachments then Some attachments else None |}.

(** The body posted to [/api/chat], as the route parses it: a key
    whose value is [undefined] is left out by [JSON.stringify]. *)
Definition request_body (newMessages : list message)
    (attachments : list attachment) (userId : string) : ChatRoute.chat_request :=
  {| ChatRoute.messages :=
       map (fun m => {| ChatRoute.role := msg_role m;
                        ChatRoute.content := msg_content m |})
           newMessages;
     ChatRoute.images :=
       (let images := images_of attachments in
        if 0 <? length images then Some images else None);
     ChatRoute.userId := Some userId |}.

(** The request [handleSendMessage] sends, if it sends one: nothing
    is sent for a blank message without attachments, nor before the
    user is loaded and signed in. *)
Definition request_of (isLoaded : bool) (user : option string)
    (messageHistory : list message) (now timestamp : Z) (content : string)
    (attachments : list attachment) : option ChatRoute.chat_request :=
  if negb (nonempty (trim content)) && (length attachments =? 0) then None
  else if negb isLoaded then None
  else match if_truthy user with
       | None => None
       | Some id =>
           let newMessages :=
             messageHistory ++ [user_message now timestamp content attachments] in
           Some (request_body newMessages attachments id)
       end.

(** [newMessages[0]?.content.substring(0, 50) || 'New Chat'] *)
Definition title_of (newMessages : list message) : string :=
  match newMessages with
  | [] => "New Chat"
  | m :: _ =>
      let title := slice_to 50 (msg_content m) in
      if nonempty title then title else "New Chat"
  end.

(** The array [updated] of [updateSession(sessionId, newMessages)],
    which becomes the state and the stored [chatSessions]. *)
Definition updateSession (now : Z) (sessions : list session)
    (sessionId : string) (newMessages : list message) : list session :=
  map (fun s =>
         if String.eqb (s_id s) sessionId
         then {| s_id := s_id s;
                 s_title := title_of newMessages;
                 s_messages := newMessages;
                 s_createdAt := s_createdAt s;
                 s_updatedAt := now |}
         else s)
      sessions.

(** The array [filtered] of [deleteSession(sessionId)]. *)
Definition deleteSession (sessions : list session) (sessionId : string)
    : list session :=
  filter (fun s => negb (String.eqb (s_id s) sessionId)) sessions.

(** [sessions.find((s) => s.id === sessionId)] of [selectSession]. *)
Definition selectSession (sessions : list session) (sessionId : string)
    : option session :=
  find (fun s => String.eqb (s_id s) sessionId) sessions.

(** The session id [handleSendMessage] works with: the current one,
    or the id of the session it makes. *)
Definition session_for_send (currentSessionId : option string) (now : Z) : string :=
  match if_truthy currentSessionId with
  | Some id => id
  | None => string_of_Z now
  end.

(** The sessions state [handleSendMessage] leaves: the value of its
    last [setSessions], made by [updateSession] from the [sessions]
    the callback closed over. *)
Definition sessions_after_send (sessions : list session)
    (currentSessionId : option string) (now updatedAt : Z)
    (finalMessages : list message) : list session :=
  updateSession updatedAt sessions (session_for_send currentSessionId now)
    finalMessages.

Section WithRuntime.
Variable rt : runtime.

(** [String(v)], as [+=] applies it to the value it appends to a
    string; on a string it is the string itself. *)
Variable ToString : jsval -> string.

(** The body of [for (const line of lines)] in [handleSendMessage]:
    [assistantContent] after the line.  The [try] ignores what
    [JSON.parse] and the reading of [data.type] throw. *)
Definition read_line (assistantContent line : string) : string :=
  if startsWith "data: " line
  then
    let dataStr := trim (slice_from 6 line) in
    if String.eqb dataStr "[DONE]" then assistantContent
    else
      match JSON_parse rt dataStr with
      | Err _ => assistantContent
      | Ok data =>
          match get data "type" with
          | Ok (JStr type_) =>
              let text := opt_get (opt_get data "delta") "text" in
              if String.eqb type_ "text-delta" && truthy text
              then assistantContent ^^ ToString text
              else assistantContent
          | _ => assistantContent
          end
      end
  else assistantContent.

(** One turn of the [while] loop: the lines of one read. *)
Definition read_chunk (assistantContent chunk : string) : string :=
  fold_left read_line (split LF chunk) assistantContent.

(** The loop, from [let assistantContent = ''] to the end of the stream. *)
Definition read_stream (chunks : list string) : string :=
  fold_left read_chunk chunks "".

End WithRuntime.

End ChatClient.

(* ================================================================== *)
(** ** The file upload of the client: [FileUpload], in
       src/components/ChatInterface.tsx *)
(* ================================================================== *)

Module FileUpload.
(** The double quote character. *)
Definition quote : string := String (ascii_of_nat 34) EmptyString.

(** [10 * 1024 * 1024] *)
Definition maxSize : Z := 10 * 1024 * 1024.

(** How [processFile] ends: with the error it shows, or with the
    attachment it hands to [onFileSelect] and the success message. *)
Inductive outcome : Type :=
| Failed (error : string)
| Attached (a : ChatClient.attachment) (success : string).

(** The form [processFile] posts: [userId] is appended only when it is
    truthy. *)
Definition form_of (userId : option string) (file : UploadRoute.file)
    : UploadRoute.form :=
  {| UploadRoute.form_userId := if_truthy userId;
     UploadRoute.form_file := Some file |}.

Section WithFormat.
(** [formatFileSize] of src/lib/utils.ts, computed there with
    [Math.log] and [Math.pow]. *)
Variable formatFileSize : Z -> string.

(** [processFile(file)], given what [fetch] and [response.json()] make
    of the answer of the upload route; the route answers an error with
    a status that is not [ok] and without [success]. *)
Definition processFile (file : UploadRoute.file)
    (response : result UploadRoute.upload_response) : outcome :=
  if (maxSize <? UploadRoute.file_size file)%Z
  then Failed ("File too large. Maximum size is " ^^ formatFileSize maxSize)
  else
    match response with
    | Err e => Failed (error_text e)
    | Ok (UploadRoute.UploadError status error details _) =>
        Failed (match if_truthy details with
                | Some d => d
                | None =>
                    if nonempty error then error
                    else "Upload failed with status " ^^ string_of_Z status
                end)
    | Ok (UploadRoute.UploadImage base64 _ _) =>
        Attached {| ChatClient.att_name := UploadRoute.file_name file;
                    ChatClient.att_type := UploadRoute.file_type file;
                    ChatClient.att_size := UploadRoute.file_size file;
                    ChatClient.att_base64 := Some base64 |}
                 ("Image " ^^ quote ^^ UploadRoute.file_name file ^^ quote
                  ^^ " uploaded successfully!")
    | Ok (UploadRoute.UploadDocument _ _ _ chunksProcessed _ _ _ _) =>
        Attached {| ChatClient.att_name := UploadRoute.file_name file;
                    ChatClient.att_type := UploadRoute.file_type file;
                    ChatClient.att_size := UploadRoute.file_size file;
                    ChatClient.att_base64 := None |}
                 ("Document " ^^ quote ^^ UploadRoute.file_name file ^^ quote
                  ^^ " processed (" ^^ string_of_nat chunksProcessed
                  ^^ " chunks created)")
    end.

End WithFormat.

End FileUpload.

(* ================================================================== *)
(** ** src/lib/utils.ts *)
(* ================================================================== *)

Module Utils.
(** [fileName.split('.').pop()?.toLowerCase()]: [split] never returns
    an empty array, so [pop()] is a string. *)
Definition extension (fileName : string) : string :=
  toLowerCase (last (split "."%char fileName) "").

Definition imageExtensions : list string :=
  ["png"; "jpg"; "jpeg"; "gif"; "webp"; "bmp"; "svg"; "tiff"; "tif"].

Definition docExtensions : list string := ["pdf"; "doc"; "docx"; "txt"].

(** [l.includes(ext || '')] *)
Definition isImageFile (fileName : string) : bool :=
  existsb (String.eqb (extension fileName)) imageExtensions.

Definition isDocumentFile (fileName : string) : bool :=
  existsb (String.eqb (extension fileName)) docExtensions.

(** The object literal [mimeTypes]. *)
Definition mimeTypes : list (string * string) :=
  [ ("pdf", "application/pdf");
    ("doc", "application/msword");
    ("docx", "application/vnd.openxmlformats-officedocument.wordprocessingml.document");
    ("txt", "text/plain");
    ("png", "image/png");
    ("jpg", "image/jpeg");
    ("jpeg", "image/jpeg");
    ("gif", "image/gif");
    ("webp", "image/webp");
    ("bmp", "image/bmp");
    ("svg", "image/svg+xml");
    ("tiff", "image/tiff");
    ("tif", "image/tiff") ].

(** The members every object inherits from [Object.prototype]. *)
Definition Object_prototype : list string :=
  [ "constructor"; "__defineGetter__"; "__defineSetter__"; "hasOwnProperty";
    "__lookupGetter__"; "__lookupSetter__"; "isPrototypeOf";
    "propertyIsEnumerable"; "toString"; "valueOf"; "__proto__"; "toLocaleString" ].

(** What [getMimeType] returns: a type, or the inherited member that
    [mimeTypes[ext]] found, which is an object and so truthy. *)
Inductive mime : Type :=
| MimeType (type_ : string)
| Inherited (member : string).

Fixpoint own (key : string) (fields : list (string * string)) : option string :=
  match fields with
  | [] => None
  | (k, v) :: rest => if String.eqb key k then Some v else own key rest
  end.

(** [mimeTypes[ext || ''] || 'application/octet-stream'] *)
Definition getMimeType (fileName : string) : mime :=
  let ext := extension fileName in
  match own ext mimeTypes with
  | Some type_ => MimeType type_
  | None =>
      if existsb (String.eqb ext) Object_prototype
      then Inherited ext
      else MimeType "application/octet-stream"
  end.

End Utils.

(* ================================================================== *)
(** ** Concrete runtimes, used to run the model *)
(* ================================================================== *)

Module Scenario.

(** The double quote character, for JSON texts. *)
Definition dq : string := String (ascii_of_nat 34) EmptyString.

(** The answers of a runtime that does not look at the history. *)
Record answers : Type := {
  on_new_pinecone : result unit;
  on_pinecone_upsert : result unit;
  on_pinecone_query : result query_response;
  on_embeddings : string -> result embeddings_response;
  on_completions : result completions_response;
  on_select_user : result (list sql_row);
  on_upsert_user : result (list sql_row);
  on_insert_embedding : nat -> result (list sql_row);
  on_search : result (list pg_row);
  on_insert_chat_message : result (list sql_row);
  on_extract : result string;
  on_chunk : result (list string)
}.

Definition oracle_of (a : answers) : list call -> forall X : Type, extE X -> X :=
  fun _ X e =>
    match e in extE X return X with
    | NewPinecone _ => on_new_pinecone a
    | PineconeUpsert _ _ _ _ _ => on_pinecone_upsert a
    | PineconeQuery _ _ _ _ => on_pinecone_query a
    | EmbeddingsFetch _ _ input => on_embeddings a input
    | CompletionsFetch _ _ => on_completions a
    | SqlInitSchema => Ok tt
    | SqlSelectUser _ => on_select_user a
    | SqlUpsertUser _ _ _ _ => on_upsert_user a
    | SqlSelectUserId _ => Ok [[("id", JStr "u1")]]
    | SqlInsertDocument _ _ _ _ _ _ => Ok [[("id", JStr "doc")]]
    | SqlInsertEmbedding _ _ i _ _ _ => on_insert_embedding a i
    | SqlSearchEmbeddings _ _ => on_search a
    | SqlInsertChatMessage _ _ _ _ _ => on_insert_chat_message a
    | DateNow => 1700000000000%Z
    | DateISOString => "2025-11-20T00:00:00.000Z"
    | MathRandomBase36 => "k3j9x0q2a"
    | RandomBytesHex => "9f3a1c07"
    | ExtractTextFromPDF _ => on_extract a
    | ExtractTextFromDOCX _ => on_extract a
    | ExtractTextFromTXT _ => on_extract a
    | ProcessImage _ _ => Ok "data:image/png;base64,AAAA"
    | ChunkText _ => on_chunk a
    end.

Definition v1536 : vector := repeat 0%float 1536.

Definition good_embedding : embeddings_response :=
  {| emb_ok := true; emb_status := 200; emb_text := Ok "";
     emb_json := Ok (Some v1536) |}.

Definition user_row_u1 : sql_row := [("id", JStr "u1")].

(** Everything answers and succeeds; both stores are empty. *)
Definition calm : answers :=
  {| on_new_pinecone := Ok tt;
     on_pinecone_upsert := Ok tt;
     on_pinecone_query := Ok {| matches := Some [] |};
     on_embeddings := fun _ => Ok good_embedding;
     on_completions :=
       Ok {| cmp_ok := true; cmp_status := 200; cmp_text := Ok "";
             cmp_body := Some {| reads := []; broken := None |} |};
     on_select_user := Ok [user_row_u1];
     on_upsert_user := Ok [user_row_u1];
     on_insert_embedding := fun _ => Ok [[("id", JStr "e")]];
     on_search := Ok [];
     on_insert_chat_message := Ok [[("id", JStr "m")]];
     on_extract := Ok "Some extracted text.";
     on_chunk := Ok ["Some extracted text."] |}.

Definition env_full : config :=
  {| OPENROUTER_API_KEY := Some "sk-or-key";
     PINECONE_API_KEY := Some "pc-key";
     PINECONE_INDEX := Some "rag-index";
     NEXT_PUBLIC_APP_URL := None;
     DATABASE_URL := Some "postgres://db" |}.

(** A [JSON.parse] that knows the payloads listed in [table] and throws
    a SyntaxError on every other text. *)
Fixpoint parse_table (table : list (string * jsval)) (s : string) : result jsval :=
  match table with
  | [] => Err (Thrown "SyntaxError: Unexpected token")
  | (text, v) :: rest => if String.eqb s text then Ok v else parse_table rest s
  end.

(** A [JSON.stringify] good for the event objects of the chat route
    whose text is a string without characters to escape. *)
Definition stringify_event (v : jsval) : string :=
  match v with
  | JObj [(_, JStr ty); (_, JObj [(_, JStr text)])] =>
      "{" ^^ dq ^^ "type" ^^ dq ^^ ":" ^^ dq ^^ ty ^^ dq ^^ ","
      ^^ dq ^^ "delta" ^^ dq ^^ ":{" ^^ dq ^^ "text" ^^ dq ^^ ":"
      ^^ dq ^^ text ^^ dq ^^ "}}"
  | _ => "null"
  end.

Definition runtime_of (table : list (string * jsval)) (a : answers) : runtime :=
  {| env := env_full;
     oracle := oracle_of a;
     JSON_parse := parse_table table;
     JSON_stringify := stringify_event |}.

Definition fresh : world :=
  {| trace := []; console := []; pineconeClient := None; sql := false |}.


Definition rt_calm : runtime := runtime_of [] calm.

(** The embedding service answers with a vector of three numbers. *)
Definition v3 : vector := [0.25%float; 0.5%float; 0.75%float].

Definition rt_short_vector : runtime :=
  runtime_of []
    {| on_new_pinecone := Ok tt;
       on_pinecone_upsert := Ok tt;
       on_pinecone_query := Ok {| matches := Some [] |};
       on_embeddings :=
         fun _ => Ok {| emb_ok := true; emb_status := 200; emb_text := Ok "";
                        emb_json := Ok (Some v3) |};
       on_completions := on_completions calm;
       on_select_user := Ok [user_row_u1];
       on_upsert_user := Ok [user_row_u1];
       on_insert_embedding := fun _ => Ok [[("id", JStr "e")]];
       on_search := Ok [];
       on_insert_chat_message := Ok [[("id", JStr "m")]];
       on_extract := on_extract calm;
       on_chunk := on_chunk calm |}.

Definition sample_metadata : Rag.embedding_metadata :=
  {| Rag.md_content := "the sky is blue";
     Rag.md_fileName := "notes.txt";
     Rag.md_fileType := "text/plain";
     Rag.md_chunkIndex := 0;
     Rag.md_uploadedAt := "2025-11-20T00:00:00.000Z";
     Rag.md_documentId := "doc-1";
     Rag.md_userId := "u1" |}.

Definition row_sky : pg_row :=
  {| row_id := "doc-1-chunk-0"; row_document_id := "doc-1";
     row_content := "the sky is blue"; row_metadata := JNull;
     row_similarity := 0.5%float |}.

Definition row_cats : pg_row :=
  {| row_id := "doc-1-chunk-1"; row_document_id := "doc-1";
     row_content := "cats are mammals"; row_metadata := JNull;
     row_similarity := 0.75%float |}.

(** A record of the secondary index, as [storeEmbedding] wrote it: the
    chunk text sits under [metadata.content]. *)
Definition match_sky : pc_match :=
  {| match_id := "doc-1-chunk-0";
     match_score := Some 0.5%float;
     match_metadata := Some [("content", JStr "the sky is blue");
                             ("fileName", JStr "notes.txt")] |}.

Definition with_stores (search : result (list pg_row))
    (query : result query_response) (upsert : result unit) : answers :=
  {| on_new_pinecone := Ok tt;
     on_pinecone_upsert := upsert;
     on_pinecone_query := query;
     on_embeddings := fun _ => Ok good_embedding;
     on_completions := on_completions calm;
     on_select_user := Ok [user_row_u1];
     on_upsert_user := Ok [user_row_u1];
     on_insert_embedding := fun _ => Ok [[("id", JStr "e")]];
     on_search := search;
     on_insert_chat_message := Ok [[("id", JStr "m")]];
     on_extract := on_extract calm;
     on_chunk := on_chunk calm |}.

(** The primary store holds two rows, the less relevant one first. *)
Definition rt_primary_hit : runtime :=
  runtime_of [] (with_stores (Ok [row_cats; row_sky])
                             (Ok {| matches := Some [match_sky] |}) (Ok tt)).

(** The primary store is empty, the secondary index has one record. *)
Definition rt_primary_empty : runtime :=
  runtime_of [] (with_stores (Ok []) (Ok {| matches := Some [match_sky] |}) (Ok tt)).

(** The primary search fails, the secondary index has one record. *)
Definition rt_primary_down : runtime :=
  runtime_of [] (with_stores (Err (Thrown "Connection terminated unexpectedly"))
                             (Ok {| matches := Some [match_sky] |}) (Ok tt)).

(** The secondary index refuses writes. *)
Definition rt_secondary_down : runtime :=
  runtime_of [] (with_stores (Ok []) (Ok {| matches := Some [] |})
                             (Err (Error "index unavailable"))).

(** No key for the embedding service. *)
Definition rt_no_key : runtime :=
  {| env := {| OPENROUTER_API_KEY := None;
               PINECONE_API_KEY := Some "pc-key";
               PINECONE_INDEX := Some "rag-index";
               NEXT_PUBLIC_APP_URL := None;
               DATABASE_URL := Some "postgres://db" |};
     oracle := oracle_of calm;
     JSON_parse := parse_table [];
     JSON_stringify := stringify_event |}.

(** The payload of a provider chunk whose delta carries [text], and the
    value [JSON.parse] makes of it. *)
Definition delta_payload (text : string) : string :=
  "{" ^^ dq ^^ "choices" ^^ dq ^^ ":[{" ^^ dq ^^ "delta" ^^ dq ^^ ":{"
  ^^ dq ^^ "content" ^^ dq ^^ ":" ^^ dq ^^ text ^^ dq ^^ "}}]}".

Definition delta_json (text : string) : jsval :=
  JObj [("choices", JArr [JObj [("delta", JObj [("content", JStr text)])]])].

Definition sse_chunk (payload : string) : string := "data: " ^^ payload ^^ nlnl.

Definition rt_stream : runtime :=
  runtime_of
    [ (delta_payload "", delta_json "");
      (delta_payload "Hel", delta_json "Hel");
      (delta_payload "lo", delta_json "lo");
      (delta_payload "!", delta_json "!") ]
    calm.


Definition blank_turn : ChatRoute.request_json :=
  {| ChatRoute.json_messages :=
       Some [{| ChatRoute.role := "user"; ChatRoute.content := "   " |}];
     ChatRoute.json_images := None;
     ChatRoute.json_userId := Some "u1" |}.



(** An upload of a text file cut in two chunks; the embedding service
    fails on the first chunk; the user is new. *)
Definition two_chunks : list string :=
  [ "FAIL: the first chunk of the uploaded notes, long enough to be kept.";
    "The second chunk of the uploaded notes, long enough to be kept too." ].

Definition rt_partial : runtime :=
  runtime_of []
    {| on_new_pinecone := Ok tt;
       on_pinecone_upsert := Ok tt;
       on_pinecone_query := Ok {| matches := Some [] |};
       on_embeddings :=
         fun input => if startsWith "FAIL" input
                      then Err (Error "fetch failed")
                      else Ok good_embedding;
       on_completions := on_completions calm;
       on_select_user := Ok [];
       on_upsert_user := Ok [user_row_u1];
       on_insert_embedding := fun _ => Ok [[("id", JStr "e")]];
       on_search := Ok [];
       on_insert_chat_message := Ok [[("id", JStr "m")]];
       on_extract := Ok (join " " two_chunks);
       on_chunk := Ok two_chunks |}.

Definition notes_file : UploadRoute.file :=
  {| UploadRoute.file_name := "notes.txt";
     UploadRoute.file_size := 137;
     UploadRoute.file_type := "text/plain";
     UploadRoute.file_bytes := [] |}.

Definition notes_upload : UploadRoute.form :=
  {| UploadRoute.form_userId := Some "u1";
     UploadRoute.form_file := Some notes_file |}.

Definition notes_ingest : UploadRoute.ingest :=
  {| UploadRoute.in_file := notes_file;
     UploadRoute.in_userId := "u1";
     UploadRoute.in_text := join " " two_chunks;
     UploadRoute.in_documentId := "doc-1700000000000-k3j9x0q2a";
     UploadRoute.in_chunks := two_chunks |}.


Definition rt_no_database : runtime :=
  {| env := {| OPENROUTER_API_KEY := Some "sk-or-key";
               PINECONE_API_KEY := None;
               PINECONE_INDEX := None;
               NEXT_PUBLIC_APP_URL := None;
               DATABASE_URL := None |};
     oracle := oracle_of calm;
     JSON_parse := parse_table [];
     JSON_stringify := stringify_event |}.

(** The user lookup of [db.documents.create] finds no row. *)
Definition oracle_no_user : list call -> forall X : Type, extE X -> X :=
  fun tr X e =>
    match e in extE X return X with
    | SqlSelectUserId _ => Ok []
    | e' => oracle_of calm tr _ e'
    end.

Definition rt_no_user : runtime :=
  {| env := env_full;
     oracle := oracle_no_user;
     JSON_parse := parse_table [];
     JSON_stringify := stringify_event |}.

Definition match_cats : pc_match :=
  {| match_id := "doc-1-chunk-1";
     match_score := Some 0.25%float;
     match_metadata := Some [("content", JStr "cats are mammals");
                             ("fileName", JStr "notes.txt")] |}.

(** The primary store is empty, the secondary index has two records. *)
Definition rt_secondary_two : runtime :=
  runtime_of [] (with_stores (Ok []) (Ok {| matches := Some [match_sky; match_cats] |}) (Ok tt)).

Definition row_sea : pg_row :=
  {| row_id := "doc-2-chunk-0"; row_document_id := "doc-2";
     row_content := "the sea is blue"; row_metadata := JNull;
     row_similarity := 0.25%float |}.




(** A turn that carries an image and no text, after an earlier exchange. *)
Definition image_only_turn : ChatRoute.chat_request :=
  {| ChatRoute.messages :=
       [{| ChatRoute.role := "user"; ChatRoute.content := "Hello" |};
        {| ChatRoute.role := "assistant"; ChatRoute.content := "Hi!" |};
        {| ChatRoute.role := "user"; ChatRoute.content := "" |}];
     ChatRoute.images := Some ["data:image/png;base64,AAAA"];
     ChatRoute.userId := Some "u1" |}.

Definition event_json (text : string) : jsval :=
  JObj [("type", JStr "text-delta"); ("delta", JObj [("text", JStr text)])].

(** Both JSON functions know the provider's payloads and the route's
    events for the texts ["Hel"] and ["lo"]. *)
Definition rt_both_ways : runtime :=
  runtime_of
    [ (delta_payload "", delta_json "");
      (delta_payload "Hel", delta_json "Hel");
      (delta_payload "lo", delta_json "lo");
      (stringify_event (event_json "Hel"), event_json "Hel");
      (stringify_event (event_json "lo"), event_json "lo") ]
    calm.

Definition string_of_value (v : jsval) : string :=
  match v with
  | JStr s => s
  | JNull => "null"
  | JBool true => "true"
  | JBool false => "false"
  | _ => "undefined"
  end.

Definition photo : ChatClient.attachment :=
  {| ChatClient.att_name := "photo.png"; ChatClient.att_type := "image/png"; ChatClient.att_size := 2048;
     ChatClient.att_base64 := Some "data:image/png;base64,AAAA" |}.

Definition earlier_chat : ChatClient.session :=
  {| ChatClient.s_id := "1699999999999"; ChatClient.s_title := "Hello";
     ChatClient.s_messages := []; ChatClient.s_createdAt := 1699999999999; ChatClient.s_updatedAt := 1699999999999 |}.


(** The primary store refuses the rows of embeddings. *)
Definition rt_primary_write_down : runtime :=
  runtime_of []
    {| on_new_pinecone := Ok tt;
       on_pinecone_upsert := Ok tt;
       on_pinecone_query := Ok {| matches := Some [] |};
       on_embeddings := fun _ => Ok good_embedding;
       on_completions := on_completions calm;
       on_select_user := Ok [user_row_u1];
       on_upsert_user := Ok [user_row_u1];
       on_insert_embedding := fun _ => Err (Error "connection lost");
       on_search := Ok [];
       on_insert_chat_message := Ok [[("id", JStr "m")]];
       on_extract := on_extract calm;
       on_chunk := on_chunk calm |}.

(** The INSERTs into embeddings sent so far. *)
Definition inserts_so_far (tr : list call) : nat :=
  length (filter (fun x => match x with
                           | Call (SqlInsertEmbedding _ _ _ _ _ _) _ => true
                           | _ => false
                           end) tr).

(** The upload of [rt_partial] with an embedding service that always
    answers, and a primary store that refuses every other INSERT into
    embeddings, the first one included: for each chunk the write of
    [storeEmbedding] is refused and the write of the route, which
    follows it, goes through. *)
Definition oracle_first_write_fails : list call -> forall X : Type, extE X -> X :=
  fun tr X e =>
    match e in extE X return X with
    | SqlInsertEmbedding _ _ _ _ _ _ =>
        if Nat.even (inserts_so_far tr)
        then Err (Thrown "Connection terminated unexpectedly")
        else Ok [[("id", JStr "e")]]
    | EmbeddingsFetch _ _ _ => Ok good_embedding
    | e' => oracle rt_partial tr _ e'
    end.

Definition rt_first_write_fails : runtime :=
  {| env := env_full;
     oracle := oracle_first_write_fails;
     JSON_parse := parse_table [];
     JSON_stringify := stringify_event |}.

(** The body [{}]. *)
Definition empty_json : ChatRoute.request_json :=
  {| ChatRoute.json_messages := None;
     ChatRoute.json_images := None;
     ChatRoute.json_userId := None |}.

End Scenario.

(* ================================================================== *)
(** ** Vocabulary of the statements *)
(* ================================================================== *)

(** *** Traces *)

Definition pinecone_call (c : call) : bool :=
  match c with
  | Call (NewPinecone _) _ => true
  | Call (PineconeUpsert _ _ _ _ _) _ => true
  | Call (PineconeQuery _ _ _ _) _ => true
  | _ => false
  end.

(** A statement that writes a row referring, directly or through its
    document, to a user. *)
Definition child_write (c : call) : bool :=
  match c with
  | Call (SqlInsertDocument _ _ _ _ _ _) _ => true
  | Call (SqlInsertEmbedding _ _ _ _ _ _) _ => true
  | Call (SqlInsertChatMessage _ _ _ _ _) _ => true
  | _ => false
  end.

(** A call whose answer shows that the row of user [u] exists: the
    lookup returned it, or the upsert went through. *)
Definition confirms_user (u : string) (c : call) : bool :=
  match c with
  | Call e a =>
      match e in extE X return X -> bool with
      | SqlSelectUser id =>
          fun a => match a with
                   | Ok (_ :: _) => String.eqb id u
                   | _ => false
                   end
      | SqlUpsertUser id _ _ _ =>
          fun a => match a with
                   | Ok _ => String.eqb id u
                   | Err _ => false
                   end
      | _ => fun _ => false
      end a
  end.

(** Every child write of [d] comes after a confirmation of user [u]. *)
Definition guarded (u : string) (d : list call) : Prop :=
  forall pre c post,
    d = pre ++ c :: post -> child_write c = true ->
    existsb (confirms_user u) pre = true.

Definition any_call (c : call) : Prop := True.
Definition no_child_write (c : call) : Prop := child_write c = false.

(** [w'] is [w] after more calls, all in [Q], and more console lines. *)
Definition extends (Q : call -> Prop) (w w' : world) : Prop :=
  exists d l,
    trace w' = trace w ++ d /\ console w' = console w ++ l /\ Forall Q d.

(** A computation that issues calls of [Q] only. *)
Definition only (Q : call -> Prop) {A} (c : M A) : Prop :=
  forall w, extends Q w (snd (c w)).


Definition stable (Q : call -> Prop) (P : world -> Prop) : Prop :=
  forall w w', P w -> extends Q w w' -> P w'.

(** Since the trace was [t0]: no child write yet. *)
Definition Pending (t0 : list call) (w : world) : Prop :=
  exists d, trace w = t0 ++ d /\ Forall no_child_write d.

(** Since the trace was [t0]: the user is confirmed, and no child write
    came before the confirmation. *)
Definition Confirmed (u : string) (t0 : list call) (w : world) : Prop :=
  exists d, trace w = t0 ++ d /\ guarded u d
            /\ existsb (confirms_user u) d = true.







(** *** The two stores *)

(** The world in which the fallback of [queryEmbeddings] starts, given
    the outcome of the primary search. *)
Definition after_primary (r : result (list pg_row)) (w1 : world) : world :=
  match r with
  | Ok _ => w1
  | Err e => snd (console_error "PostgreSQL query failed:" e w1)
  end.

(** The primary search gave no row or failed. *)
Definition primary_missed (r : result (list pg_row)) : Prop :=
  match r with
  | Ok [] => True
  | Ok (_ :: _) => False
  | Err _ => True
  end.

(** The call of [db.embeddings.create] made by [storeEmbedding]. *)
Definition primary_write (rt : runtime) (id : string) (v : vector)
    (md : Rag.embedding_metadata) : M (option sql_row) :=
  Db.embeddings_create rt id (Rag.md_documentId md) (Rag.md_chunkIndex md)
    (Rag.md_content md) v
    {| sm_fileName := Rag.md_fileName md;
       sm_fileType := Rag.md_fileType md;
       sm_uploadedAt := Rag.md_uploadedAt md |}.

(** The common result shape of the specification carries the text of a
    result at its top level, as the rows of the primary store do in
    [content]. *)
Definition has_content (m : Rag.match_) : Prop :=
  exists c, Rag.content_field m = JStr c.

(** *** Re-ranking *)

Definition score (query : string) (m : Rag.match_) : Q :=
  match Rag.similarity_of query m with
  | Ok s => s
  | Err _ => 0%Q
  end.

(** The words of [a], as [a.split(" ")] cuts them, that occur in [b]. *)
Definition matching_words (a b : string) : nat :=
  length (filter (fun w => includes w b) (split SP a)).

Definition ranked_before (query : string) (a b : Rag.match_) : Prop :=
  (score query b <= score query a)%Q.

Definition all_space (s : string) : bool :=
  forallb is_space (list_ascii_of_string s).

(** The text [retrieveContext] embeds for [query]. *)
Definition rewritten (query : string) : string :=
  "Use the document only. Extract the answer. Question: " ^^ query.

(** *** The completion stream *)

Definition no_newline (s : string) : bool :=
  forallb (fun c => negb (Ascii.eqb c LF)) (list_ascii_of_string s).

(** The provider's terminal marker, as one read. *)
Definition done_chunk : string := "data: [DONE]" ^^ nlnl.

(** A provider delta chunk: one read holding one event, the line
    [data: <payload>] and a blank line, whose payload parses and whose
    [choices[0].delta.content] is [delta]. *)
Definition delta_chunk (rt : runtime) (chunk : string) (delta : jsval) : Prop :=
  exists payload parsed,
    chunk = "data: " ^^ payload ^^ nlnl
    /\ no_newline payload = true
    /\ payload <> "[DONE]"
    /\ JSON_parse rt payload = Ok parsed
    /\ ChatRoute.delta_of parsed = Ok delta.


(** *** The embedding request *)

(** Every white space of [s] is a SP that does not follow another white
    space; [prev] tells that the character before [s] was white space. *)
Fixpoint single_spaced_from (prev : bool) (s : string) : bool :=
  match s with
  | "" => true
  | String c s' =>
      if is_space c
      then Ascii.eqb c SP && negb prev && single_spaced_from true s'
      else single_spaced_from false s'
  end.

Definition starts_clean (s : string) : bool :=
  match s with
  | "" => true
  | String c _ => negb (is_space c)
  end.

Fixpoint ends_clean (s : string) : bool :=
  match s with
  | "" => true
  | String c "" => negb (is_space c)
  | String _ s' => ends_clean s'
  end.

(** What a request to the embedding service carries as [input]. *)
#[warnings="-abstract-large-number"]
Definition tidy_input (input : string) : Prop :=
  String.length input <= 8000
  /\ single_spaced_from false input = true
  /\ starts_clean input = true
  /\ ends_clean input = true.

(** The request [embedText] sends for [text] with the key [key]. *)
#[warnings="-abstract-large-number"]
Definition embeddings_request (rt : runtime) (key text : string)
    : extE (result embeddings_response) :=
  EmbeddingsFetch ("Bearer " ^^ key)
    (match if_truthy (NEXT_PUBLIC_APP_URL (env rt)) with
     | Some url => url
     | None => "http://localhost:3000"
     end)
    (trim (collapse_spaces (slice_to 8000 text))).

Definition embedding_error_line (e : js_error) : log_line :=
  {| level := Error_; label := "Embedding error:"; detail := error_text e |}.

(** *** The database layer *)

Definition database_url_error : js_error :=
  Error "❌ DATABASE_URL environment variable is not set".

(** [c] raises the DATABASE_URL error in [w] and issues no call. *)
Definition refused_for_url {A} (c : M A) (w : world) : Prop :=
  fst (c w) = Err database_url_error /\ trace (snd (c w)) = trace w.

Definition right_dimension (c : call) : Prop :=
  match c with
  | Call (SqlInsertEmbedding _ _ _ _ v _) _ => length v = 1536
  | Call (PineconeUpsert _ _ _ v _) _ => length v = 1536
  | Call (SqlSearchEmbeddings v _) _ => length v = 1536
  | Call (PineconeQuery _ _ v _) _ => length v = 1536
  | _ => True
  end.

(** *** Metadata of the secondary index *)

(** A value the secondary index accepts in a metadata field. *)
Definition flat_value (v : jsval) : bool :=
  match v with
  | JStr _ | JNum _ | JBool _ => true
  | _ => false
  end.

(** Neither [undefined] nor [null]. *)
Definition defined_value (v : jsval) : bool :=
  match v with
  | JUndefined | JNull => false
  | _ => true
  end.

(** The record of the secondary index that [storeEmbedding] writes for
    [md], as a query returns it. *)
Definition stored_match (rt : runtime) (id : string) (score : option number)
    (md : Rag.embedding_metadata) : pc_match :=
  {| match_id := id;
     match_score := score;
     match_metadata := Some (Rag.cleanMetadata rt (Rag.Object_entries md)) |}.

Definition context_error_line (e : js_error) : log_line :=
  {| level := Error_; label := "Context retrieval error:"; detail := error_text e |}.

(** *** Ties and phrases in the re-ranking *)

(** The matches of [l] whose score for [query] is [s], in the order of [l]. *)
Definition with_score (query : string) (s : Q) (l : list Rag.match_)
    : list Rag.match_ :=
  filter (fun m => Qeq_bool (score query m) s) l.

(** The number of words [a.split(" ")] cuts [a] in. *)
Definition word_count (a : string) : nat := length (split SP a).

(** *** Events of the chat route *)

(** The two events the chat route ever enqueues. *)
Definition route_event (rt : runtime) (ev : string) : Prop :=
  ev = ChatRoute.done_event
  \/ exists delta, truthy delta = true /\ ev = ChatRoute.text_delta_event rt delta.

(** The lines of all reads, in order. *)
Definition lines_of (chunks : list string) : list string :=
  flat_map (split LF) chunks.

(** *** Kinds of calls *)

(** What a call does outside the process. *)
Inductive call_kind : Type :=
| Schema            (* CREATE ... IF NOT EXISTS *)
| UserRead          (* SELECT on users *)
| UserWrite         (* upsert on users *)
| DocumentWrite     (* INSERT INTO documents *)
| EmbeddingWrite    (* INSERT INTO embeddings *)
| VectorSearch            (* similarity search on embeddings *)
| MessageWrite      (* INSERT INTO chat_messages *)
| Embedding         (* the embeddings endpoint *)
| Completion        (* the completions endpoint *)
| IndexInit         (* new Pinecone(...) *)
| IndexWrite        (* index.upsert *)
| IndexQuery        (* index.query *)
| Clock             (* clock and random sources *)
| FileProcessing.   (* extractors, image processing, chunking *)

Definition kind_of (c : call) : call_kind :=
  match c with
  | Call e _ =>
      match e with
      | NewPinecone _ => IndexInit
      | PineconeUpsert _ _ _ _ _ => IndexWrite
      | PineconeQuery _ _ _ _ => IndexQuery
      | EmbeddingsFetch _ _ _ => Embedding
      | CompletionsFetch _ _ => Completion
      | SqlInitSchema => Schema
      | SqlSelectUser _ => UserRead
      | SqlUpsertUser _ _ _ _ => UserWrite
      | SqlSelectUserId _ => UserRead
      | SqlInsertDocument _ _ _ _ _ _ => DocumentWrite
      | SqlInsertEmbedding _ _ _ _ _ _ => EmbeddingWrite
      | SqlSearchEmbeddings _ _ => VectorSearch
      | SqlInsertChatMessage _ _ _ _ _ => MessageWrite
      | DateNow | DateISOString | MathRandomBase36 | RandomBytesHex => Clock
      | ExtractTextFromPDF _ | ExtractTextFromDOCX _ | ExtractTextFromTXT _
      | ProcessImage _ _ | ChunkText _ => FileProcessing
      end
  end.

Definition kind_code (k : call_kind) : nat :=
  match k with
  | Schema => 0 | UserRead => 1 | UserWrite => 2 | DocumentWrite => 3
  | EmbeddingWrite => 4 | VectorSearch => 5 | MessageWrite => 6 | Embedding => 7
  | Completion => 8 | IndexInit => 9 | IndexWrite => 10 | IndexQuery => 11
  | Clock => 12 | FileProcessing => 13
  end.

Definition has_kind (ks : list call_kind) (k : call_kind) : bool :=
  existsb (fun k' => kind_code k =? kind_code k') ks.

(** The call is of one of the kinds [ks]. *)
Definition among (ks : list call_kind) (c : call) : Prop :=
  has_kind ks (kind_of c) = true.

Definition retrieval_kinds : list call_kind :=
  [Embedding; VectorSearch; IndexInit; IndexQuery].

Definition chat_kinds : list call_kind :=
  [Schema; UserRead; UserWrite; Embedding; VectorSearch; IndexInit; IndexQuery;
   Completion; Clock; MessageWrite].

Definition upload_kinds : list call_kind :=
  [Schema; UserRead; UserWrite; FileProcessing; Clock; DocumentWrite;
   Embedding; EmbeddingWrite; IndexInit; IndexWrite].




(** *** Responses of the upload route *)

(** The condition of step 3 of the upload route. *)
Definition is_image (mimeType : string) : bool :=
  UploadRoute.includes_type UploadRoute.SUPPORTED_IMAGE_TYPES mimeType
  || startsWith "image/" mimeType.

Definition is_document_response (r : UploadRoute.upload_response) : bool :=
  match r with
  | UploadRoute.UploadDocument _ _ _ _ _ _ _ _ => true
  | _ => false
  end.

Definition is_error_response (r : UploadRoute.upload_response) : bool :=
  match r with
  | UploadRoute.UploadError _ _ _ _ => true
  | _ => false
  end.

(** [c] issues calls of [Q] only and returns a result in [S]. *)
Definition yields (Q : call -> Prop) {A} (S : result A -> Prop) (c : M A) : Prop :=
  forall w, extends Q w (snd (c w)) /\ S (fst (c w)).

Definition is_image_response (r : UploadRoute.upload_response) : bool :=
  match r with
  | UploadRoute.UploadImage _ _ _ => true
  | _ => false
  end.

(** *** Chunk rows *)

(** The id under which chunk [i] of document [c] is stored. *)
Definition chunk_id (c : UploadRoute.ingest) (i : nat) : string :=
  UploadRoute.in_documentId c ^^ "-chunk-" ^^ string_of_nat i.

(** A write of chunk [i] with text [chunk]: a row of the primary store
    or a record of the secondary index; every other call passes. *)
Definition writes_chunk (c : UploadRoute.ingest) (i : nat) (chunk : string)
    (x : call) : Prop :=
  match x with
  | Call (SqlInsertEmbedding id documentId chunkIndex content _ metadata) _ =>
      id = chunk_id c i /\ documentId = UploadRoute.in_documentId c
      /\ chunkIndex = i /\ content = chunk
      /\ sm_fileName metadata = UploadRoute.file_name (UploadRoute.in_file c)
      /\ sm_fileType metadata = UploadRoute.file_type (UploadRoute.in_file c)
  | Call (PineconeUpsert _ _ id _ metadata) _ =>
      id = chunk_id c i
      /\ assoc "content" metadata = JStr chunk
      /\ assoc "documentId" metadata = JStr (UploadRoute.in_documentId c)
      /\ assoc "userId" metadata = JStr (UploadRoute.in_userId c)
      /\ assoc "chunkIndex" metadata = JNum (number_of_nat i)
  | _ => True
  end.

(** A write of one of the chunks of [chunks], numbered from [from]. *)
Definition writes_chunk_of (c : UploadRoute.ingest) (from : nat)
    (chunks : list string) (x : call) : Prop :=
  exists i chunk, nth_error chunks i = Some chunk /\ writes_chunk c (from + i) chunk x.

Definition is_embedding_write (x : call) : bool :=
  match x with
  | Call (SqlInsertEmbedding _ _ _ _ _ _) _ => true
  | _ => false
  end.

(** *** Prompt messages *)

(** The test of [messages.filter] in the chat route. *)
Definition kept (msg : ChatRoute.chat_message) : bool :=
  nonempty (ChatRoute.role msg) && nonempty (ChatRoute.content msg).

Definition is_plain (m : prompt_message) : bool :=
  match pm_content m with
  | Plain _ => true
  | Parts _ => false
  end.

(** The multimodal content built for [msg]. *)
Definition with_images (req : ChatRoute.chat_request) (msg : ChatRoute.chat_message)
    : message_content :=
  Parts (TextPart (ChatRoute.content msg)
         :: map ImageUrlPart
              (match ChatRoute.images req with Some l => l | None => [] end)).

Definition prompt_role (msg : ChatRoute.chat_message) : string :=
  if String.eqb (toLowerCase (ChatRoute.role msg)) "assistant"
  then "assistant" else "user".

Definition plain_message (msg : ChatRoute.chat_message) : prompt_message :=
  {| pm_role := prompt_role msg; pm_content := Plain (ChatRoute.content msg) |}.

(** *** The stream between route and client *)

(** The object the chat route serialises for a delta. *)
Definition event_object (delta : jsval) : jsval :=
  JObj [("type", JStr "text-delta"); ("delta", JObj [("text", delta)])].

(** The two JSON functions agree on the event of [delta]: its text has
    no line break, is not the end marker, and parses back. *)
Definition round_trips (rt : runtime) (delta : jsval) : Prop :=
  let text := JSON_stringify rt (event_object delta) in
  no_newline text = true
  /\ trim text <> "[DONE]"
  /\ JSON_parse rt (trim text) = Ok (event_object delta).

(** The string ends a line. *)
Definition ends_line (s : string) : Prop := exists a, s = a ^^ nl.


(** *** The primary write of [storeEmbedding] *)

(** The statement [storeEmbedding] sends to the primary store. *)
Definition primary_insert (id : string) (v : vector) (md : Rag.embedding_metadata)
    : extE (result (list sql_row)) :=
  SqlInsertEmbedding id (Rag.md_documentId md) (Rag.md_chunkIndex md)
    (Rag.md_content md) v
    {| sm_fileName := Rag.md_fileName md;
       sm_fileType := Rag.md_fileType md;
       sm_uploadedAt := Rag.md_uploadedAt md |}.

(** [getDb] has its connection object or can make it. *)
Definition connected (rt : runtime) (w : world) : Prop :=
  sql w = true \/ exists url, if_truthy (DATABASE_URL (env rt)) = Some url.

(** What [undefined.toLowerCase()] throws. *)
Definition no_content_error : js_error :=
  TypeError "Cannot read properties of undefined (reading 'toLowerCase')".

(** *** An upload given up *)

(** The two responses of the upload route to a user row it could not
    make sure of. *)
Definition aborted (r : result UploadRoute.upload_response) : Prop :=
  r = Ok (UploadRoute.UploadError 500 "Database initialization failed" None None)
  \/ exists details,
       r = Ok (UploadRoute.UploadError 500 "Failed to create user record"
                 (Some details) None).

(** Since the trace was [t0]: the user is confirmed and no child write
    came before, or nothing was written and the route has given up. *)
Definition Confirmed_or_aborted (u : string) (t0 : list call)
    (r : result UploadRoute.upload_response) (w : world) : Prop :=
  Confirmed u t0 w \/ (Pending t0 w /\ aborted r).

(** *** Counting the chunks *)

(** An INSERT into embeddings that the database accepted. *)
Definition row_stored (x : call) : bool :=
  match x with
  | Call e a =>
      match e in extE X return X -> bool with
      | SqlInsertEmbedding _ _ _ _ _ _ =>
          fun a => match a with
                   | Ok _ => true
                   | Err _ => false
                   end
      | _ => fun _ => false
      end a
  end.


(** The calls of a turn of the chunk loop end with an accepted INSERT
    into embeddings. *)
Definition turn_stored (d : list call) : bool :=
  match rev d with
  | x :: _ => row_stored x
  | [] => false
  end.



(** *** The body of a chat request *)

(** What reading [messages.length] throws when the body has no
    [messages]. *)
Definition no_messages_error : js_error :=
  TypeError "Cannot read properties of undefined (reading 'length')".




(** The line logged by the [catch] of the chat route. *)
Definition chat_error_line (e : js_error) : log_line :=
  {| level := Error_; label := "Chat API error:"; detail := error_text e |}.



(* ================================================================== *)
(** ** Running computations: equations and trace bookkeeping *)
(* ================================================================== *)

Lemma bind_run {A B} (c : M A) (k : A -> M B) (w : world) :
  bind c k w =
  match c w with
  | (Ok a, w') => k a w'
  | (Err e, w') => (Err e, w')
  end.
Proof. reflexivity. Qed.

Lemma catch_run {A} (c : M A) (h : js_error -> M A) (w : world) :
  catch c h w =
  match c w with
  | (Ok a, w') => (Ok a, w')
  | (Err e, w') => h e w'
  end.
Proof. reflexivity. Qed.

(** Unfold the monad down to pairs. *)
Ltac unmonad :=
  cbv beta delta [bind catch ret throw lift read log console_warn console_error
                  set_sql set_pineconeClient perform await record Db.logged] in *;
  cbn beta iota zeta delta [fst snd trace console pineconeClient sql
                            length map negb Nat.ltb Nat.leb Nat.eqb hd_error] in *.

(** Split on the scrutinee of an innermost [match] or [if] of the goal. *)
Ltac split_match :=
  match goal with
  | |- context [match ?x with _ => _ end] =>
      lazymatch x with
      | context [match _ with _ => _ end] => fail
      | _ => first [ match goal with H : x = _ |- _ => rewrite H end
                   | is_var x; destruct x
                   | destruct x eqn:? ]
      end
  end.

Ltac run := unmonad; repeat (split_match; unmonad).

(* ================================================================== *)
(** ** The string functions on small inputs *)
(* ================================================================== *)

Lemma trim_examples :
  trim "  a b  " = "a b" /\ trim "   " = "" /\ trim "" = ""
  /\ is_blank "   " = true /\ is_blank "" = true /\ is_blank " x " = false.
Proof. repeat split; reflexivity. Qed.

Lemma split_examples :
  split SP "sky blue" = ["sky"; "blue"]
  /\ split SP "sky  blue" = ["sky"; ""; "blue"]
  /\ split SP "" = [""]
  /\ split LF ("a" ^^ nlnl) = ["a"; ""; ""].
Proof. repeat split; reflexivity. Qed.

Lemma includes_examples :
  includes "sky" "the sky is blue" = true
  /\ includes "sky blue" "the sky is blue" = false
  /\ includes "" "cats" = true
  /\ toLowerCase "Sky BLUE" = "sky blue"
  /\ collapse_spaces " a   b  " = " a b "
  /\ slice_from 6 "data: [DONE]" = "[DONE]"
  /\ slice_to 3 "abcdef" = "abc"
  /\ join ", " ["a"; "b"; "c"] = "a, b, c".
Proof. repeat split; reflexivity. Qed.

(* ================================================================== *)
(** ** Facts about rag.ts *)
(* ================================================================== *)

Section RagFacts.
Variable rt : runtime.

Lemma embedText_length text w v :
  fst (Rag.embedText rt text w) = Ok v -> length v = 1536.
Proof.
  unfold Rag.embedText. run; intros H; try discriminate.
  all: inversion H; subst.
  all: match goal with
       | E : negb (_ =? _) = false |- _ =>
           apply negb_false_iff in E; apply Nat.eqb_eq in E; exact E
       end.
Qed.

Lemma wrong_length_test (v : vector) :
  length v <> 1536 -> negb (length v =? 1536) = true.
Proof. intros H. apply negb_true_iff. apply Nat.eqb_neq. exact H. Qed.

Lemma right_length_test (v : vector) :
  length v = 1536 -> negb (length v =? 1536) = false.
Proof. intros H. apply negb_false_iff. apply Nat.eqb_eq. exact H. Qed.

Lemma storeEmbedding_rejects id v metadata w :
  length v <> 1536 ->
  fst (Rag.storeEmbedding rt id v metadata w)
  = Err (Error ("Invalid embedding: expected 1536 dimensions, got "
                ^^ string_of_nat (length v)))
  /\ trace (snd (Rag.storeEmbedding rt id v metadata w)) = trace w.
Proof.
  intros H. unfold Rag.storeEmbedding. unmonad.
  rewrite (wrong_length_test v H). unmonad. split; reflexivity.
Qed.

Lemma queryEmbeddings_rejects v topK w :
  length v <> 1536 ->
  fst (Rag.queryEmbeddings rt v topK w) = Ok []
  /\ trace (snd (Rag.queryEmbeddings rt v topK w)) = trace w.
Proof.
  intros H. unfold Rag.queryEmbeddings, Rag.queryEmbeddings_try. unmonad.
  rewrite (wrong_length_test v H). unmonad. split; reflexivity.
Qed.

Lemma search_ok_length v topK w rows :
  fst (Db.embeddings_search rt v topK w) = Ok rows -> length v = 1536.
Proof.
  unfold Db.embeddings_search, Db.getDb. run; intros H; try discriminate H.
  all: match goal with
       | E : negb (_ =? _) = false |- _ =>
           apply negb_false_iff in E; apply Nat.eqb_eq in E; exact E
       end.
Qed.

Lemma initPinecone_total w :
  exists pc w', Rag.initPinecone rt w = (Ok pc, w').
Proof.
  unfold Rag.initPinecone. run; eauto.
Qed.

Lemma queryEmbeddings_total v topK w :
  exists l, fst (Rag.queryEmbeddings rt v topK w) = Ok l.
Proof.
  unfold Rag.queryEmbeddings, Rag.queryEmbeddings_try, Db.embeddings_search, Db.getDb, Rag.initPinecone.
  run; eauto.
Qed.



(** With a vector of the right length, [queryEmbeddings] is its primary
    search followed by what the answer calls for. *)
Lemma queryEmbeddings_primary_hit v topK w rows w1 :
  length v = 1536 ->
  Db.embeddings_search rt v topK w = (Ok rows, w1) ->
  rows <> [] ->
  Rag.queryEmbeddings rt v topK w = (Ok (map Rag.Primary rows), w1).
Proof.
  intros Hlen Hs Hrows. unfold Rag.queryEmbeddings, Rag.queryEmbeddings_try. unmonad.
  rewrite (right_length_test v Hlen). unmonad. rewrite Hs. unmonad.
  destruct rows as [|r rows]; [contradiction|]. reflexivity.
Qed.

Lemma queryEmbeddings_fallback v topK w r w1 :
  length v = 1536 ->
  Db.embeddings_search rt v topK w = (r, w1) ->
  primary_missed r ->
  match if_truthy (PINECONE_INDEX (env rt)) with
  | None => Rag.queryEmbeddings rt v topK w = (Ok [], after_primary r w1)
  | Some index =>
      match Rag.initPinecone rt (after_primary r w1) with
      | (Ok (Some pc), w2) =>
          let q := PineconeQuery pc index v topK in
          let a := oracle rt (trace w2) _ q in
          match a with
          | Ok {| matches := Some (m :: ms) |} =>
              Rag.queryEmbeddings rt v topK w
              = (Ok (map Rag.Secondary (m :: ms)), record (Call q a) w2)
          | _ => fst (Rag.queryEmbeddings rt v topK w) = Ok []
          end
      | _ => fst (Rag.queryEmbeddings rt v topK w) = Ok []
      end
  end.
Proof.
  intros Hlen Hs Hmiss. unfold Rag.queryEmbeddings, Rag.queryEmbeddings_try. unmonad.
  rewrite (right_length_test v Hlen). unmonad. rewrite Hs.
  destruct r as [[|r0 rows]|e]; try contradiction; unmonad.
  - destruct (if_truthy (PINECONE_INDEX (env rt))) as [index|]; [|reflexivity].
    unfold after_primary.
    destruct (initPinecone_total w1) as (pc & w2 & Hpc). rewrite Hpc.
    destruct pc as [pc|]; [|reflexivity].
    cbv zeta. 
    destruct (oracle rt (trace w2) (result query_response) (PineconeQuery pc index v topK)) as [[[[|m ms]|]]|e]; reflexivity.
  - destruct (if_truthy (PINECONE_INDEX (env rt))) as [index|]; [|reflexivity].
    unfold after_primary. unmonad.
    match goal with |- context [Rag.initPinecone rt ?w'] => destruct (initPinecone_total w') as (pc & w2 & Hpc) end.
    rewrite Hpc.
    destruct pc as [pc|]; [|reflexivity].
    cbv zeta. 
    destruct (oracle rt (trace w2) (result query_response) (PineconeQuery pc index v topK)) as [[[[|m ms]|]]|e0]; reflexivity.
Qed.



(** Close a goal [exists d, t = t0 ++ d /\ forallb p d = true] whose
    traces are explicit. *)
Ltac trace_tail :=
  first
    [ exists []; split; [ rewrite app_nil_r; reflexivity | reflexivity ]
    | eexists; split; [ rewrite <- ?app_assoc; reflexivity | reflexivity ] ].

Lemma queryEmbeddings_primary_first v topK w :
  length v = 1536 ->
  exists d,
    trace (snd (Rag.queryEmbeddings rt v topK w))
    = trace (snd (Db.embeddings_search rt v topK w)) ++ d
    /\ forallb pinecone_call d = true.
Proof.
  intros Hlen.
  unfold Rag.queryEmbeddings, Rag.queryEmbeddings_try, Db.embeddings_search, Db.getDb, Rag.initPinecone.
  unmonad. rewrite (right_length_test v Hlen).
  run; trace_tail.
Qed.

Lemma queryEmbeddings_one_store v topK w l :
  fst (Rag.queryEmbeddings rt v topK w) = Ok l ->
  (exists rows, l = map Rag.Primary rows) \/ (exists ms, l = map Rag.Secondary ms).
Proof.
  unfold Rag.queryEmbeddings, Rag.queryEmbeddings_try, Db.embeddings_search, Db.getDb, Rag.initPinecone.
  run; intros H; inversion H; subst;
    first [ left; eexists; reflexivity
          | right; eexists; reflexivity
          | left; exists []; reflexivity ].
Qed.

Section Store.
Variables (id : string) (v : vector) (md : Rag.embedding_metadata).

Lemma storeEmbedding_primary_failure w e w1 :
  length v = 1536 ->
  primary_write rt id v md w = (Err e, w1) ->
  fst (Rag.storeEmbedding rt id v md w) = Err e
  /\ trace (snd (Rag.storeEmbedding rt id v md w)) = trace w1.
Proof.
  intros Hlen Hp. unfold Rag.storeEmbedding. unmonad.
  rewrite (right_length_test v Hlen). unmonad.
  unfold primary_write in Hp. rewrite Hp. unmonad. split; reflexivity.
Qed.

Lemma storeEmbedding_primary_success w row w1 :
  length v = 1536 ->
  primary_write rt id v md w = (Ok row, w1) ->
  fst (Rag.storeEmbedding rt id v md w) = Ok tt
  /\ exists d,
       trace (snd (Rag.storeEmbedding rt id v md w)) = trace w1 ++ d
       /\ forallb pinecone_call d = true.
Proof.
  intros Hlen Hp. unfold Rag.storeEmbedding. unmonad.
  rewrite (right_length_test v Hlen). unmonad.
  unfold primary_write in Hp. rewrite Hp. unmonad.
  unfold Rag.initPinecone.
  run; (split; [reflexivity | trace_tail]).
Qed.

Lemma storeEmbedding_secondary_failure w row w1 index pc w2 e2 :
  length v = 1536 ->
  primary_write rt id v md w = (Ok row, w1) ->
  if_truthy (PINECONE_INDEX (env rt)) = Some index ->
  Rag.initPinecone rt w1 = (Ok (Some pc), w2) ->
  oracle rt (trace w2) _
    (PineconeUpsert pc index id v (Rag.cleanMetadata rt (Rag.Object_entries md)))
  = Err e2 ->
  fst (Rag.storeEmbedding rt id v md w) = Ok tt
  /\ console (snd (Rag.storeEmbedding rt id v md w))
     = console w2
       ++ [ {| level := Warn; label := "";
               detail := "Pinecone storage failed: " ^^ error_text e2 |} ]
       ++ [ {| level := Warn;
               label := "Partial success storing " ^^ id ^^ ":";
               detail := join "," ["Pinecone storage failed: " ^^ error_text e2] |} ].
Proof.
  intros Hlen Hp Hidx Hpc Hup. unfold Rag.storeEmbedding. unmonad.
  rewrite (right_length_test v Hlen). unmonad.
  unfold primary_write in Hp. rewrite Hp. unmonad.
  rewrite Hidx, Hpc. unmonad. rewrite Hup. unmonad.
  split; [reflexivity | rewrite <- app_assoc; reflexivity].
Qed.

End Store.

End RagFacts.

(* ================================================================== *)
(** ** Re-ranking *)
(* ================================================================== *)

Section Rerank.
Variable query : string.

Lemma add_tenths_fold (b : string) (words : list string) (acc : Q) :
  (fold_left (fun score w => if includes w b then (score + (1 # 10))%Q else score)
            words acc
   == acc + (1 # 10) * inject_Z (Z.of_nat (length (filter (fun w => includes w b) words))))%Q.
Proof.
  revert acc. induction words as [|w ws IH]; intros acc.
  - cbn [fold_left filter length]. change (inject_Z (Z.of_nat 0)) with 0%Q. lra.
  - cbn [fold_left filter]. destruct (includes w b).
    + rewrite IH. cbn [length]. rewrite Nat2Z.inj_succ. unfold Z.succ.
      rewrite inject_Z_plus. change (inject_Z 1) with 1%Q. lra.
    + apply IH.
Qed.

Lemma textSimilarity_formula (a b : string) :
  (Rag.textSimilarity a b
   == (if includes (toLowerCase a) (toLowerCase b) then 1 else 0)
      + (1 # 10) * inject_Z (Z.of_nat (matching_words (toLowerCase a) (toLowerCase b))))%Q.
Proof. unfold Rag.textSimilarity, matching_words. apply add_tenths_fold. Qed.

Lemma compare_with_content a b :
  has_content a -> has_content b ->
  Rag.compare_matches query a b = Ok (score query b - score query a)%Q.
Proof.
  intros [ca Ha] [cb Hb]. unfold Rag.compare_matches, score, Rag.similarity_of.
  rewrite Ha, Hb. reflexivity.
Qed.

Lemma insert_sorted x l :
  has_content x -> Forall has_content l ->
  exists l',
    Rag.insert (Rag.compare_matches query) x l = Ok l'
    /\ Permutation (x :: l) l'
    /\ (StronglySorted (ranked_before query) l ->
        StronglySorted (ranked_before query) l').
Proof.
  intros Hx Hl. induction Hl as [|y ys Hy Hys IH].
  - exists [x]. cbn. repeat split; auto.
    intros _. constructor; constructor.
  - cbn [Rag.insert]. rewrite (compare_with_content x y Hx Hy).
    destruct (Qle_bool (score query y - score query x) 0) eqn:E.
    + exists (x :: y :: ys). repeat split; auto.
      intros Hs. apply Qle_bool_iff in E.
      constructor; [exact Hs|].
      assert (Hyx : ranked_before query x y) by (unfold ranked_before; lra).
      constructor; [exact Hyx|].
      apply StronglySorted_inv in Hs. destruct Hs as [_ Hall].
      eapply Forall_impl; [|exact Hall].
      intros z Hz. unfold ranked_before in *. lra.
    + destruct IH as (l' & Hins & Hperm & Hsorted). rewrite Hins.
      exists (y :: l'). split; [reflexivity|]. split.
      * rewrite perm_swap. constructor. exact Hperm.
      * intros Hs. apply StronglySorted_inv in Hs. destruct Hs as [Hs Hall].
        constructor; [auto|].
        eapply Permutation_Forall; [exact Hperm|].
        constructor; [|exact Hall].
        unfold ranked_before.
        assert (~ (score query y - score query x <= 0)%Q).
        { intros H. apply Qle_bool_iff in H. congruence. }
        lra.
Qed.

Lemma sort_sorted l :
  Forall has_content l ->
  exists l',
    Rag.sort (Rag.compare_matches query) l = Ok l'
    /\ Permutation l l'
    /\ StronglySorted (ranked_before query) l'.
Proof.
  intros Hl. induction Hl as [|x xs Hx Hxs IH].
  - exists []. repeat split; constructor.
  - destruct IH as (s & Hsort & Hperm & Hsorted).
    cbn [Rag.sort]. rewrite Hsort.
    assert (Hs : Forall has_content s) by (eapply Permutation_Forall; eauto).
    destruct (insert_sorted x s Hx Hs) as (l' & Hins & Hperm' & Hsorted').
    exists l'. split; [exact Hins|]. split; [|auto].
    etransitivity; [|exact Hperm']. constructor. exact Hperm.
Qed.

(** On two or more matches of the secondary index the comparator
    throws: they have no [content] to call [toLowerCase] on. *)
Lemma sort_without_content_throws (a b : pc_match) (l : list pc_match) :
  Rag.sort (Rag.compare_matches query) (map Rag.Secondary (a :: b :: l))
  = Err (TypeError "Cannot read properties of undefined (reading 'toLowerCase')").
Proof.
  revert a b. induction l as [|c l IH]; intros a b.
  - reflexivity.
  - change (map Rag.Secondary (a :: b :: c :: l))
      with (Rag.Secondary a :: map Rag.Secondary (b :: c :: l)).
    cbn [Rag.sort]. rewrite (IH b c). reflexivity.
Qed.

End Rerank.

Lemma sky_example (a b : pg_row) :
  row_content a = "the sky is blue" ->
  row_content b = "cats are mammals" ->
  Rag.sort (Rag.compare_matches "sky blue") [Rag.Primary a; Rag.Primary b] = Ok [Rag.Primary a; Rag.Primary b]
  /\ Rag.sort (Rag.compare_matches "sky blue") [Rag.Primary b; Rag.Primary a] = Ok [Rag.Primary a; Rag.Primary b].
Proof.
  intros Ha Hb. cbn [Rag.sort Rag.insert]. unfold Rag.compare_matches, Rag.similarity_of, Rag.content_field.
  rewrite Ha, Hb. split; vm_compute; reflexivity.
Qed.

(* ================================================================== *)
(** ** Context retrieval *)
(* ================================================================== *)

Lemma trimStart_all_space s :
  all_space s = true -> trimStart s = "".
Proof.
  induction s as [|c s IH]; [reflexivity|].
  unfold all_space. cbn. intros H. apply andb_true_iff in H. destruct H as [Hc Hs].
  rewrite Hc. apply IH. exact Hs.
Qed.

Lemma trimEnd_keeps c s :
  is_space c = false -> trimEnd (String c s) <> "".
Proof.
  intros Hc. cbn. destruct (trimEnd s); [rewrite Hc|]; discriminate.
Qed.

Lemma trimStart_not_all_space s :
  all_space s = false ->
  exists c t, trimStart s = String c t /\ is_space c = false.
Proof.
  induction s as [|c s IH]; [discriminate|].
  unfold all_space. cbn. destruct (is_space c) eqn:Hc.
  - cbn. exact IH.
  - intros _. exists c, s. split; [reflexivity | exact Hc].
Qed.

Lemma is_blank_all_space s : is_blank s = all_space s.
Proof.
  unfold is_blank, trim. destruct (all_space s) eqn:E.
  - rewrite (trimStart_all_space s E). cbn. apply orb_true_r.
  - destruct (trimStart_not_all_space s E) as (c & t & Ht & Hc). rewrite Ht.
    pose proof (trimEnd_keeps c t Hc) as Hne.
    destruct (trimEnd (String c t)) as [|c' t']; [contradiction|].
    destruct s; [discriminate|]. reflexivity.
Qed.

Section ContextFacts.
Variable rt : runtime.

Lemma retrieveContext_total query w :
  exists s, fst (Rag.retrieveContext rt query w) = Ok s.
Proof.
  unfold Rag.retrieveContext. unmonad.
  destruct (Rag.retrieveContext_try rt query w) as [[s|e] w']; eexists; reflexivity.
Qed.

Lemma retrieveContext_blank query w :
  is_blank query = true -> Rag.retrieveContext rt query w = (Ok "", w).
Proof.
  intros H. unfold Rag.retrieveContext, Rag.retrieveContext_try. unmonad.
  rewrite H. reflexivity.
Qed.

Lemma retrieveContext_catches query w e :
  fst (Rag.retrieveContext_try rt query w) = Err e ->
  fst (Rag.retrieveContext rt query w) = Ok "".
Proof.
  intros H. unfold Rag.retrieveContext. unmonad.
  destruct (Rag.retrieveContext_try rt query w) as [[s|e'] w']; [discriminate|reflexivity].
Qed.

Lemma retrieveContext_embed_failure query w e w1 :
  is_blank query = false ->
  Rag.embedText rt (rewritten query) w = (Err e, w1) ->
  fst (Rag.retrieveContext rt query w) = Ok "".
Proof.
  intros Hq He. apply (retrieveContext_catches query w e).
  unfold Rag.retrieveContext_try. rewrite Hq. unmonad.
  unfold rewritten in He. rewrite He. reflexivity.
Qed.

Lemma retrieveContext_rerank_failure query w v w1 ms w2 e :
  is_blank query = false ->
  Rag.embedText rt (rewritten query) w = (Ok v, w1) ->
  Rag.queryEmbeddings rt v 10 w1 = (Ok ms, w2) ->
  Rag.sort (Rag.compare_matches query) ms = Err e ->
  fst (Rag.retrieveContext rt query w) = Ok "".
Proof.
  intros Hq He Hs Hr. apply (retrieveContext_catches query w e).
  unfold Rag.retrieveContext_try. rewrite Hq. unmonad.
  unfold rewritten in He. rewrite He, Hs, Hr. reflexivity.
Qed.

Lemma retrieveContext_reranked query w v w1 ms w2 ranked :
  is_blank query = false ->
  Rag.embedText rt (rewritten query) w = (Ok v, w1) ->
  Rag.queryEmbeddings rt v 10 w1 = (Ok ms, w2) ->
  Rag.sort (Rag.compare_matches query) ms = Ok ranked ->
  ranked <> [] ->
  Rag.retrieveContext rt query w
  = (Ok (join nlnl (filter nonempty (map Rag.extract_content ranked))), w2).
Proof.
  intros Hq He Hs Hr Hne. unfold Rag.retrieveContext, Rag.retrieveContext_try.
  rewrite Hq. unmonad. unfold rewritten in He. rewrite He, Hs, Hr.
  destruct ranked; [contradiction|]. reflexivity.
Qed.

End ContextFacts.

(* ================================================================== *)
(** ** The completion stream *)
(* ================================================================== *)



Lemma split_before_separator sep s t :
  forallb (fun c => negb (Ascii.eqb c sep)) (list_ascii_of_string s) = true ->
  split sep (s ^^ String sep t) = s :: split sep t.
Proof.
  induction s as [|c s IH]; intros H.
  - cbn. rewrite Ascii.eqb_refl. reflexivity.
  - cbn in H. apply andb_true_iff in H. destruct H as [Hc Hs].
    cbn [String.append split]. apply negb_true_iff in Hc. rewrite Hc.
    rewrite (IH Hs). reflexivity.
Qed.

Lemma append_assoc (a b c : string) : (a ^^ b) ^^ c = a ^^ (b ^^ c).
Proof. induction a as [|x a IH]; cbn; [reflexivity | rewrite IH; reflexivity]. Qed.

Section StreamFacts.
Variable rt : runtime.

Lemma handle_chunk_done : ChatRoute.handle_chunk rt done_chunk = [ChatRoute.done_event].
Proof. reflexivity. Qed.

Lemma handle_chunk_delta chunk delta :
  delta_chunk rt chunk delta ->
  ChatRoute.handle_chunk rt chunk
  = if truthy delta then [ChatRoute.text_delta_event rt delta] else [].
Proof.
  intros (payload & parsed & -> & Hnl & Hdone & Hparse & Hdelta).
  unfold ChatRoute.handle_chunk.
  assert (Hsplit : split LF ("data: " ^^ payload ^^ nlnl) = ["data: " ^^ payload; ""; ""]).
  { rewrite <- append_assoc. unfold nlnl.
    rewrite split_before_separator; [reflexivity|].
    cbn. exact Hnl. }
  rewrite Hsplit.
  assert (Htrim : nonempty (trim ("data: " ^^ payload)) = true).
  { unfold trim. cbn [String.append trimStart]. 
    change (is_space "d") with false. cbv iota.
    pose proof (trimEnd_keeps "d" ("ata: " ^^ payload) eq_refl) as Hk.
    cbn [String.append] in Hk.
    destruct (trimEnd _); [contradiction | reflexivity]. }
  cbn [filter]. rewrite Htrim. change (nonempty (trim "")) with false. cbv iota.
  cbn [flat_map]. rewrite app_nil_r.
  unfold ChatRoute.handle_line.
  change (startsWith "data: " ("data: " ^^ payload)) with (prefix "" payload).
  replace (prefix "" payload) with true by (destruct payload; reflexivity).
  change (slice_from 6 ("data: " ^^ payload)) with payload.
  apply String.eqb_neq in Hdone. rewrite Hdone, Hparse, Hdelta. reflexivity.
Qed.

Lemma stream_of_deltas chunks deltas :
  Forall2 (delta_chunk rt) chunks deltas ->
  flat_map (ChatRoute.handle_chunk rt) (chunks ++ [done_chunk])
  = map (ChatRoute.text_delta_event rt) (filter truthy deltas) ++ [ChatRoute.done_event].
Proof.
  induction 1 as [|chunk delta chunks deltas Hc _ IH].
  - reflexivity.
  - cbn [app flat_map filter]. rewrite IH, (handle_chunk_delta chunk delta Hc).
    destruct (truthy delta); reflexivity.
Qed.

End StreamFacts.

(* ================================================================== *)
(** ** Which calls a computation issues *)
(* ================================================================== *)

Lemma extends_refl Q w : extends Q w w.
Proof. exists [], []. rewrite !app_nil_r. auto. Qed.

Lemma extends_trans Q w1 w2 w3 :
  extends Q w1 w2 -> extends Q w2 w3 -> extends Q w1 w3.
Proof.
  intros (d1 & l1 & Ht1 & Hc1 & Hq1) (d2 & l2 & Ht2 & Hc2 & Hq2).
  exists (d1 ++ d2), (l1 ++ l2). rewrite Ht2, Hc2, Ht1, Hc1, !app_assoc.
  repeat split; auto. apply Forall_app. auto.
Qed.

Lemma extends_weaken (Q Q' : call -> Prop) w w' :
  (forall c, Q c -> Q' c) -> extends Q w w' -> extends Q' w w'.
Proof.
  intros H (d & l & Ht & Hc & Hq). exists d, l. repeat split; auto.
  eapply Forall_impl; eauto.
Qed.

Section Only.
Context {A : Type} (Q : call -> Prop).

Lemma only_ret (a : A) : only Q (ret a).
Proof. intros w. apply extends_refl. Qed.

Lemma only_throw (e : js_error) : only Q (@throw A e).
Proof. intros w. apply extends_refl. Qed.

Lemma only_lift (r : result A) : only Q (lift r).
Proof. intros w. apply extends_refl. Qed.

Lemma only_read (f : world -> A) : only Q (read f).
Proof. intros w. apply extends_refl. Qed.

Lemma only_bind {B} (c : M B) (k : B -> M A) :
  only Q c -> (forall b, only Q (k b)) -> only Q (bind c k).
Proof.
  intros Hc Hk w. specialize (Hc w). rewrite bind_run.
  destruct (c w) as [[b|e] w1]; cbn [snd] in *; [|exact Hc].
  eapply extends_trans; [exact Hc | apply Hk].
Qed.

Lemma only_catch (c : M A) (h : js_error -> M A) :
  only Q c -> (forall e, only Q (h e)) -> only Q (catch c h).
Proof.
  intros Hc Hh w. specialize (Hc w). rewrite catch_run.
  destruct (c w) as [[a|e] w1]; cbn [snd] in *; [exact Hc|].
  eapply extends_trans; [exact Hc | apply Hh].
Qed.

Lemma only_weaken (Q0 : call -> Prop) (c : M A) :
  (forall x, Q0 x -> Q x) -> only Q0 c -> only Q c.
Proof. intros H Hc w. eapply extends_weaken; eauto. Qed.

End Only.

Lemma only_log Q lv lbl dtl : only Q (log lv lbl dtl).
Proof.
  intros w. exists [], [{| level := lv; label := lbl; detail := dtl |}].
  cbn. rewrite app_nil_r. auto.
Qed.

Lemma only_console_warn Q lbl dtl : only Q (console_warn lbl dtl).
Proof. apply only_log. Qed.

Lemma only_console_error Q lbl e : only Q (console_error lbl e).
Proof. apply only_log. Qed.

Lemma only_set_sql Q : only Q set_sql.
Proof. intros w. exists [], []. cbn. rewrite !app_nil_r. auto. Qed.

Lemma only_set_pineconeClient Q pc : only Q (set_pineconeClient pc).
Proof. intros w. exists [], []. cbn. rewrite !app_nil_r. auto. Qed.

Lemma only_perform Q rt X (e : extE X) :
  (forall a, Q (Call e a)) -> only Q (perform rt e).
Proof.
  intros H w. exists [Call e (oracle rt (trace w) X e)], [].
  cbn. rewrite app_nil_r. auto.
Qed.

Lemma only_await Q rt Y (e : extE (result Y)) :
  (forall a, Q (Call e a)) -> only Q (await rt e).
Proof.
  intros H w. exists [Call e (oracle rt (trace w) (result Y) e)], [].
  cbn. rewrite app_nil_r. auto.
Qed.

Create HintDb only_db.

(** Decompose a goal [only Q c] along the structure of [c]. *)
Ltac only_step :=
  lazymatch goal with
  | |- only _ (bind _ _) => apply only_bind; [|intro]
  | |- only _ (catch _ _) => apply only_catch; [|intro]
  | |- only _ (Db.logged _ _) => unfold Db.logged
  | |- only _ (ret _) => apply only_ret
  | |- only _ (throw _) => apply only_throw
  | |- only _ (lift _) => apply only_lift
  | |- only _ (read _) => apply only_read
  | |- only _ (log _ _ _) => apply only_log
  | |- only _ (console_warn _ _) => apply only_console_warn
  | |- only _ (console_error _ _) => apply only_console_error
  | |- only _ set_sql => apply only_set_sql
  | |- only _ (set_pineconeClient _) => apply only_set_pineconeClient
  | |- only _ (perform _ _) => apply only_perform; intro; first [exact I | reflexivity]
  | |- only _ (await _ _) => apply only_await; intro; first [exact I | reflexivity]
  | |- only _ (match ?x with _ => _ end) => destruct x
  | |- only _ (let _ := _ in _) => cbv zeta
  | |- only any_call _ =>
      first [ solve [auto with only_db]
            | apply (only_weaken any_call no_child_write);
              [ intros ? ?; exact I | solve [auto with only_db] ] ]
  | |- only _ _ => solve [auto with only_db]
  end.

Ltac only_tac := repeat only_step.


Lemma only_getDb rt : only no_child_write (Db.getDb rt).
Proof. unfold Db.getDb. only_tac. Qed.
#[local] Hint Resolve only_getDb : only_db.

Lemma only_initializeDatabase rt : only no_child_write (Db.initializeDatabase rt).
Proof. unfold Db.initializeDatabase. only_tac. Qed.

Lemma only_users_getById rt id : only no_child_write (Db.users_getById rt id).
Proof. unfold Db.users_getById. only_tac. Qed.

Lemma only_users_upsert rt id email name role :
  only no_child_write (Db.users_upsert rt id email name role).
Proof. unfold Db.users_upsert. only_tac. Qed.

Lemma only_embeddings_search rt v k : only no_child_write (Db.embeddings_search rt v k).
Proof. unfold Db.embeddings_search. only_tac. Qed.

Lemma only_documents_create rt id u f t s x :
  only any_call (Db.documents_create rt id u f t s x).
Proof. unfold Db.documents_create. only_tac. Qed.

Lemma only_embeddings_create rt id d i c v m :
  only any_call (Db.embeddings_create rt id d i c v m).
Proof. unfold Db.embeddings_create. only_tac. Qed.

Lemma only_chatMessages_create rt id u r c i :
  only any_call (Db.chatMessages_create rt id u r c i).
Proof. unfold Db.chatMessages_create. only_tac. Qed.

#[local] Hint Resolve only_initializeDatabase only_users_getById only_users_upsert
  only_embeddings_search only_documents_create only_embeddings_create
  only_chatMessages_create : only_db.

Lemma only_initPinecone rt : only no_child_write (Rag.initPinecone rt).
Proof. unfold Rag.initPinecone. only_tac. Qed.
#[local] Hint Resolve only_initPinecone : only_db.

Lemma only_embedText rt text : only no_child_write (Rag.embedText rt text).
Proof. unfold Rag.embedText. only_tac. Qed.

Lemma only_queryEmbeddings rt v k : only no_child_write (Rag.queryEmbeddings rt v k).
Proof. unfold Rag.queryEmbeddings, Rag.queryEmbeddings_try. only_tac. Qed.
#[local] Hint Resolve only_embedText only_queryEmbeddings : only_db.

Lemma only_retrieveContext rt q : only no_child_write (Rag.retrieveContext rt q).
Proof. unfold Rag.retrieveContext, Rag.retrieveContext_try. only_tac. Qed.

Lemma only_storeEmbedding rt id v md : only any_call (Rag.storeEmbedding rt id v md).
Proof. unfold Rag.storeEmbedding. only_tac. Qed.

Lemma only_ensureUserExists rt u : only no_child_write (UploadRoute.ensureUserExists rt u).
Proof. unfold UploadRoute.ensureUserExists. only_tac. Qed.

#[local] Hint Resolve only_retrieveContext only_storeEmbedding only_ensureUserExists : only_db.

Lemma only_process_chunk rt c i chunk : only any_call (UploadRoute.process_chunk rt c i chunk).
Proof. unfold UploadRoute.process_chunk. only_tac. Qed.
#[local] Hint Resolve only_process_chunk : only_db.



(* ================================================================== *)
(** ** The user row before child rows *)
(* ================================================================== *)












Lemma stable_weaken (Q Q' : call -> Prop) P :
  (forall c, Q c -> Q' c) -> stable Q' P -> stable Q P.
Proof. intros H Hs w w' Hw He. eapply Hs; [exact Hw|]. eapply extends_weaken; eauto. Qed.






Section Ensure.
Variable rt : runtime.

End Ensure.






Section Upload.
Variable rt : runtime.




End Upload.



Section Chat.
Variable rt : runtime.




End Chat.

(* ================================================================== *)
(** ** Ingestion *)
(* ================================================================== *)


Section Ingest.
Variable rt : runtime.

Lemma process_chunk_total c i chunk w :
  exists stored w', UploadRoute.process_chunk rt c i chunk w = (Ok stored, w').
Proof.
  unfold UploadRoute.process_chunk. rewrite catch_run.
  match goal with
  | |- context [match ?body w with _ => _ end] =>
      destruct (body w) as [[stored|e] w1]
  end.
  - eauto.
  - unmonad. eauto.
Qed.



Lemma chunk_loop_counts c chunks : forall i s f w,
  exists s' f' w',
    UploadRoute.chunk_loop rt c i chunks s f w = (Ok (s', f'), w')
    /\ s' + f' = s + f + length chunks.
Proof.
  induction chunks as [|chunk rest IH]; intros i s f w; cbn [UploadRoute.chunk_loop].
  - exists s, f, w. split; [reflexivity | cbn; lia].
  - rewrite bind_run.
    destruct (process_chunk_total c i chunk w) as (stored & w1 & Hp). rewrite Hp.
    destruct stored.
    + destruct (IH (S i) (S s) f w1) as (s' & f' & w' & Hl & Hsum).
      exists s', f', w'. split; [exact Hl | cbn [length]; lia].
    + destruct (IH (S i) s (S f) w1) as (s' & f' & w' & Hl & Hsum).
      exists s', f', w'. split; [exact Hl | cbn [length]; lia].
Qed.


End Ingest.

(* ================================================================== *)
(** ** The first call of [storeEmbedding] *)
(* ================================================================== *)

Lemma storeEmbedding_insert_first rt id v md w :
  length v = 1536 -> connected rt w ->
  exists d,
    trace (snd (Rag.storeEmbedding rt id v md w))
    = trace w
      ++ Call (primary_insert id v md) (oracle rt (trace w) _ (primary_insert id v md))
      :: d
    /\ forallb pinecone_call d = true
    /\ match oracle rt (trace w) _ (primary_insert id v md) with
       | Err e => fst (Rag.storeEmbedding rt id v md w) = Err e /\ d = []
       | Ok _ => fst (Rag.storeEmbedding rt id v md w) = Ok tt
       end.
Proof.
  intros Hlen Hc. unfold Rag.storeEmbedding, Db.embeddings_create, Db.getDb,
    Rag.initPinecone, primary_insert in *.
  unmonad. rewrite (right_length_test v Hlen). unmonad.
  destruct (sql w) eqn:Hs; unmonad.
  2: { destruct Hc as [Hc|[url Hu]]; [congruence|]. rewrite Hu. unmonad.
       run; eexists; (split; [rewrite <- ?app_assoc; reflexivity|]);
         (split; [reflexivity|]); auto. }
  run; eexists; (split; [rewrite <- ?app_assoc; reflexivity|]);
    (split; [reflexivity|]); auto.
Qed.

Lemma storeEmbedding_no_connection rt id v md w :
  length v = 1536 ->
  sql w = false -> if_truthy (DATABASE_URL (env rt)) = None ->
  fst (Rag.storeEmbedding rt id v md w) = Err database_url_error
  /\ trace (snd (Rag.storeEmbedding rt id v md w)) = trace w.
Proof.
  intros Hlen Hs Hu. unfold Rag.storeEmbedding, Db.embeddings_create, Db.getDb.
  unmonad. rewrite (right_length_test v Hlen). unmonad. rewrite Hs, Hu.
  split; reflexivity.
Qed.

(* ================================================================== *)
(** ** Matches without [content] *)
(* ================================================================== *)

Lemma retrieveContext_without_content rt query w v w1 a b l w2 :
  is_blank query = false ->
  Rag.embedText rt (rewritten query) w = (Ok v, w1) ->
  Rag.queryEmbeddings rt v 10 w1 = (Ok (map Rag.Secondary (a :: b :: l)), w2) ->
  fst (Rag.retrieveContext rt query w) = Ok ""
  /\ trace (snd (Rag.retrieveContext rt query w)) = trace w2
  /\ console (snd (Rag.retrieveContext rt query w))
     = console w2 ++ [context_error_line no_content_error].
Proof.
  intros Hq He Hs. unfold rewritten in He.
  unfold Rag.retrieveContext, Rag.retrieveContext_try. rewrite Hq. unmonad.
  rewrite He, Hs.
  change (Rag.Secondary a :: Rag.Secondary b :: map Rag.Secondary l)
    with (map Rag.Secondary (a :: b :: l)).
  rewrite sort_without_content_throws. cbn. auto.
Qed.

(* ================================================================== *)
(** ** An upload without its user row *)
(* ================================================================== *)


Section Abort.
Variable rt : runtime.
Variables (form : UploadRoute.form) (f : UploadRoute.file) (u : string)
  (t0 : list call).
Hypothesis Hf : UploadRoute.form_file form = Some f.
Hypothesis Hu : if_truthy (UploadRoute.form_userId form) = Some u.

Let prepared (r : result (UploadRoute.upload_response + UploadRoute.ingest))
    (w : world) : Prop :=
  match r with
  | Ok (inl response) => Confirmed_or_aborted u t0 (Ok response) w
  | _ => Confirmed u t0 w
  end.



End Abort.



(* ================================================================== *)
(** ** The turns of the chunk loop *)
(* ================================================================== *)

Lemma turn_stored_app d l :
  l <> [] -> turn_stored (d ++ l) = turn_stored l.
Proof.
  intros Hl. unfold turn_stored. rewrite rev_app_distr.
  destruct (rev l) as [|x r] eqn:E.
  - apply (f_equal (@rev _)) in E. rewrite rev_involutive in E. contradiction.
  - reflexivity.
Qed.

Lemma turn_stored_none (Q : call -> Prop) d :
  (forall x, Q x -> row_stored x = false) -> Forall Q d -> turn_stored d = false.
Proof.
  intros HQ Hd. unfold turn_stored.
  destruct (rev d) as [|x r] eqn:E; [reflexivity|].
  apply HQ. rewrite Forall_forall in Hd. apply Hd.
  apply in_rev. rewrite E. left. reflexivity.
Qed.

Lemma row_stored_is_write x : row_stored x = true -> is_embedding_write x = true.
Proof. destruct x as [X [] a]; cbn; congruence. Qed.

Lemma filter_length_sub {A} (p q : A -> bool) l :
  (forall x, p x = true -> q x = true) ->
  length (filter p l) <= length (filter q l).
Proof.
  intros H. induction l as [|x l IH]; [reflexivity|]. cbn [filter].
  destruct (p x) eqn:Ep.
  - rewrite (H x Ep). cbn. lia.
  - destruct (q x); cbn; lia.
Qed.

Lemma turn_stored_last d :
  turn_stored d = true -> exists pre x, d = pre ++ [x] /\ row_stored x = true.
Proof.
  unfold turn_stored. intros H. destruct (rev d) as [|x r] eqn:E; [discriminate H|].
  exists (rev r), x. split; [|exact H].
  apply (f_equal (@rev _)) in E. rewrite rev_involutive in E. exact E.
Qed.


Section Turns.
Variable rt : runtime.

Lemma process_chunk_turn c i chunk w :
  exists d,
    trace (snd (UploadRoute.process_chunk rt c i chunk w)) = trace w ++ d
    /\ fst (UploadRoute.process_chunk rt c i chunk w) = Ok (turn_stored d).
Proof.
  pose proof (only_embedText rt chunk w) as (d0 & l0 & Ht0 & _ & Hd0).
  assert (H0 : turn_stored d0 = false).
  { apply (turn_stored_none no_child_write); [|exact Hd0].
    intros [X [] a] Hx; first [reflexivity | discriminate Hx]. }
  revert Ht0.
  unfold UploadRoute.process_chunk, Rag.storeEmbedding, Db.embeddings_create,
    Rag.initPinecone, Db.getDb.
  run; intros Ht0.
  all: cbn [trace record] in *; rewrite Ht0, <- ?app_assoc; cbn [app].
  all: eexists; split; [reflexivity|].
  all: first [ rewrite ?app_nil_r; rewrite H0; reflexivity
             | rewrite turn_stored_app by discriminate; reflexivity ].
Qed.




End Turns.

(* ================================================================== *)
(** ** The claims *)
(* ================================================================== *)

Import Scenario.

Lemma v1536_length : length v1536 = 1536.
Proof. apply repeat_length. Qed.

(** C1.  For every vector [v] whose length is not 1536: [embedText]
    never returns [v], and raises "Invalid embedding dimensions" when
    the service delivers [v]; [storeEmbedding] raises "Invalid
    embedding" to its caller and issues no call; [queryEmbeddings]
    raises "Invalid query embedding" at the head of its [try] block,
    before any call and with the world untouched, and the [catch] of
    the same function logs that error and returns the empty list. *)
Theorem C1_dimension_guard (rt : runtime) (v : vector) :
  length v <> 1536 ->
  (forall text w, fst (Rag.embedText rt text w) <> Ok v)
  /\ (forall text w key response,
        is_blank text = false ->
        if_truthy (OPENROUTER_API_KEY (env rt)) = Some key ->
        (forall referer input,
            oracle rt (trace w) _ (EmbeddingsFetch ("Bearer " ^^ key) referer input)
            = Ok response) ->
        emb_ok response = true ->
        emb_json response = Ok (Some v) ->
        fst (Rag.embedText rt text w)
        = Err (Error ("Invalid embedding dimensions: "
                      ^^ string_of_nat (length v) ^^ ", expected 1536")))
  /\ (forall id metadata w,
        fst (Rag.storeEmbedding rt id v metadata w)
        = Err (Error ("Invalid embedding: expected 1536 dimensions, got "
                      ^^ string_of_nat (length v)))
        /\ trace (snd (Rag.storeEmbedding rt id v metadata w)) = trace w)
  /\ (forall topK w,
        Rag.queryEmbeddings_try rt v topK w
        = (Err (Error ("Invalid query embedding: expected 1536 dimensions, got "
                       ^^ string_of_nat (length v))), w)
        /\ fst (Rag.queryEmbeddings rt v topK w) = Ok []
        /\ trace (snd (Rag.queryEmbeddings rt v topK w)) = trace w
        /\ console (snd (Rag.queryEmbeddings rt v topK w))
           = console w
             ++ [ {| level := Error_; label := "Query error:";
                     detail := "Invalid query embedding: expected 1536 dimensions, got "
                               ^^ string_of_nat (length v) |} ]).
Proof.
  intros Hlen. split; [|split; [|split]].
  - intros text w H. apply Hlen. exact (embedText_length rt text w v H).
  - intros text w key response Hblank Hkey Hfetch Hok Hjson.
    unfold Rag.embedText. unmonad. rewrite Hblank, Hkey. unmonad.
    rewrite Hfetch. unmonad. rewrite Hok. unmonad. rewrite Hjson.
    rewrite (wrong_length_test v Hlen). reflexivity.
  - intros id metadata w. apply storeEmbedding_rejects, Hlen.
  - intros topK w. unfold Rag.queryEmbeddings, Rag.queryEmbeddings_try. unmonad.
    rewrite (wrong_length_test v Hlen). unmonad. repeat split; reflexivity.
Qed.

Lemma C1_witness :
  fst (Rag.embedText rt_short_vector "the sky is blue" fresh)
  = Err (Error "Invalid embedding dimensions: 3, expected 1536")
  /\ fst (Rag.storeEmbedding rt_short_vector "doc-1-chunk-0" v3 sample_metadata fresh)
     = Err (Error "Invalid embedding: expected 1536 dimensions, got 3")
  /\ Rag.queryEmbeddings_try rt_short_vector v3 5 fresh
     = (Err (Error "Invalid query embedding: expected 1536 dimensions, got 3"), fresh)
  /\ fst (Rag.queryEmbeddings rt_short_vector v3 5 fresh) = Ok [].
Proof.
  assert (Hlen : length v3 <> 1536) by (cbn; lia).
  destruct (C1_dimension_guard rt_short_vector v3 Hlen) as (_ & He & Hs & Hq).
  split; [|split; [|split]].
  - apply (He "the sky is blue" fresh "sk-or-key"
              {| emb_ok := true; emb_status := 200; emb_text := Ok "";
                 emb_json := Ok (Some v3) |});
      first [ reflexivity | intros; reflexivity ].
  - apply Hs.
  - apply (Hq 5%Z fresh).
  - apply (Hq 5%Z fresh).
Defined.

(** C2, as amended.  The calls of [queryEmbeddings] are those of the
    primary search followed by calls to the secondary index only; when
    the primary search returns one or more rows these rows are the
    result and the world is the one the primary search left (the
    secondary index is not touched); when it returns no row and the
    configured secondary index answers with matches, these matches are
    the result, as the index delivered them, untranslated; the result is
    always made of one store's answers only. *)
Theorem C2_primary_or_secondary (rt : runtime) (v : vector) (topK : Z) (w : world) :
  (exists d,
      trace (snd (Rag.queryEmbeddings rt v topK w))
      = trace (snd (Db.embeddings_search rt v topK w)) ++ d
      /\ forallb pinecone_call d = true)
  /\ (forall rows w1,
        Db.embeddings_search rt v topK w = (Ok rows, w1) ->
        rows <> [] ->
        Rag.queryEmbeddings rt v topK w = (Ok (map Rag.Primary rows), w1))
  /\ (forall w1 index pc w2 m ms,
        Db.embeddings_search rt v topK w = (Ok [], w1) ->
        if_truthy (PINECONE_INDEX (env rt)) = Some index ->
        Rag.initPinecone rt w1 = (Ok (Some pc), w2) ->
        oracle rt (trace w2) _ (PineconeQuery pc index v topK)
        = Ok {| matches := Some (m :: ms) |} ->
        fst (Rag.queryEmbeddings rt v topK w) = Ok (map Rag.Secondary (m :: ms)))
  /\ (forall l,
        fst (Rag.queryEmbeddings rt v topK w) = Ok l ->
        (exists rows, l = map Rag.Primary rows)
        \/ (exists ms, l = map Rag.Secondary ms)).
Proof.
  split; [|split; [|split]].
  - destruct (Nat.eq_dec (length v) 1536) as [Hlen|Hlen].
    + apply queryEmbeddings_primary_first, Hlen.
    + exists []. rewrite app_nil_r. split; [|reflexivity].
      rewrite (proj2 (queryEmbeddings_rejects rt v topK w Hlen)).
      unfold Db.embeddings_search. unmonad.
      rewrite (wrong_length_test v Hlen). reflexivity.
  - intros rows w1 Hs Hrows.
    apply queryEmbeddings_primary_hit; try assumption.
    apply (search_ok_length rt v topK w rows). rewrite Hs. reflexivity.
  - intros w1 index pc w2 m ms Hs Hidx Hpc Hq.
    assert (Hlen : length v = 1536).
    { apply (search_ok_length rt v topK w []). rewrite Hs. reflexivity. }
    pose proof (queryEmbeddings_fallback rt v topK w (Ok []) w1 Hlen Hs I) as H.
    rewrite Hidx in H. cbn [after_primary] in H. rewrite Hpc in H.
    cbv zeta in H. rewrite Hq in H. rewrite H. reflexivity.
  - intros l. apply queryEmbeddings_one_store.
Qed.

Lemma C2_witness :
  fst (Rag.queryEmbeddings rt_primary_hit v1536 10 fresh)
  = Ok [Rag.Primary row_cats; Rag.Primary row_sky]
  /\ fst (Rag.queryEmbeddings rt_primary_empty v1536 10 fresh)
     = Ok [Rag.Secondary match_sky].
Proof.
  split.
  - destruct (C2_primary_or_secondary rt_primary_hit v1536 10 fresh)
      as (_ & Hhit & _).
    rewrite (Hhit [row_cats; row_sky]
               (snd (Db.embeddings_search rt_primary_hit v1536 10 fresh)));
      [reflexivity | reflexivity | discriminate].
  - destruct (C2_primary_or_secondary rt_primary_empty v1536 10 fresh)
      as (_ & _ & Hfall & _).
    apply (Hfall (snd (Db.embeddings_search rt_primary_empty v1536 10 fresh))
                 "rag-index" (Pinecone "pc-key")
                 (snd (Rag.initPinecone rt_primary_empty
                         (snd (Db.embeddings_search rt_primary_empty v1536 10 fresh))))
                 match_sky []);
      reflexivity.
Defined.

Lemma C2_counterexample :
  fst (Db.embeddings_search rt_primary_empty v1536 10 fresh) = Ok []
  /\ fst (Rag.queryEmbeddings rt_primary_empty v1536 10 fresh)
     = Ok [Rag.Secondary match_sky]
  /\ (forall r, has_content (Rag.Primary r))
  /\ ~ has_content (Rag.Secondary match_sky).
Proof.
  split; [reflexivity|]. split; [reflexivity|]. split.
  - intros r. exists (row_content r). reflexivity.
  - intros [c H]. discriminate H.
Qed.

(** C4, as amended.  For an upstream stream of [n] provider delta chunks
    followed by the terminal marker, the chat route enqueues one
    text-delta event per chunk whose delta content is truthy (a
    non-empty text), in the order of arrival, then one [DONE] marker; a
    chunk whose delta content is empty or missing produces no event.
    When all [n] contents are truthy there are exactly [n] events. *)
Theorem C4_stream_translation (rt : runtime) (chunks : list string)
    (deltas : list jsval) :
  Forall2 (delta_chunk rt) chunks deltas ->
  ChatRoute.stream_start rt
    (Some {| reads := chunks ++ [done_chunk]; broken := None |})
  = map (ChatRoute.text_delta_event rt) (filter truthy deltas)
    ++ [ChatRoute.done_event]
  /\ (Forall (fun delta => truthy delta = true) deltas ->
      ChatRoute.stream_start rt
        (Some {| reads := chunks ++ [done_chunk]; broken := None |})
      = map (ChatRoute.text_delta_event rt) deltas ++ [ChatRoute.done_event]).
Proof.
  intros H. split.
  - apply stream_of_deltas. exact H.
  - intros Ht. cbn [ChatRoute.stream_start reads].
    rewrite (stream_of_deltas rt chunks deltas H).
    replace (filter truthy deltas) with deltas; [reflexivity|].
    clear H. induction Ht as [|d ds Hd _ IH]; [reflexivity|].
    cbn [filter]. rewrite Hd, <- IH. reflexivity.
Qed.

Ltac sample_delta text :=
  exists (delta_payload text), (delta_json text);
  split; [reflexivity|];
  split; [reflexivity|];
  split; [intros E; vm_compute in E; discriminate E|];
  split; reflexivity.

Lemma C4_witness :
  ChatRoute.stream_start rt_stream
    (Some {| reads := [ sse_chunk (delta_payload "Hel");
                        sse_chunk (delta_payload "lo");
                        sse_chunk (delta_payload "!");
                        done_chunk ];
             broken := None |})
  = [ ChatRoute.text_delta_event rt_stream (JStr "Hel");
      ChatRoute.text_delta_event rt_stream (JStr "lo");
      ChatRoute.text_delta_event rt_stream (JStr "!");
      ChatRoute.done_event ].
Proof.
  apply (C4_stream_translation rt_stream
           [ sse_chunk (delta_payload "Hel"); sse_chunk (delta_payload "lo");
             sse_chunk (delta_payload "!") ]
           [ JStr "Hel"; JStr "lo"; JStr "!" ]).
  - repeat constructor; [sample_delta "Hel" | sample_delta "lo" | sample_delta "!"].
  - repeat constructor.
Defined.

Lemma C4_counterexample :
  delta_chunk rt_stream (sse_chunk (delta_payload "")) (JStr "")
  /\ delta_chunk rt_stream (sse_chunk (delta_payload "Hel")) (JStr "Hel")
  /\ ChatRoute.stream_start rt_stream
       (Some {| reads := [ sse_chunk (delta_payload "");
                           sse_chunk (delta_payload "Hel");
                           done_chunk ];
                broken := None |})
     = [ ChatRoute.text_delta_event rt_stream (JStr "Hel"); ChatRoute.done_event ]
  /\ length (ChatRoute.stream_start rt_stream
               (Some {| reads := [ sse_chunk (delta_payload "");
                                   sse_chunk (delta_payload "Hel");
                                   done_chunk ];
                        broken := None |}))
     <> 2 + 1.
Proof.
  split; [sample_delta ""|]. split; [sample_delta "Hel"|].
  split; [reflexivity|]. vm_compute. discriminate.
Qed.

(** C3, the code at the failing input.  The first message of the
    completion request is always the assistant message "Here is
    relevant document context:" followed by the context; with a blank
    user message the context is empty and the request carries that
    header with nothing after it, while the neutral [systemMessage]
    that the route computes for an empty context is not sent. *)
Theorem C3_context_message_when_empty :
  (forall ragContext req,
      hd_error (ChatRoute.completion_messages ragContext req)
      = Some {| pm_role := "assistant";
                pm_content := Plain ("Here is relevant document context:"
                                     ^^ nlnl ^^ ragContext) |})
  /\ ChatRoute.systemMessage "" = "You are a helpful AI assistant."
  /\ (exists pre answer post,
        trace (snd (ChatRoute.POST rt_calm (Ok blank_turn) fresh))
        = pre
          ++ Call (CompletionsFetch (Some "sk-or-key")
                     {| cb_model := "microsoft/phi-3-medium-128k-instruct";
                        cb_messages :=
                          [ {| pm_role := "assistant";
                               pm_content := Plain ("Here is relevant document context:"
                                                    ^^ nlnl) |};
                            {| pm_role := "user"; pm_content := Plain "   " |} ] |})
                  answer
          :: post).
Proof.
  split; [reflexivity|]. split; [reflexivity|].
  eexists [_; _], _, [_; _; _]. vm_compute. reflexivity.
Qed.

(** C5.  [retrieveContext] never raises; on a query made of white space
    only (the empty query included) it returns the empty string and
    leaves the world untouched, so no service is called; whatever is
    thrown in its [try] block gives the empty string, in particular a
    failure of the embedding and a failure of the re-ranking; the search
    step itself never throws. *)
Theorem C5_retrieveContext_best_effort (rt : runtime) (query : string) (w : world) :
  (exists s, fst (Rag.retrieveContext rt query w) = Ok s)
  /\ (all_space query = true -> Rag.retrieveContext rt query w = (Ok "", w))
  /\ (forall e,
        fst (Rag.retrieveContext_try rt query w) = Err e ->
        fst (Rag.retrieveContext rt query w) = Ok "")
  /\ (forall e w1,
        all_space query = false ->
        Rag.embedText rt (rewritten query) w = (Err e, w1) ->
        fst (Rag.retrieveContext rt query w) = Ok "")
  /\ (forall v w1 ms w2 e,
        all_space query = false ->
        Rag.embedText rt (rewritten query) w = (Ok v, w1) ->
        Rag.queryEmbeddings rt v 10 w1 = (Ok ms, w2) ->
        Rag.sort (Rag.compare_matches query) ms = Err e ->
        fst (Rag.retrieveContext rt query w) = Ok "")
  /\ (forall v w1,
        Rag.embedText rt (rewritten query) w = (Ok v, w1) ->
        exists ms, fst (Rag.queryEmbeddings rt v 10 w1) = Ok ms).
Proof.
  split; [|split; [|split; [|split; [|split]]]].
  - apply retrieveContext_total.
  - intros H. apply retrieveContext_blank. rewrite is_blank_all_space. exact H.
  - intros e. apply retrieveContext_catches.
  - intros e w1 H. apply retrieveContext_embed_failure.
    rewrite is_blank_all_space. exact H.
  - intros v w1 ms w2 e H. apply retrieveContext_rerank_failure.
    rewrite is_blank_all_space. exact H.
  - intros v w1 _. apply queryEmbeddings_total.
Qed.

Lemma C5_witness :
  Rag.retrieveContext rt_calm "   " fresh = (Ok "", fresh)
  /\ fst (Rag.retrieveContext rt_no_key "What colour is the sky?" fresh) = Ok "".
Proof.
  split.
  - apply (C5_retrieveContext_best_effort rt_calm "   " fresh). reflexivity.
  - destruct (C5_retrieveContext_best_effort rt_no_key "What colour is the sky?" fresh)
      as (_ & _ & _ & H & _).
    apply (H (Error "OPENROUTER_API_KEY is not set")
             (snd (Rag.embedText rt_no_key (rewritten "What colour is the sky?") fresh)));
      reflexivity.
Defined.

(** C7, with the code at the failing input.  The score
    [textSimilarity(query, content)] is 1 when the
    lower-cased content includes the lower-cased query, plus one tenth
    per word of the query (as [split(" ")] cuts it) that the content
    includes; [retrieveContext] embeds the rewritten query but sorts the
    matches with the score of the original query, descending; on rows of
    the primary store the sorted array is a permutation of the matches,
    and for the query ["sky blue"] the row "the sky is blue" comes
    before the row "cats are mammals" whichever came first.  On two or
    more matches of the secondary index, whose text sits under
    [metadata.content], the comparator throws, nothing is re-ranked and
    [retrieveContext] returns the empty string: so it does in the
    runtime whose index answers with the records "the sky is blue" and
    "cats are mammals". *)
Theorem C7_rerank (rt : runtime) (query : string) :
  (forall content,
      (Rag.textSimilarity query content
       == (if includes (toLowerCase query) (toLowerCase content) then 1 else 0)
          + (1 # 10) * inject_Z (Z.of_nat (matching_words (toLowerCase query)
                                                          (toLowerCase content))))%Q)
  /\ (forall rows,
        exists ranked,
          Rag.sort (Rag.compare_matches query) (map Rag.Primary rows) = Ok ranked
          /\ Permutation (map Rag.Primary rows) ranked
          /\ StronglySorted
               (fun a b => (score query b <= score query a)%Q) ranked)
  /\ (forall r, score query (Rag.Primary r) = Rag.textSimilarity query (row_content r))
  /\ (forall w v w1 ms w2 ranked,
        all_space query = false ->
        Rag.embedText rt (rewritten query) w = (Ok v, w1) ->
        Rag.queryEmbeddings rt v 10 w1 = (Ok ms, w2) ->
        Rag.sort (Rag.compare_matches query) ms = Ok ranked ->
        ranked <> [] ->
        Rag.retrieveContext rt query w
        = (Ok (join nlnl (filter nonempty (map Rag.extract_content ranked))), w2))
  /\ (forall a b : pg_row,
        row_content a = "the sky is blue" ->
        row_content b = "cats are mammals" ->
        Rag.sort (Rag.compare_matches "sky blue") [Rag.Primary a; Rag.Primary b]
        = Ok [Rag.Primary a; Rag.Primary b]
        /\ Rag.sort (Rag.compare_matches "sky blue") [Rag.Primary b; Rag.Primary a]
           = Ok [Rag.Primary a; Rag.Primary b])
  /\ (forall (a b : pc_match) (l : list pc_match),
        Rag.sort (Rag.compare_matches query) (map Rag.Secondary (a :: b :: l))
        = Err no_content_error)
  /\ (forall w v w1 a b l w2,
        all_space query = false ->
        Rag.embedText rt (rewritten query) w = (Ok v, w1) ->
        Rag.queryEmbeddings rt v 10 w1 = (Ok (map Rag.Secondary (a :: b :: l)), w2) ->
        fst (Rag.retrieveContext rt query w) = Ok ""
        /\ console (snd (Rag.retrieveContext rt query w))
           = console w2 ++ [context_error_line no_content_error])
  /\ (map Rag.extract_content [Rag.Secondary match_sky; Rag.Secondary match_cats]
      = ["the sky is blue"; "cats are mammals"]
      /\ fst (Rag.queryEmbeddings rt_secondary_two v1536 10 fresh)
         = Ok [Rag.Secondary match_sky; Rag.Secondary match_cats]
      /\ fst (Rag.retrieveContext rt_secondary_two "sky blue" fresh) = Ok "").
Proof.
  split; [|split; [|split; [|split; [|split; [|split; [|split]]]]]].
  - intros content. apply textSimilarity_formula.
  - intros rows. apply sort_sorted.
    apply Forall_forall. intros m Hm. apply in_map_iff in Hm.
    destruct Hm as (r & <- & _). exists (row_content r). reflexivity.
  - intros r. reflexivity.
  - intros w v w1 ms w2 ranked H. apply retrieveContext_reranked.
    rewrite is_blank_all_space. exact H.
  - apply sky_example.
  - intros a b l. apply sort_without_content_throws.
  - intros w v w1 a b l w2 Hq He Hs.
    rewrite <- is_blank_all_space in Hq.
    destruct (retrieveContext_without_content rt query w v w1 a b l w2 Hq He Hs)
      as (Hr & _ & Hc).
    split; assumption.
  - split; [reflexivity|]. split; vm_compute; reflexivity.
Qed.

Lemma C7_witness :
  Rag.sort (Rag.compare_matches "sky blue") [Rag.Primary row_cats; Rag.Primary row_sky]
  = Ok [Rag.Primary row_sky; Rag.Primary row_cats]
  /\ fst (Rag.retrieveContext rt_primary_hit "sky blue" fresh)
     = Ok ("the sky is blue" ^^ nlnl ^^ "cats are mammals")
  /\ fst (Rag.retrieveContext rt_secondary_two "sky blue" fresh) = Ok "".
Proof.
  destruct (C7_rerank rt_primary_hit "sky blue") as (_ & _ & _ & Hctx & Hsky & _).
  split; [|split].
  - apply (Hsky row_sky row_cats); reflexivity.
  - pose (w1 := snd (Rag.embedText rt_primary_hit (rewritten "sky blue") fresh)).
    rewrite (Hctx fresh v1536 w1 [Rag.Primary row_cats; Rag.Primary row_sky]
               (snd (Rag.queryEmbeddings rt_primary_hit v1536 10 w1))
               [Rag.Primary row_sky; Rag.Primary row_cats]);
      first [ reflexivity | discriminate ].
  - destruct (C7_rerank rt_secondary_two "sky blue") as (_ & _ & _ & _ & _ & _ & H & _).
    pose (w1 := snd (Rag.embedText rt_secondary_two (rewritten "sky blue") fresh)).
    apply (H fresh v1536 w1 match_sky match_cats []
             (snd (Rag.queryEmbeddings rt_secondary_two v1536 10 w1)));
      vm_compute; reflexivity.
Defined.

(** C10, as amended.  [queryEmbeddings] always returns a list and never
    raises; a vector rejected by its dimension check gives the empty
    list; when the primary search fails (or finds nothing) the secondary
    index is tried: its matches are returned when it is configured, its
    client is available and its query answers with at least one match,
    and the empty list is returned in every other case. *)
Theorem C10_queryEmbeddings_total (rt : runtime) (v : vector) (topK : Z) (w : world) :
  (exists l, fst (Rag.queryEmbeddings rt v topK w) = Ok l)
  /\ (length v <> 1536 -> fst (Rag.queryEmbeddings rt v topK w) = Ok [])
  /\ (forall r w1,
        length v = 1536 ->
        Db.embeddings_search rt v topK w = (r, w1) ->
        primary_missed r ->
        match if_truthy (PINECONE_INDEX (env rt)) with
        | None => fst (Rag.queryEmbeddings rt v topK w) = Ok []
        | Some index =>
            match Rag.initPinecone rt (after_primary r w1) with
            | (Ok (Some pc), w2) =>
                match oracle rt (trace w2) _ (PineconeQuery pc index v topK) with
                | Ok {| matches := Some (m :: ms) |} =>
                    fst (Rag.queryEmbeddings rt v topK w)
                    = Ok (map Rag.Secondary (m :: ms))
                | _ => fst (Rag.queryEmbeddings rt v topK w) = Ok []
                end
            | _ => fst (Rag.queryEmbeddings rt v topK w) = Ok []
            end
        end).
Proof.
  split; [|split].
  - apply queryEmbeddings_total.
  - intros Hlen. apply queryEmbeddings_rejects, Hlen.
  - intros r w1 Hlen Hs Hmiss.
    pose proof (queryEmbeddings_fallback rt v topK w r w1 Hlen Hs Hmiss) as H.
    destruct (if_truthy (PINECONE_INDEX (env rt))) as [index|];
      [|rewrite H; reflexivity].
    destruct (Rag.initPinecone rt (after_primary r w1)) as [[[pc|]|e] w2];
      try exact H.
    cbv zeta in H.
    destruct (oracle rt (trace w2) (result query_response)
                (PineconeQuery pc index v topK)) as [[[[|m ms]|]]|e];
      try exact H.
    rewrite H. reflexivity.
Qed.

Lemma C10_witness :
  fst (Rag.queryEmbeddings rt_primary_down v1536 10 fresh)
  = Ok [Rag.Secondary match_sky].
Proof.
  destruct (C10_queryEmbeddings_total rt_primary_down v1536 10 fresh) as (_ & _ & H).
  exact (H (Err (Thrown "Connection terminated unexpectedly"))
           (snd (Db.embeddings_search rt_primary_down v1536 10 fresh))
           v1536_length eq_refl I).
Defined.

Lemma C10_counterexample :
  length v1536 = 1536
  /\ fst (Db.embeddings_search rt_primary_down v1536 10 fresh)
     = Err (Thrown "Connection terminated unexpectedly")
  /\ fst (Rag.queryEmbeddings rt_primary_down v1536 10 fresh)
     = Ok [Rag.Secondary match_sky]
  /\ [Rag.Secondary match_sky] <> [].
Proof.
  split; [apply v1536_length|]. split; [reflexivity|]. split; [reflexivity|].
  discriminate.
Qed.

(** C6.  With a vector of length 1536 and a database connection to be
    had, the first call of [storeEmbedding] is the INSERT of the row
    into the primary store, and every call after it goes to the
    secondary index; when the INSERT fails its error is raised to the
    caller and nothing is called after it; when it succeeds
    [storeEmbedding] returns normally whatever the secondary index
    does.  Without a connection the error of [getDb] is raised and
    nothing is called.  In terms of the primary write as a whole: its
    failure is raised to the caller with nothing done after it, after
    its success [storeEmbedding] returns normally, and a failed
    secondary upsert is collected and logged as two warnings. *)
Theorem C6_store_failure_policy (rt : runtime) (id : string) (v : vector)
    (md : Rag.embedding_metadata) (w : world) :
  length v = 1536 ->
  (connected rt w ->
   exists d,
     trace (snd (Rag.storeEmbedding rt id v md w))
     = trace w
       ++ Call (primary_insert id v md) (oracle rt (trace w) _ (primary_insert id v md))
       :: d
     /\ forallb pinecone_call d = true
     /\ match oracle rt (trace w) _ (primary_insert id v md) with
        | Err e => fst (Rag.storeEmbedding rt id v md w) = Err e /\ d = []
        | Ok _ => fst (Rag.storeEmbedding rt id v md w) = Ok tt
        end)
  /\ (sql w = false -> if_truthy (DATABASE_URL (env rt)) = None ->
      fst (Rag.storeEmbedding rt id v md w) = Err database_url_error
      /\ trace (snd (Rag.storeEmbedding rt id v md w)) = trace w)
  /\ (exists d,
      trace (snd (Rag.storeEmbedding rt id v md w))
      = trace (snd (primary_write rt id v md w)) ++ d
      /\ forallb pinecone_call d = true)
  /\ (forall e w1,
        primary_write rt id v md w = (Err e, w1) ->
        fst (Rag.storeEmbedding rt id v md w) = Err e
        /\ trace (snd (Rag.storeEmbedding rt id v md w)) = trace w1)
  /\ (forall row w1,
        primary_write rt id v md w = (Ok row, w1) ->
        fst (Rag.storeEmbedding rt id v md w) = Ok tt)
  /\ (forall row w1 index pc w2 e2,
        primary_write rt id v md w = (Ok row, w1) ->
        if_truthy (PINECONE_INDEX (env rt)) = Some index ->
        Rag.initPinecone rt w1 = (Ok (Some pc), w2) ->
        oracle rt (trace w2) _
          (PineconeUpsert pc index id v (Rag.cleanMetadata rt (Rag.Object_entries md)))
        = Err e2 ->
        fst (Rag.storeEmbedding rt id v md w) = Ok tt
        /\ console (snd (Rag.storeEmbedding rt id v md w))
           = console w2
             ++ [ {| level := Warn; label := "";
                     detail := "Pinecone storage failed: " ^^ error_text e2 |} ]
             ++ [ {| level := Warn;
                     label := "Partial success storing " ^^ id ^^ ":";
                     detail := join "," ["Pinecone storage failed: " ^^ error_text e2] |} ]).
Proof.
  intros Hlen. split; [|split; [|split; [|split; [|split]]]].
  - intros Hc. apply storeEmbedding_insert_first; assumption.
  - intros Hs Hu. apply storeEmbedding_no_connection; assumption.
  - destruct (primary_write rt id v md w) as [[row|e] w1] eqn:Hp.
    + destruct (storeEmbedding_primary_success rt id v md w row w1 Hlen Hp)
        as (_ & d & Ht & Hd).
      exists d. split; assumption.
    + destruct (storeEmbedding_primary_failure rt id v md w e w1 Hlen Hp) as (_ & Ht).
      exists []. rewrite app_nil_r. split; [exact Ht | reflexivity].
  - intros e w1 Hp. apply storeEmbedding_primary_failure; assumption.
  - intros row w1 Hp.
    apply (storeEmbedding_primary_success rt id v md w row w1 Hlen Hp).
  - intros row w1 index pc w2 e2 Hp Hidx Hpc Hup.
    apply (storeEmbedding_secondary_failure rt id v md w row w1 index pc w2 e2);
      assumption.
Qed.

Lemma C6_witness :
  (trace (snd (Rag.storeEmbedding rt_secondary_down "doc-1-chunk-0" v1536
                 sample_metadata fresh))
   = [ Call (primary_insert "doc-1-chunk-0" v1536 sample_metadata)
            (Ok [[("id", JStr "e")]]);
       Call (NewPinecone "pc-key") (Ok tt);
       Call (PineconeUpsert (Pinecone "pc-key") "rag-index" "doc-1-chunk-0" v1536
               (Rag.Object_entries sample_metadata))
            (Err (Error "index unavailable")) ]
   /\ fst (Rag.storeEmbedding rt_secondary_down "doc-1-chunk-0" v1536 sample_metadata fresh)
      = Ok tt)
  /\ (trace (snd (Rag.storeEmbedding rt_primary_write_down "doc-1-chunk-0" v1536
                    sample_metadata fresh))
      = [ Call (primary_insert "doc-1-chunk-0" v1536 sample_metadata)
               (Err (Error "connection lost")) ]
      /\ fst (Rag.storeEmbedding rt_primary_write_down "doc-1-chunk-0" v1536
                sample_metadata fresh)
         = Err (Error "connection lost"))
  /\ console (snd (Rag.storeEmbedding rt_secondary_down "doc-1-chunk-0" v1536
                     sample_metadata fresh))
     = [ {| level := Warn; label := "";
            detail := "Pinecone storage failed: index unavailable" |};
         {| level := Warn; label := "Partial success storing doc-1-chunk-0:";
            detail := "Pinecone storage failed: index unavailable" |} ].
Proof.
  assert (Hc : forall rt, env rt = env_full -> connected rt fresh).
  { intros rt H. right. exists "postgres://db". rewrite H. reflexivity. }
  split; [|split].
  - destruct (proj1 (C6_store_failure_policy rt_secondary_down "doc-1-chunk-0" v1536
                       sample_metadata fresh v1536_length) (Hc (runtime_of [] _) eq_refl))
      as (d & Ht & _ & Hr).
    split; [|exact Hr]. reflexivity.
  - destruct (proj1 (C6_store_failure_policy rt_primary_write_down "doc-1-chunk-0" v1536
                       sample_metadata fresh v1536_length) (Hc (runtime_of [] _) eq_refl))
      as (d & Ht & _ & Hr & Hd).
    split; [|exact Hr]. rewrite Ht, Hd. reflexivity.
  - destruct (C6_store_failure_policy rt_secondary_down "doc-1-chunk-0" v1536
                sample_metadata fresh v1536_length) as (_ & _ & _ & _ & _ & H).
    pose (w1 := snd (primary_write rt_secondary_down "doc-1-chunk-0" v1536
                       sample_metadata fresh)).
    exact (proj2 (H (Some [("id", JStr "e")]) w1 "rag-index" (Pinecone "pc-key")
                    (snd (Rag.initPinecone rt_secondary_down w1))
                    (Error "index unavailable") eq_refl eq_refl eq_refl eq_refl)).
Defined.







(* ================================================================== *)
(** * Further properties of the code *)
(* ================================================================== *)

Import ChatClient.

(* ================================================================== *)
(** ** The request to the embedding service *)
(* ================================================================== *)


Lemma trimStart_length s : String.length (trimStart s) <= String.length s.
Proof.
  induction s as [|c s IH]; cbn; [lia|]. destruct (is_space c); cbn; lia.
Qed.

Lemma trimEnd_length s : String.length (trimEnd s) <= String.length s.
Proof.
  induction s as [|c s IH]; cbn; [lia|].
  destruct (trimEnd s); [destruct (is_space c)|]; cbn in *; lia.
Qed.

Lemma collapse_from_length r s :
  String.length (collapse_from r s) <= String.length s.
Proof.
  revert r. induction s as [|c s IH]; intros r; cbn; [lia|].
  pose proof (IH true). pose proof (IH false).
  destruct (is_space c); [destruct r|]; cbn; lia.
Qed.

Lemma slice_to_length n s : String.length (slice_to n s) <= n.
Proof.
  unfold slice_to. revert s. induction n as [|n IH]; intros s.
  - destruct s; cbn; lia.
  - destruct s as [|c s]; cbn; [lia|]. specialize (IH s). lia.
Qed.

Lemma collapse_single_spaced r s :
  single_spaced_from r (collapse_from r s) = true.
Proof.
  revert r. induction s as [|c s IH]; intros r; cbn; [reflexivity|].
  destruct (is_space c) eqn:Hc.
  - destruct r; [apply IH|].
    cbn. change (is_space SP) with true. cbn. apply IH.
  - cbn. rewrite Hc. apply IH.
Qed.

Lemma single_spaced_relax s :
  single_spaced_from true s = true -> single_spaced_from false s = true.
Proof.
  destruct s as [|c s]; [reflexivity|]. cbn.
  destruct (is_space c); [|auto]. rewrite andb_false_r. discriminate.
Qed.

Lemma trimStart_single_spaced r s :
  single_spaced_from r s = true -> single_spaced_from false (trimStart s) = true.
Proof.
  revert r. induction s as [|c s IH]; intros r; [reflexivity|]. cbn.
  destruct (is_space c) eqn:Hc.
  - intros H. apply andb_true_iff in H. destruct H as [_ H]. eapply IH. exact H.
  - intros H. cbn. rewrite Hc. exact H.
Qed.

Lemma trimEnd_single_spaced r s :
  single_spaced_from r s = true -> single_spaced_from r (trimEnd s) = true.
Proof.
  revert r. induction s as [|c s IH]; intros r; [reflexivity|].
  cbn [trimEnd single_spaced_from].
  destruct (is_space c) eqn:Hc.
  - intros H. apply andb_true_iff in H. destruct H as [H1 H2].
    specialize (IH true H2).
    destruct (trimEnd s) as [|c' t]; [reflexivity|].
    cbn [single_spaced_from]. rewrite Hc, H1. exact IH.
  - intros H. specialize (IH false H).
    destruct (trimEnd s) as [|c' t]; cbn [single_spaced_from]; rewrite Hc; [reflexivity | exact IH].
Qed.

Lemma trimStart_starts_clean s : starts_clean (trimStart s) = true.
Proof.
  induction s as [|c s IH]; [reflexivity|]. cbn.
  destruct (is_space c) eqn:Hc; [exact IH|]. cbn. rewrite Hc. reflexivity.
Qed.

Lemma trimEnd_starts_clean s :
  starts_clean s = true -> starts_clean (trimEnd s) = true.
Proof.
  destruct s as [|c s]; [reflexivity|]. cbn [starts_clean trimEnd].
  intros H. apply negb_true_iff in H.
  destruct (trimEnd s); [rewrite H|]; cbn; rewrite H; reflexivity.
Qed.

Lemma trimEnd_ends_clean s : ends_clean (trimEnd s) = true.
Proof.
  induction s as [|c s IH]; [reflexivity|]. cbn [trimEnd].
  destruct (trimEnd s) as [|c' t] eqn:E.
  - destruct (is_space c) eqn:Hc; [reflexivity|]. cbn. rewrite Hc. reflexivity.
  - exact IH.
Qed.

#[warnings="-abstract-large-number"]
Lemma cleaned_tidy text :
  tidy_input (trim (collapse_spaces (slice_to 8000 text))).
Proof.
  unfold tidy_input, trim, collapse_spaces. repeat split.
  - etransitivity; [apply trimEnd_length|].
    etransitivity; [apply trimStart_length|].
    etransitivity; [apply collapse_from_length|]. apply slice_to_length.
  - apply trimEnd_single_spaced. eapply trimStart_single_spaced.
    apply collapse_single_spaced.
  - apply trimEnd_starts_clean, trimStart_starts_clean.
  - apply trimEnd_ends_clean.
Qed.

(** X1.  Whatever [embedText] is given, it makes at most one call, a
    request to the embedding service, and the input of that request is
    clean: at most 8000 characters, no white space but single spaces,
    each between two other characters, so none at either end. *)
Theorem X1_embedText_request (rt : runtime) (text : string) (w : world) :
  trace (snd (Rag.embedText rt text w)) = trace w
  \/ exists bearer referer input answer,
       trace (snd (Rag.embedText rt text w))
       = trace w ++ [Call (EmbeddingsFetch bearer referer input) answer]
       /\ tidy_input input.
Proof.
  unfold Rag.embedText.
  destruct (is_blank text) eqn:Hb; [left; reflexivity|].
  destruct (if_truthy (OPENROUTER_API_KEY (env rt))) as [key|] eqn:Hk;
    [|left; reflexivity].
  right. run; eexists _, _, _, _; (split; [reflexivity | apply cleaned_tidy]).
Qed.

(** X2.  [embedText] returns a vector exactly when the text is not
    blank, the key is set, and the service answers the one request with
    an ok response whose embedding has 1536 numbers.  A success logs
    nothing; every failure logs one line, "Embedding error:" with the
    error that is thrown on.  A blank text and a missing key fail with
    their own messages before any call is made. *)
Theorem X2_embedText_outcomes (rt : runtime) (text : string) (w : world) :
  (forall v,
      fst (Rag.embedText rt text w) = Ok v <->
      is_blank text = false
      /\ exists key response,
           if_truthy (OPENROUTER_API_KEY (env rt)) = Some key
           /\ oracle rt (trace w) _ (embeddings_request rt key text) = Ok response
           /\ emb_ok response = true
           /\ emb_json response = Ok (Some v)
           /\ length v = 1536)
  /\ (forall v, fst (Rag.embedText rt text w) = Ok v ->
                console (snd (Rag.embedText rt text w)) = console w)
  /\ (forall e, fst (Rag.embedText rt text w) = Err e ->
                console (snd (Rag.embedText rt text w))
                = console w ++ [embedding_error_line e])
  /\ (is_blank text = true ->
      fst (Rag.embedText rt text w) = Err (Error "Empty text provided for embedding")
      /\ trace (snd (Rag.embedText rt text w)) = trace w)
  /\ (is_blank text = false ->
      if_truthy (OPENROUTER_API_KEY (env rt)) = None ->
      fst (Rag.embedText rt text w) = Err (Error "OPENROUTER_API_KEY is not set")
      /\ trace (snd (Rag.embedText rt text w)) = trace w).
Proof.
  split; [|split; [|split; [|split]]].
  - intros v. split.
    + unfold Rag.embedText, embeddings_request.
      run; intros H; try discriminate H; inversion H; subst.
      all: split; [reflexivity|].
      all: eexists _, _; split; [reflexivity|].
      all: split; [eassumption|].
      all: repeat match goal with
                  | E : negb _ = false |- _ => apply negb_false_iff in E
                  end.
      all: split; [assumption|]. all: split; [assumption|].
      all: apply Nat.eqb_eq; assumption.
    + intros (Hb & key & response & Hk & Ho & Hok & Hj & Hlen).
      unfold Rag.embedText. unmonad. rewrite Hb, Hk. unmonad.
      unfold embeddings_request in Ho. rewrite Ho. unmonad.
      rewrite Hok. unmonad. rewrite Hj.
      rewrite (right_length_test v Hlen). reflexivity.
  - intros v. unfold Rag.embedText. run; intros H; try discriminate H; reflexivity.
  - intros e. unfold Rag.embedText, embedding_error_line.
    run; intros H; try discriminate H; inversion H; subst; reflexivity.
  - intros Hb. unfold Rag.embedText. unmonad. rewrite Hb. split; reflexivity.
  - intros Hb Hk. unfold Rag.embedText. unmonad. rewrite Hb, Hk. split; reflexivity.
Qed.

Lemma X2_witness :
  fst (Rag.embedText rt_calm "the sky is blue" fresh) = Ok v1536
  /\ fst (Rag.embedText rt_no_key "the sky is blue" fresh)
     = Err (Error "OPENROUTER_API_KEY is not set")
  /\ fst (Rag.embedText rt_calm "   " fresh)
     = Err (Error "Empty text provided for embedding").
Proof.
  split; [|split].
  - apply (proj1 (X2_embedText_outcomes rt_calm "the sky is blue" fresh)).
    split; [reflexivity|]. exists "sk-or-key", good_embedding.
    repeat split; reflexivity.
  - apply (X2_embedText_outcomes rt_no_key "the sky is blue" fresh); reflexivity.
  - apply (X2_embedText_outcomes rt_calm "   " fresh). reflexivity.
Defined.

(** X3.  [initPinecone] keeps the client it makes: once a call has
    returned a client, every later call returns the same client and
    changes nothing.  Without PINECONE_API_KEY it returns [null] without
    a call; when the constructor throws it returns [null] and keeps
    nothing; it never throws, and one invocation makes at most one
    constructor call. *)
Theorem X3_initPinecone_cache (rt : runtime) (w : world) :
  (forall pc w1,
      Rag.initPinecone rt w = (Ok (Some pc), w1) ->
      pineconeClient w1 = Some pc
      /\ forall w2, pineconeClient w2 = Some pc ->
                    Rag.initPinecone rt w2 = (Ok (Some pc), w2))
  /\ (pineconeClient w = None ->
      if_truthy (PINECONE_API_KEY (env rt)) = None ->
      fst (Rag.initPinecone rt w) = Ok None
      /\ trace (snd (Rag.initPinecone rt w)) = trace w
      /\ pineconeClient (snd (Rag.initPinecone rt w)) = None)
  /\ (forall key e,
        pineconeClient w = None ->
        if_truthy (PINECONE_API_KEY (env rt)) = Some key ->
        oracle rt (trace w) _ (NewPinecone key) = Err e ->
        fst (Rag.initPinecone rt w) = Ok None
        /\ pineconeClient (snd (Rag.initPinecone rt w)) = None)
  /\ (exists r, fst (Rag.initPinecone rt w) = Ok r)
  /\ (trace (snd (Rag.initPinecone rt w)) = trace w
      \/ exists key answer,
           pineconeClient w = None
           /\ trace (snd (Rag.initPinecone rt w))
              = trace w ++ [Call (NewPinecone key) answer]).
Proof.
  split; [|split; [|split; [|split]]].
  - intros pc w1. unfold Rag.initPinecone.
    run; intros H; inversion H; subst; (split; [cbn; first [assumption | reflexivity]|]).
    all: intros w2 H2; unmonad; rewrite H2; reflexivity.
  - intros Hc Hk. unfold Rag.initPinecone. unmonad. rewrite Hc, Hk.
    repeat split; cbn; auto.
  - intros key e Hc Hk Ho. unfold Rag.initPinecone. unmonad.
    rewrite Hc, Hk. unmonad. rewrite Ho. split; [reflexivity | exact Hc].
  - destruct (initPinecone_total rt w) as (r & w' & H). exists r. rewrite H. reflexivity.
  - unfold Rag.initPinecone.
    run; first [ left; reflexivity | right; eexists _, _; split; [reflexivity|reflexivity] ].
Qed.

Lemma X3_witness :
  exists w1,
    Rag.initPinecone rt_calm fresh = (Ok (Some (Pinecone "pc-key")), w1)
    /\ trace w1 = [Call (NewPinecone "pc-key") (Ok tt)]
    /\ Rag.initPinecone rt_calm w1 = (Ok (Some (Pinecone "pc-key")), w1).
Proof.
  exists (snd (Rag.initPinecone rt_calm fresh)).
  split; [reflexivity|]. split; [reflexivity|].
  apply (proj1 (X3_initPinecone_cache rt_calm fresh) (Pinecone "pc-key")
           (snd (Rag.initPinecone rt_calm fresh)) eq_refl).
  reflexivity.
Defined.


(* ================================================================== *)
(** ** The database layer *)
(* ================================================================== *)


(** X4.  Before a connection exists and without DATABASE_URL, every
    function of db.ts used by the routes fails with the DATABASE_URL
    error and sends no statement (for the two functions that take a
    vector, once the vector has passed their dimension check). *)
Theorem X4_no_database_url (rt : runtime) (w : world) :
  sql w = false ->
  if_truthy (DATABASE_URL (env rt)) = None ->
  refused_for_url (Db.initializeDatabase rt) w
  /\ (forall id email name role, refused_for_url (Db.users_upsert rt id email name role) w)
  /\ (forall id, refused_for_url (Db.users_getById rt id) w)
  /\ (forall id u f t s x, refused_for_url (Db.documents_create rt id u f t s x) w)
  /\ (forall id d i c v m, length v = 1536 ->
                           refused_for_url (Db.embeddings_create rt id d i c v m) w)
  /\ (forall v k, length v = 1536 -> refused_for_url (Db.embeddings_search rt v k) w)
  /\ (forall id u r c i, refused_for_url (Db.chatMessages_create rt id u r c i) w).
Proof.
  intros Hs Hu. unfold refused_for_url.
  repeat split; intros;
    unfold Db.initializeDatabase, Db.users_upsert, Db.users_getById,
      Db.documents_create, Db.embeddings_create, Db.embeddings_search,
      Db.chatMessages_create, Db.getDb; unmonad;
    rewrite ?right_length_test by assumption; unmonad;
    rewrite Hs, Hu; reflexivity.
Qed.

Lemma X4_witness :
  refused_for_url (Db.users_getById rt_no_database "u1") fresh
  /\ refused_for_url (Db.embeddings_search rt_no_database v1536 10) fresh.
Proof.
  destruct (X4_no_database_url rt_no_database fresh eq_refl eq_refl)
    as (_ & _ & Hget & _ & _ & Hsearch & _).
  split; [apply Hget | apply Hsearch, v1536_length].
Defined.

(** X5.  [db.documents.create] never inserts a document for a user it
    has not just seen: either no statement is sent (no connection), or
    only the user lookup is sent and the function fails, with "User ...
    does not exist" when the lookup found no row, or the lookup found a
    row and the INSERT of the document follows it, whose answer decides
    the result. *)
Theorem X5_documents_create_guard (rt : runtime) (id u f t : string) (s : Z)
    (x : string) (w : world) :
  (trace (snd (Db.documents_create rt id u f t s x w)) = trace w
   /\ fst (Db.documents_create rt id u f t s x w) = Err database_url_error)
  \/ (exists a,
        trace (snd (Db.documents_create rt id u f t s x w))
        = trace w ++ [Call (SqlSelectUserId u) a]
        /\ match a with
           | Ok [] => fst (Db.documents_create rt id u f t s x w)
                      = Err (Error ("User " ^^ u ^^ " does not exist"))
           | Ok (_ :: _) => False
           | Err e => fst (Db.documents_create rt id u f t s x w) = Err e
           end)
  \/ (exists row rows answer,
        trace (snd (Db.documents_create rt id u f t s x w))
        = trace w
          ++ [Call (SqlSelectUserId u) (Ok (row :: rows));
              Call (SqlInsertDocument id u f t s x) answer]
        /\ fst (Db.documents_create rt id u f t s x w)
           = match answer with
             | Ok inserted => Ok (hd_error inserted)
             | Err e => Err e
             end).
Proof.
  unfold Db.documents_create, Db.getDb, database_url_error.
  run.
  all: repeat match goal with
              | H : (length ?a =? 0) = _ |- _ =>
                  destruct a; cbn in H; try discriminate H; clear H
              end.
  all: first
    [ left; split; reflexivity
    | right; right; eexists _, _, _; split;
      [ rewrite <- app_assoc; reflexivity | reflexivity ]
    | right; left; eexists; split; [reflexivity | reflexivity ] ].
Qed.

Lemma X5_witness :
  fst (Db.documents_create rt_no_user "doc-1" "u1" "notes.txt" "text/plain" 137
         "the sky is blue" fresh)
  = Err (Error "User u1 does not exist")
  /\ existsb child_write
       (trace (snd (Db.documents_create rt_no_user "doc-1" "u1" "notes.txt"
                      "text/plain" 137 "the sky is blue" fresh)))
     = false.
Proof.
  destruct (X5_documents_create_guard rt_no_user "doc-1" "u1" "notes.txt"
              "text/plain" 137 "the sky is blue" fresh)
    as [[_ H] | [(a & Ht & Ha) | (row & rows & answer & Ht & _)]].
  - vm_compute in H. discriminate H.
  - split; reflexivity.
  - apply (f_equal (@length call)) in Ht. vm_compute in Ht. discriminate Ht.
Defined.


(* ================================================================== *)
(** ** Vector dimensions at the stores *)
(* ================================================================== *)


Lemma only_bind_throw Q {A B} (e : js_error) (k : A -> M B) :
  only Q (bind (throw e) k).
Proof. intros w. apply extends_refl. Qed.

(** As [only_tac], with the length of the vector at hand for the calls
    that carry one. *)
Ltac dim_tac :=
  only_tac;
  try (first [apply only_await | apply only_perform]; intro; assumption);
  only_tac.

Lemma dim_getDb rt : only right_dimension (Db.getDb rt).
Proof. unfold Db.getDb. only_tac. Qed.
#[local] Hint Resolve dim_getDb : only_db.

Lemma dim_initializeDatabase rt : only right_dimension (Db.initializeDatabase rt).
Proof. unfold Db.initializeDatabase. only_tac. Qed.

Lemma dim_users_getById rt id : only right_dimension (Db.users_getById rt id).
Proof. unfold Db.users_getById. only_tac. Qed.

Lemma dim_users_upsert rt id email name role :
  only right_dimension (Db.users_upsert rt id email name role).
Proof. unfold Db.users_upsert. only_tac. Qed.

Lemma dim_documents_create rt id u f t s x :
  only right_dimension (Db.documents_create rt id u f t s x).
Proof. unfold Db.documents_create. only_tac. Qed.

Lemma dim_chatMessages_create rt id u r c i :
  only right_dimension (Db.chatMessages_create rt id u r c i).
Proof. unfold Db.chatMessages_create. only_tac. Qed.

Lemma dim_embeddings_create rt id d i c v m :
  only right_dimension (Db.embeddings_create rt id d i c v m).
Proof.
  unfold Db.embeddings_create.
  destruct (Nat.eq_dec (length v) 1536) as [H|H].
  - rewrite (right_length_test v H). dim_tac.
  - rewrite (wrong_length_test v H). only_tac.
Qed.

Lemma dim_embeddings_search rt v k :
  only right_dimension (Db.embeddings_search rt v k).
Proof.
  unfold Db.embeddings_search.
  destruct (Nat.eq_dec (length v) 1536) as [H|H].
  - rewrite (right_length_test v H). dim_tac.
  - rewrite (wrong_length_test v H). only_tac.
Qed.

#[local] Hint Resolve dim_initializeDatabase dim_users_getById dim_users_upsert
  dim_documents_create dim_chatMessages_create dim_embeddings_create
  dim_embeddings_search : only_db.

Lemma dim_initPinecone rt : only right_dimension (Rag.initPinecone rt).
Proof. unfold Rag.initPinecone. only_tac. Qed.

Lemma dim_embedText rt text : only right_dimension (Rag.embedText rt text).
Proof. unfold Rag.embedText. only_tac. Qed.
#[local] Hint Resolve dim_initPinecone dim_embedText : only_db.

Lemma dim_storeEmbedding rt id v md :
  only right_dimension (Rag.storeEmbedding rt id v md).
Proof.
  unfold Rag.storeEmbedding.
  destruct (Nat.eq_dec (length v) 1536) as [H|H].
  - rewrite (right_length_test v H). dim_tac.
  - rewrite (wrong_length_test v H).
    apply only_catch; [apply only_bind_throw | intro; only_tac].
Qed.

Lemma dim_queryEmbeddings rt v k :
  only right_dimension (Rag.queryEmbeddings rt v k).
Proof.
  unfold Rag.queryEmbeddings, Rag.queryEmbeddings_try.
  destruct (Nat.eq_dec (length v) 1536) as [H|H].
  - rewrite (right_length_test v H). dim_tac.
  - rewrite (wrong_length_test v H).
    apply only_catch; [apply only_bind_throw | intro; only_tac].
Qed.
#[local] Hint Resolve dim_storeEmbedding dim_queryEmbeddings : only_db.

Lemma dim_retrieveContext rt q : only right_dimension (Rag.retrieveContext rt q).
Proof. unfold Rag.retrieveContext, Rag.retrieveContext_try. only_tac. Qed.

Lemma dim_ensureUserExists rt u :
  only right_dimension (UploadRoute.ensureUserExists rt u).
Proof. unfold UploadRoute.ensureUserExists. only_tac. Qed.

Lemma dim_process_chunk rt c i chunk :
  only right_dimension (UploadRoute.process_chunk rt c i chunk).
Proof. unfold UploadRoute.process_chunk. only_tac. Qed.
#[local] Hint Resolve dim_retrieveContext dim_ensureUserExists dim_process_chunk
  : only_db.

Lemma dim_chunk_loop rt c chunks : forall i s f,
  only right_dimension (UploadRoute.chunk_loop rt c i chunks s f).
Proof.
  induction chunks as [|chunk rest IH]; intros i s f; cbn [UploadRoute.chunk_loop].
  - only_tac.
  - apply only_bind; [only_tac|]. intros [|]; apply IH.
Qed.
#[local] Hint Resolve dim_chunk_loop : only_db.

(** X6.  Every vector that reaches a store has 1536 numbers: in every
    run of [storeEmbedding], [queryEmbeddings], [retrieveContext] and of
    the two routes, each INSERT into embeddings, each similarity search,
    and each upsert or query of the secondary index carries a vector of
    length 1536, whatever the embedding service and the caller
    supplied. *)
Theorem X6_right_dimension_everywhere (rt : runtime) :
  (forall id v md, only right_dimension (Rag.storeEmbedding rt id v md))
  /\ (forall v k, only right_dimension (Rag.queryEmbeddings rt v k))
  /\ (forall q, only right_dimension (Rag.retrieveContext rt q))
  /\ (forall request, only right_dimension (UploadRoute.POST rt request))
  /\ (forall body, only right_dimension (ChatRoute.POST rt body)).
Proof.
  split; [|split; [|split; [|split]]].
  - intros. apply dim_storeEmbedding.
  - intros. apply dim_queryEmbeddings.
  - intros. apply dim_retrieveContext.
  - intros request. unfold UploadRoute.POST, UploadRoute.prepare. only_tac.
  - intros body. unfold ChatRoute.POST, ChatRoute.turn. only_tac.
Qed.


(* ================================================================== *)
(** ** Metadata and the secondary index *)
(* ================================================================== *)


Section MetadataFacts.
Variable rt : runtime.

Let step (clean : list (string * jsval)) (kv : string * jsval) :=
  match snd kv with
  | JUndefined | JNull => clean
  | JStr _ | JNum _ | JBool _ => clean ++ [kv]
  | value => clean ++ [(fst kv, JStr (JSON_stringify rt value))]
  end.

Lemma cleanMetadata_cons kv entries :
  Rag.cleanMetadata rt (kv :: entries)
  = Rag.cleanMetadata rt [kv] ++ Rag.cleanMetadata rt entries.
Proof.
  unfold Rag.cleanMetadata. cbn [fold_left].
  change (fold_left step entries (step [] kv) = step [] kv ++ fold_left step entries []).
  generalize (step [] kv). intros acc.
  assert (H : forall es a b, fold_left step es (a ++ b) = a ++ fold_left step es b).
  { induction es as [|x es IH]; intros a b; cbn [fold_left]; [reflexivity|].
    replace (step (a ++ b) x) with (a ++ step b x); [apply IH|].
    unfold step. destruct (snd x); rewrite ?app_assoc; reflexivity. }
  rewrite <- (app_nil_r acc) at 1. apply H.
Qed.

Lemma cleanMetadata_flat entries :
  Forall (fun kv => flat_value (snd kv) = true) (Rag.cleanMetadata rt entries).
Proof.
  induction entries as [|[k v] es IH]; [constructor|].
  rewrite cleanMetadata_cons. apply Forall_app. split; [|exact IH].
  destruct v; cbn; repeat constructor.
Qed.

Lemma cleanMetadata_keys entries :
  map fst (Rag.cleanMetadata rt entries)
  = map fst (filter (fun kv => defined_value (snd kv)) entries).
Proof.
  induction entries as [|[k v] es IH]; [reflexivity|].
  rewrite cleanMetadata_cons, map_app, IH.
  destruct v; reflexivity.
Qed.

Lemma cleanMetadata_keeps_flat entries :
  forallb (fun kv => flat_value (snd kv)) entries = true ->
  Rag.cleanMetadata rt entries = entries.
Proof.
  induction entries as [|[k v] es IH]; [reflexivity|].
  cbn [forallb]. intros H. apply andb_true_iff in H. destruct H as [Hv Hes].
  rewrite cleanMetadata_cons, (IH Hes).
  destruct v; try discriminate Hv; reflexivity.
Qed.

End MetadataFacts.

(** X7.  The metadata [storeEmbedding] cleans for the secondary index
    holds strings, numbers and booleans only, under the keys of the
    entries that were neither [undefined] nor [null], in their order.
    The metadata of the upload route passes unchanged, and the record
    written with it, when a query returns it, gives back the text of
    the chunk to the extraction of [retrieveContext]. *)
Theorem X7_cleanMetadata_round_trip (rt : runtime) :
  (forall entries,
      Forall (fun kv => flat_value (snd kv) = true) (Rag.cleanMetadata rt entries)
      /\ map fst (Rag.cleanMetadata rt entries)
         = map fst (filter (fun kv => defined_value (snd kv)) entries))
  /\ (forall md, Rag.cleanMetadata rt (Rag.Object_entries md) = Rag.Object_entries md)
  /\ (forall id score md,
         Rag.extract_content (Rag.Secondary (stored_match rt id score md))
         = Rag.md_content md).
Proof.
  split; [|split].
  - intros entries. split; [apply cleanMetadata_flat | apply cleanMetadata_keys].
  - intros md. apply cleanMetadata_keeps_flat. reflexivity.
  - intros id score md. unfold stored_match.
    rewrite cleanMetadata_keeps_flat by reflexivity.
    unfold Rag.extract_content, Rag.js_or, Rag.content_field, Rag.metadata_field.
    cbn. destruct (Rag.md_content md); reflexivity.
Qed.

Lemma join_filter_one (c : string) :
  join nlnl (filter nonempty [c]) = c.
Proof. destruct c; reflexivity. Qed.

(** X8.  When the matches of a query come from the secondary index,
    [retrieveContext] returns the text of the match if there is exactly
    one, and the empty string if there are two or more: the comparator
    of the re-ranking reads [content], which these matches do not have,
    the TypeError is caught and logged as "Context retrieval error:". *)
Theorem X8_secondary_context (rt : runtime) (query : string) (w w1 w2 : world)
    (v : vector) (ms : list pc_match) :
  is_blank query = false ->
  Rag.embedText rt (rewritten query) w = (Ok v, w1) ->
  Rag.queryEmbeddings rt v 10 w1 = (Ok (map Rag.Secondary ms), w2) ->
  match ms with
  | [] => Rag.retrieveContext rt query w = (Ok "", w2)
  | [m] =>
      Rag.retrieveContext rt query w
      = (Ok (Rag.extract_content (Rag.Secondary m)), w2)
  | _ :: _ :: _ =>
      fst (Rag.retrieveContext rt query w) = Ok ""
      /\ trace (snd (Rag.retrieveContext rt query w)) = trace w2
      /\ console (snd (Rag.retrieveContext rt query w))
         = console w2
           ++ [context_error_line
                 (TypeError "Cannot read properties of undefined (reading 'toLowerCase')")]
  end.
Proof.
  intros Hq He Hs. unfold rewritten in He.
  unfold Rag.retrieveContext, Rag.retrieveContext_try. rewrite Hq. unmonad.
  rewrite He, Hs.
  destruct ms as [|m [|m' ms]].
  - reflexivity.
  - cbn [map Rag.sort Rag.insert length Nat.eqb]. rewrite join_filter_one. reflexivity.
  - rewrite sort_without_content_throws. cbn. auto.
Qed.

Lemma X8_witness :
  fst (Rag.retrieveContext rt_secondary_two "what colour is the sky" fresh) = Ok ""
  /\ fst (Rag.retrieveContext rt_primary_empty "what colour is the sky" fresh)
     = Ok "the sky is blue".
Proof.
  split.
  - pose proof (X8_secondary_context rt_secondary_two "what colour is the sky" fresh
                  (snd (Rag.embedText rt_secondary_two (rewritten "what colour is the sky") fresh))
                  (snd (Rag.queryEmbeddings rt_secondary_two v1536 10
                     (snd (Rag.embedText rt_secondary_two (rewritten "what colour is the sky") fresh))))
                  v1536 [match_sky; match_cats]) as H.
    cbv beta iota in H. apply H; vm_compute; reflexivity.
  - pose proof (X8_secondary_context rt_primary_empty "what colour is the sky" fresh
                  (snd (Rag.embedText rt_primary_empty (rewritten "what colour is the sky") fresh))
                  (snd (Rag.queryEmbeddings rt_primary_empty v1536 10
                     (snd (Rag.embedText rt_primary_empty (rewritten "what colour is the sky") fresh))))
                  v1536 [match_sky]) as H.
    cbv beta iota in H. rewrite H; [reflexivity | vm_compute; reflexivity ..].
Defined.


(* ================================================================== *)
(** ** Phrases and ties in the re-ranking *)
(* ================================================================== *)


Lemma prefix_append p s : prefix p (p ^^ s) = true.
Proof.
  induction p as [|c p IH]; cbn; [destruct s; reflexivity|].
  destruct (ascii_dec c c); [exact IH | contradiction].
Qed.

Lemma prefix_split p s : prefix p s = true -> exists t, s = p ^^ t.
Proof.
  revert s. induction p as [|c p IH]; intros s H.
  - exists s. reflexivity.
  - destruct s as [|d s]; [discriminate|]. cbn in H.
    destruct (ascii_dec c d) as [->|]; [|discriminate].
    destruct (IH s H) as [t ->]. exists t. reflexivity.
Qed.

Lemma includes_prefix p s : prefix p s = true -> includes p s = true.
Proof. intros H. destruct s; cbn [includes]; rewrite H; reflexivity. Qed.

Lemma includes_iff needle hay :
  includes needle hay = true <-> exists pre post, hay = pre ^^ needle ^^ post.
Proof.
  split.
  - induction hay as [|c hay IH]; cbn [includes]; intros H;
      apply orb_true_iff in H; destruct H as [H|H].
    + apply prefix_split in H. destruct H as [t ->]. exists "", t. reflexivity.
    + discriminate.
    + apply prefix_split in H. destruct H as [t ->]. exists "", t. reflexivity.
    + destruct (IH H) as (pre & post & ->). exists (String c pre), post. reflexivity.
  - intros (pre & post & ->). induction pre as [|c pre IH].
    + cbn [String.append]. apply includes_prefix, prefix_append.
    + change (String c pre ^^ needle ^^ post) with (String c (pre ^^ needle ^^ post)).
      cbn [includes]. rewrite IH. apply orb_true_r.
Qed.

Lemma includes_trans a b c :
  includes a b = true -> includes b c = true -> includes a c = true.
Proof.
  intros Hab Hbc. apply includes_iff in Hab. apply includes_iff in Hbc.
  destruct Hab as (p1 & q1 & ->). destruct Hbc as (p2 & q2 & ->).
  apply includes_iff. exists (p2 ^^ p1), (q1 ^^ q2).
  rewrite !append_assoc. reflexivity.
Qed.

Lemma split_head_prefix sep s h t :
  split sep s = h :: t -> exists post, s = h ^^ post.
Proof.
  revert h t. induction s as [|c s IH]; intros h t H.
  - inversion H. exists "". reflexivity.
  - cbn [split] in H. destruct (Ascii.eqb c sep).
    + inversion H. exists (String c s). reflexivity.
    + destruct (split sep s) as [|h' t'] eqn:E.
      * inversion H. exists s. destruct s; [reflexivity|].
        cbn [split] in E. destruct (Ascii.eqb a sep); [discriminate|].
        destruct (split sep s); discriminate.
      * destruct (IH h' t' eq_refl) as [post ->].
        inversion H. exists post. reflexivity.
Qed.

Lemma split_words_included sep s w :
  In w (split sep s) -> includes w s = true.
Proof.
  revert w. induction s as [|c s IH]; intros w H.
  - cbn in H. destruct H as [<-|[]]. reflexivity.
  - cbn [split] in H. destruct (Ascii.eqb c sep).
    + destruct H as [<-|H]; [reflexivity|].
      cbn [includes]. rewrite (IH w H). apply orb_true_r.
    + destruct (split sep s) as [|h t] eqn:E.
      * destruct H as [<-|[]]. apply includes_iff. exists "", s. reflexivity.
      * destruct H as [<-|H].
        -- destruct (split_head_prefix sep s h t E) as [post ->].
           apply includes_iff. exists "", post. reflexivity.
        -- cbn [includes]. rewrite (IH w (or_intror H)). apply orb_true_r.
Qed.

Lemma filter_all {A} (p : A -> bool) (l : list A) :
  (forall x, In x l -> p x = true) -> filter p l = l.
Proof.
  induction l as [|x l IH]; intros H; [reflexivity|].
  cbn [filter]. rewrite (H x (or_introl eq_refl)). f_equal.
  apply IH. intros y Hy. apply H. right. exact Hy.
Qed.

Lemma filter_length_le {A} (p : A -> bool) (l : list A) :
  length (filter p l) <= length l.
Proof.
  induction l as [|x l IH]; [reflexivity|].
  cbn [filter]. destruct (p x); cbn [length]; lia.
Qed.

Lemma matching_words_le a b : matching_words a b <= word_count a.
Proof. apply filter_length_le. Qed.

Lemma matching_words_phrase a b :
  includes a b = true -> matching_words a b = word_count a.
Proof.
  intros H. unfold matching_words, word_count. rewrite filter_all; [reflexivity|].
  intros w Hw. eapply includes_trans; [|exact H].
  apply split_words_included with (sep := SP). exact Hw.
Qed.

Lemma tenths_le (n m : nat) :
  n <= m -> ((1 # 10) * inject_Z (Z.of_nat n) <= (1 # 10) * inject_Z (Z.of_nat m))%Q.
Proof.
  intros H. apply Qmult_le_l; [reflexivity|].
  rewrite <- Zle_Qle. lia.
Qed.

Lemma textSimilarity_bounds a b :
  (0 <= Rag.textSimilarity a b
   /\ Rag.textSimilarity a b
      <= 1 + (1 # 10) * inject_Z (Z.of_nat (word_count (toLowerCase a))))%Q.
Proof.
  rewrite textSimilarity_formula.
  pose proof (tenths_le _ _ (matching_words_le (toLowerCase a) (toLowerCase b))) as Hle.
  pose proof (tenths_le 0 _ (Nat.le_0_l (matching_words (toLowerCase a) (toLowerCase b)))) as H0.
  change (inject_Z (Z.of_nat 0)) with 0%Q in H0.
  destruct (includes (toLowerCase a) (toLowerCase b)); split; lra.
Qed.

Lemma textSimilarity_phrase a b :
  includes (toLowerCase a) (toLowerCase b) = true ->
  (Rag.textSimilarity a b
   == 1 + (1 # 10) * inject_Z (Z.of_nat (word_count (toLowerCase a))))%Q.
Proof.
  intros H. rewrite textSimilarity_formula, H, (matching_words_phrase _ _ H).
  reflexivity.
Qed.

(** X9.  A match whose content contains the whole query (case
    insensitive) has the highest score a match can have for this query,
    1 plus a tenth for each word of the query, since each word of the
    phrase occurs where the phrase does; scores are never negative; so
    such a match is ranked before, or level with, every other match. *)
Theorem X9_phrase_match_ranks_first (query ca : string) (a b : Rag.match_) :
  Rag.content_field a = JStr ca ->
  includes (toLowerCase query) (toLowerCase ca) = true ->
  (score query a == 1 + (1 # 10) * inject_Z (Z.of_nat (word_count (toLowerCase query))))%Q
  /\ (0 <= score query b)%Q
  /\ ranked_before query a b.
Proof.
  intros Ha Hin.
  assert (Hsa : (score query a
                 == 1 + (1 # 10) * inject_Z (Z.of_nat (word_count (toLowerCase query))))%Q).
  { unfold score, Rag.similarity_of. rewrite Ha. apply textSimilarity_phrase, Hin. }
  assert (Hb : (0 <= score query b
                /\ score query b
                   <= 1 + (1 # 10) * inject_Z (Z.of_nat (word_count (toLowerCase query))))%Q).
  { unfold score, Rag.similarity_of. destruct (Rag.content_field b);
      try apply textSimilarity_bounds.
    all: pose proof (tenths_le 0 _ (Nat.le_0_l (word_count (toLowerCase query)))) as H0;
      change (inject_Z (Z.of_nat 0)) with 0%Q in H0; split; lra. }
  split; [exact Hsa|]. split; [apply Hb|].
  unfold ranked_before. rewrite Hsa. apply Hb.
Qed.

Lemma X9_witness :
  ranked_before "Sky Blue" (Rag.Primary
     {| row_id := "c"; row_document_id := "d"; row_content := "A SKY BLUE day";
        row_metadata := JNull; row_similarity := 0.25%float |}) (Rag.Primary row_sky).
Proof.
  eapply (X9_phrase_match_ranks_first "Sky Blue" "A SKY BLUE day"); reflexivity.
Defined.

Section Stable.
Variable query : string.

Lemma compare_ok a b v :
  Rag.compare_matches query a b = Ok v -> v = (score query b - score query a)%Q.
Proof.
  unfold Rag.compare_matches, score.
  destruct (Rag.similarity_of query b); [|discriminate].
  destruct (Rag.similarity_of query a); [|discriminate].
  intros H. inversion H. reflexivity.
Qed.

Lemma insert_stable s x l l' :
  Rag.insert (Rag.compare_matches query) x l = Ok l' ->
  with_score query s l' = with_score query s (x :: l).
Proof.
  revert l'. induction l as [|y ys IH]; intros l' H.
  - inversion H. reflexivity.
  - cbn [Rag.insert] in H.
    destruct (Rag.compare_matches query x y) as [v|] eqn:Hc; [|discriminate].
    apply compare_ok in Hc. subst v.
    destruct (Qle_bool (score query y - score query x) 0) eqn:Hle.
    + inversion H. reflexivity.
    + destruct (Rag.insert (Rag.compare_matches query) x ys) as [r|] eqn:Hr; [|discriminate].
      inversion H. subst l'. specialize (IH r eq_refl).
      unfold with_score in *. cbn [filter] in *. rewrite IH.
      destruct (Qeq_bool (score query x) s) eqn:Hx; [|reflexivity].
      destruct (Qeq_bool (score query y) s) eqn:Hy; [|reflexivity].
      apply Qeq_bool_iff in Hx. apply Qeq_bool_iff in Hy.
      assert (Hq : (score query y - score query x <= 0)%Q) by lra.
      apply Qle_bool_iff in Hq. congruence.
Qed.

End Stable.

(** X10.  The re-ranking is stable: among the matches of equal score
    the order in which [queryEmbeddings] returned them, the order of the
    vector similarity, is kept. *)
Theorem X10_sort_stable (query : string) (s : Q) (l sorted : list Rag.match_) :
  Rag.sort (Rag.compare_matches query) l = Ok sorted ->
  with_score query s sorted = with_score query s l.
Proof.
  revert sorted. induction l as [|x xs IH]; intros sorted H.
  - inversion H. reflexivity.
  - cbn [Rag.sort] in H.
    destruct (Rag.sort (Rag.compare_matches query) xs) as [r|] eqn:Hr; [|discriminate].
    rewrite (insert_stable query s x r sorted H).
    unfold with_score in *. cbn [filter]. rewrite (IH r eq_refl). reflexivity.
Qed.

Lemma X10_witness :
  with_score "blue" (11 # 10)
    [Rag.Primary row_sky; Rag.Primary row_sea; Rag.Primary row_cats]
  = [Rag.Primary row_sky; Rag.Primary row_sea].
Proof.
  rewrite (X10_sort_stable "blue" (11 # 10)
             [Rag.Primary row_cats; Rag.Primary row_sky; Rag.Primary row_sea]
             [Rag.Primary row_sky; Rag.Primary row_sea; Rag.Primary row_cats]);
    reflexivity.
Defined.


(* ================================================================== *)
(** ** The event stream, line by line *)
(* ================================================================== *)


Lemma split_nonempty sep s : split sep s <> [].
Proof.
  destruct s as [|c s]; cbn [split]; [discriminate|].
  destruct (Ascii.eqb c sep); [discriminate|].
  destruct (split sep s); discriminate.
Qed.

Lemma split_at_separator sep a b :
  split sep (a ^^ String sep b) = split sep a ++ split sep b.
Proof.
  induction a as [|c a IH].
  - cbn. rewrite Ascii.eqb_refl. reflexivity.
  - cbn [String.append split]. rewrite IH.
    destruct (Ascii.eqb c sep); [reflexivity|].
    pose proof (split_nonempty sep a) as Hne.
    destruct (split sep a) as [|h t]; [contradiction | reflexivity].
Qed.

Section LineFacts.
Variable rt : runtime.

Lemma handle_line_blank line :
  nonempty (trim line) = false -> ChatRoute.handle_line rt line = [].
Proof.
  intros H. unfold ChatRoute.handle_line.
  destruct (startsWith "data: " line) eqn:E; [|reflexivity].
  apply prefix_split in E. destruct E as [t ->].
  unfold trim in H. cbn [String.append trimStart] in H.
  change (is_space "d") with false in H. cbv iota in H.
  pose proof (trimEnd_keeps "d" ("ata: " ^^ t) eq_refl) as Hk.
  cbn [String.append] in Hk.
  destruct (trimEnd _); [contradiction | discriminate H].
Qed.

Lemma handle_chunk_lines chunk :
  ChatRoute.handle_chunk rt chunk = flat_map (ChatRoute.handle_line rt) (split LF chunk).
Proof.
  unfold ChatRoute.handle_chunk. induction (split LF chunk) as [|l ls IH]; [reflexivity|].
  cbn [filter flat_map]. destruct (nonempty (trim l)) eqn:E.
  - cbn [flat_map]. rewrite IH. reflexivity.
  - rewrite (handle_line_blank l E), IH. reflexivity.
Qed.

Lemma handle_line_events line :
  Forall (route_event rt) (ChatRoute.handle_line rt line)
  /\ length (ChatRoute.handle_line rt line) <= 1.
Proof.
  unfold ChatRoute.handle_line.
  destruct (startsWith "data: " line); [|split; [constructor | cbn; lia]].
  destruct (slice_from 6 line =? "[DONE]")%string.
  { split; [repeat constructor | cbn; lia]. }
  destruct (JSON_parse rt (slice_from 6 line)); [|split; [constructor | cbn; lia]].
  destruct (ChatRoute.delta_of a); [|split; [constructor | cbn; lia]].
  destruct (truthy a0) eqn:E; [|split; [constructor | cbn; lia]].
  split; [|cbn; lia]. constructor; [|constructor].
  right. exists a0. auto.
Qed.

Lemma flat_map_events (lines : list string) :
  Forall (route_event rt) (flat_map (ChatRoute.handle_line rt) lines)
  /\ length (flat_map (ChatRoute.handle_line rt) lines) <= length lines.
Proof.
  induction lines as [|l ls [IH1 IH2]]; [split; [constructor | reflexivity]|].
  cbn [flat_map]. destruct (handle_line_events l) as [H1 H2]. split.
  - apply Forall_app. auto.
  - rewrite length_app. cbn [length]. lia.
Qed.

Lemma stream_start_lines b :
  ChatRoute.stream_start rt (Some b)
  = flat_map (ChatRoute.handle_line rt) (lines_of (reads b)).
Proof.
  unfold ChatRoute.stream_start, lines_of.
  induction (reads b) as [|c cs IH]; [reflexivity|].
  cbn [flat_map]. rewrite IH, handle_chunk_lines, flat_map_app. reflexivity.
Qed.

End LineFacts.

(** X11.  What the chat route enqueues depends on the lines of the
    upstream reads only: it is what the lines, taken one by one, give
    (the filter of blank lines changes nothing, a blank line enqueues
    nothing), and cutting a read in two after a line break gives the
    same events. *)
Theorem X11_stream_is_line_by_line (rt : runtime) :
  (forall b,
      ChatRoute.stream_start rt (Some b)
      = flat_map (ChatRoute.handle_line rt) (lines_of (reads b)))
  /\ (forall a b, ChatRoute.handle_chunk rt (a ^^ nl ^^ b)
                  = ChatRoute.handle_chunk rt a ++ ChatRoute.handle_chunk rt b)
  /\ (forall pre a b post br,
         ChatRoute.stream_start rt
           (Some {| reads := pre ++ [a ^^ nl ^^ b] ++ post; broken := br |})
         = ChatRoute.stream_start rt
             (Some {| reads := pre ++ [a ^^ nl; b] ++ post; broken := br |})).
Proof.
  assert (Hcut : forall a b, ChatRoute.handle_chunk rt (a ^^ nl ^^ b)
                  = ChatRoute.handle_chunk rt a ++ ChatRoute.handle_chunk rt b).
  { intros a b. rewrite !handle_chunk_lines. unfold nl. cbn [String.append].
    rewrite split_at_separator, flat_map_app. reflexivity. }
  split; [apply stream_start_lines|]. split; [exact Hcut|].
  intros pre a b post br.
  assert (Hnl : ChatRoute.handle_chunk rt (a ^^ nl) = ChatRoute.handle_chunk rt a).
  { change (a ^^ nl) with (a ^^ nl ^^ ""). rewrite Hcut. apply app_nil_r. }
  unfold ChatRoute.stream_start. cbn [reads].
  rewrite !flat_map_app. f_equal. f_equal. cbn [flat_map]. rewrite !app_nil_r.
  rewrite Hcut, Hnl. reflexivity.
Qed.

(** X12.  The stream of the chat route holds nothing but the end
    marker and text-delta events of a truthy delta, and at most one
    event for each upstream line. *)
Theorem X12_stream_events (rt : runtime) (body : option upstream_body) :
  Forall (route_event rt) (ChatRoute.stream_start rt body)
  /\ length (ChatRoute.stream_start rt body)
     <= length (lines_of (match body with Some b => reads b | None => [] end)).
Proof.
  destruct body as [b|]; [|split; [constructor | reflexivity]].
  rewrite stream_start_lines. apply flat_map_events.
Qed.


(* ================================================================== *)
(** ** Footprints: the kinds of calls a function issues *)
(* ================================================================== *)


Lemma among_weaken (ks ks' : list call_kind) :
  forallb (has_kind ks') ks = true -> forall c, among ks c -> among ks' c.
Proof.
  unfold among. intros H c Hc. generalize dependent (kind_of c). clear c.
  intros k Hk. unfold has_kind in Hk. apply existsb_exists in Hk.
  destruct Hk as (k' & Hin & Heq). rewrite forallb_forall in H.
  specialize (H k' Hin). apply Nat.eqb_eq in Heq.
  assert (k = k') by (destruct k, k'; cbn in Heq; first [reflexivity | discriminate Heq]).
  subst k'. exact H.
Qed.

(** A computation whose footprint [ks] is known, in a larger one. *)
Ltac footprint_of lemma :=
  eapply only_weaken; [apply among_weaken | apply lemma]; reflexivity.

Lemma kinds_getDb rt : only (among []) (Db.getDb rt).
Proof. unfold Db.getDb. only_tac. Qed.

Ltac kinds_step :=
  lazymatch goal with
  | |- only _ (Db.getDb _) => footprint_of kinds_getDb
  | |- only _ (bind _ _) => apply only_bind; [|intro]
  | |- only _ (catch _ _) => apply only_catch; [|intro]
  | |- only _ (Db.logged _ _) => unfold Db.logged
  | |- only _ (ret _) => apply only_ret
  | |- only _ (throw _) => apply only_throw
  | |- only _ (lift _) => apply only_lift
  | |- only _ (read _) => apply only_read
  | |- only _ (log _ _ _) => apply only_log
  | |- only _ (console_warn _ _) => apply only_console_warn
  | |- only _ (console_error _ _) => apply only_console_error
  | |- only _ set_sql => apply only_set_sql
  | |- only _ (set_pineconeClient _) => apply only_set_pineconeClient
  | |- only _ (perform _ _) => apply only_perform; intro; reflexivity
  | |- only _ (await _ _) => apply only_await; intro; reflexivity
  | |- only _ (match ?x with _ => _ end) => destruct x
  | |- only _ (let _ := _ in _) => cbv zeta
  end.

Lemma kinds_initializeDatabase rt : only (among [Schema]) (Db.initializeDatabase rt).
Proof. unfold Db.initializeDatabase. repeat kinds_step. Qed.

Lemma kinds_users_getById rt id : only (among [UserRead]) (Db.users_getById rt id).
Proof. unfold Db.users_getById. repeat kinds_step. Qed.

Lemma kinds_users_upsert rt id email name role :
  only (among [UserWrite]) (Db.users_upsert rt id email name role).
Proof. unfold Db.users_upsert. repeat kinds_step. Qed.

Lemma kinds_documents_create rt id u f t s x :
  only (among [UserRead; DocumentWrite]) (Db.documents_create rt id u f t s x).
Proof. unfold Db.documents_create. repeat kinds_step. Qed.

Lemma kinds_embeddings_create rt id d i c v m :
  only (among [EmbeddingWrite]) (Db.embeddings_create rt id d i c v m).
Proof. unfold Db.embeddings_create. repeat kinds_step. Qed.

Lemma kinds_embeddings_search rt v k :
  only (among [VectorSearch]) (Db.embeddings_search rt v k).
Proof. unfold Db.embeddings_search. repeat kinds_step. Qed.

Lemma kinds_chatMessages_create rt id u r c i :
  only (among [MessageWrite]) (Db.chatMessages_create rt id u r c i).
Proof. unfold Db.chatMessages_create. repeat kinds_step. Qed.

Lemma kinds_initPinecone rt : only (among [IndexInit]) (Rag.initPinecone rt).
Proof. unfold Rag.initPinecone. repeat kinds_step. Qed.

Lemma kinds_embedText rt text : only (among [Embedding]) (Rag.embedText rt text).
Proof. unfold Rag.embedText. repeat kinds_step. Qed.

Ltac kinds_tac :=
  repeat first
    [ lazymatch goal with
      | |- only _ (Db.initializeDatabase _) => footprint_of kinds_initializeDatabase
      | |- only _ (Db.users_getById _ _) => footprint_of kinds_users_getById
      | |- only _ (Db.users_upsert _ _ _ _ _) => footprint_of kinds_users_upsert
      | |- only _ (Db.documents_create _ _ _ _ _ _ _) => footprint_of kinds_documents_create
      | |- only _ (Db.embeddings_create _ _ _ _ _ _ _) => footprint_of kinds_embeddings_create
      | |- only _ (Db.embeddings_search _ _ _) => footprint_of kinds_embeddings_search
      | |- only _ (Db.chatMessages_create _ _ _ _ _ _) => footprint_of kinds_chatMessages_create
      | |- only _ (Rag.initPinecone _) => footprint_of kinds_initPinecone
      | |- only _ (Rag.embedText _ _) => footprint_of kinds_embedText
      end
    | kinds_step ].

Lemma kinds_storeEmbedding rt id v md :
  only (among [EmbeddingWrite; IndexInit; IndexWrite]) (Rag.storeEmbedding rt id v md).
Proof. unfold Rag.storeEmbedding. kinds_tac. Qed.

Lemma kinds_queryEmbeddings rt v k :
  only (among [VectorSearch; IndexInit; IndexQuery]) (Rag.queryEmbeddings rt v k).
Proof. unfold Rag.queryEmbeddings, Rag.queryEmbeddings_try. kinds_tac. Qed.

Lemma kinds_retrieveContext rt q :
  only (among retrieval_kinds) (Rag.retrieveContext rt q).
Proof.
  unfold Rag.retrieveContext, Rag.retrieveContext_try.
  kinds_tac. footprint_of kinds_queryEmbeddings.
Qed.

Lemma kinds_ensureUserExists rt u :
  only (among [UserRead; UserWrite]) (UploadRoute.ensureUserExists rt u).
Proof. unfold UploadRoute.ensureUserExists. kinds_tac. Qed.

Lemma kinds_process_chunk rt c i chunk :
  only (among [Embedding; Clock; EmbeddingWrite; IndexInit; IndexWrite])
       (UploadRoute.process_chunk rt c i chunk).
Proof.
  unfold UploadRoute.process_chunk. kinds_tac. footprint_of kinds_storeEmbedding.
Qed.

Lemma kinds_chunk_loop rt c chunks : forall i s f,
  only (among [Embedding; Clock; EmbeddingWrite; IndexInit; IndexWrite])
       (UploadRoute.chunk_loop rt c i chunks s f).
Proof.
  induction chunks as [|chunk rest IH]; intros i s f; cbn [UploadRoute.chunk_loop].
  - apply only_ret.
  - apply only_bind; [apply kinds_process_chunk|]. intros [|]; apply IH.
Qed.

Lemma kinds_prepare rt request :
  only (among [Schema; UserRead; UserWrite; FileProcessing; Clock; DocumentWrite])
       (UploadRoute.prepare rt request).
Proof.
  unfold UploadRoute.prepare. kinds_tac. footprint_of kinds_ensureUserExists.
Qed.

Lemma kinds_upload_POST rt request :
  only (among upload_kinds) (UploadRoute.POST rt request).
Proof.
  unfold UploadRoute.POST. apply only_catch; [|intro; kinds_tac].
  apply only_bind; [footprint_of kinds_prepare|].
  intros [response|c]; [apply only_ret|].
  apply only_bind; [footprint_of kinds_chunk_loop | intro; apply only_ret].
Qed.

Lemma kinds_chat_POST rt body :
  only (among chat_kinds) (ChatRoute.POST rt body).
Proof.
  unfold ChatRoute.POST, ChatRoute.turn. kinds_tac. all: footprint_of kinds_retrieveContext.
Qed.

(** X13.  The kinds of calls each function can make.  [embedText] calls
    the embedding service only; [storeEmbedding] writes embeddings rows
    and the secondary index; [queryEmbeddings] and [retrieveContext]
    only read (search, index query, embedding request); the chat route
    never writes a document or an embedding and never calls a file
    processor; the upload route never calls the completion service,
    never searches, and never writes a chat message. *)
Theorem X13_footprints (rt : runtime) :
  (forall text, only (among [Embedding]) (Rag.embedText rt text))
  /\ (forall id v md,
         only (among [EmbeddingWrite; IndexInit; IndexWrite])
              (Rag.storeEmbedding rt id v md))
  /\ (forall v k, only (among [VectorSearch; IndexInit; IndexQuery])
                       (Rag.queryEmbeddings rt v k))
  /\ (forall q, only (among retrieval_kinds) (Rag.retrieveContext rt q))
  /\ (forall body, only (among chat_kinds) (ChatRoute.POST rt body))
  /\ (forall request, only (among upload_kinds) (UploadRoute.POST rt request)).
Proof.
  repeat split; intros.
  - apply kinds_embedText.
  - apply kinds_storeEmbedding.
  - apply kinds_queryEmbeddings.
  - apply kinds_retrieveContext.
  - apply kinds_chat_POST.
  - apply kinds_upload_POST.
Qed.


(* ================================================================== *)
(** ** What the chat route answers *)
(* ================================================================== *)


Section ChatAnswer.
Variable rt : runtime.




End ChatAnswer.



(** X15.  The chat route answers every request.  A body that cannot be
    read, and a body without [messages] (whatever its user id: the
    route reads [messages.length] before it looks at [userId]), give
    500 "Error processing chat request" without a call, the error
    logged as "Chat API error:"; a body with [messages] and without
    user id gives 401 "Unauthorized" with nothing called and nothing
    logged; and no error leaves the handler.  So the body [{}] is
    answered 500, not 401. *)
Theorem X15_chat_early_answers (rt : runtime) (w : world) :
  (forall e,
      ChatRoute.POST rt (Err e) w
      = (Ok (ChatRoute.ChatError 500 "Error processing chat request"),
         snd (console_error "Chat API error:" e w)))
  /\ (forall json,
        ChatRoute.json_messages json = None ->
        ChatRoute.POST rt (Ok json) w
        = (Ok (ChatRoute.ChatError 500 "Error processing chat request"),
           snd (console_error "Chat API error:" no_messages_error w)))
  /\ (forall json ms,
        ChatRoute.json_messages json = Some ms ->
        if_truthy (ChatRoute.json_userId json) = None ->
        ChatRoute.POST rt (Ok json) w
        = (Ok (ChatRoute.ChatError 401 "Unauthorized"), w))
  /\ (forall json, exists response, fst (ChatRoute.POST rt json w) = Ok response)
  /\ ChatRoute.POST rt (Ok empty_json) fresh
     = (Ok (ChatRoute.ChatError 500 "Error processing chat request"),
        {| trace := []; console := [chat_error_line no_messages_error];
           pineconeClient := None; sql := false |}).
Proof.
  split; [|split; [|split; [|split]]].
  - intros e. reflexivity.
  - intros json H. unfold ChatRoute.POST, ChatRoute.body_of. rewrite H. reflexivity.
  - intros json ms Hm H. unfold ChatRoute.POST, ChatRoute.body_of. rewrite Hm.
    unfold ChatRoute.turn. rewrite catch_run, bind_run. cbn [lift ChatRoute.userId].
    rewrite H. reflexivity.
  - intros json. unfold ChatRoute.POST, ChatRoute.turn. rewrite catch_run.
    match goal with |- context [match ?c with _ => _ end] => destruct c as [[r|e] w1] end;
      eexists; reflexivity.
  - reflexivity.
Qed.


(* ================================================================== *)
(** ** What the upload route answers *)
(* ================================================================== *)


Section Yields.
Context (Q : call -> Prop).

Lemma yields_ret {A} (S : result A -> Prop) (a : A) :
  S (Ok a) -> yields Q S (ret a).
Proof. intros H w. split; [apply extends_refl | exact H]. Qed.

Lemma yields_bind {A B} (S : result B -> Prop) (T : result A -> Prop)
    (c : M A) (k : A -> M B) :
  yields Q T c -> (forall a, T (Ok a) -> yields Q S (k a)) ->
  (forall e, S (Err e)) ->
  yields Q S (bind c k).
Proof.
  intros Hc Hk He w. destruct (Hc w) as [H1 H2]. rewrite bind_run.
  destruct (c w) as [[a|e] w1]; cbn [fst snd] in *.
  - destruct (Hk a H2 w1) as [H3 H4]. split; [eapply extends_trans; eauto | exact H4].
  - split; [exact H1 | apply He].
Qed.

Lemma yields_only {A} (c : M A) : only Q c -> yields Q (fun _ => True) c.
Proof. intros H w. split; [apply H | exact I]. Qed.

Lemma yields_weaken {A} (S T : result A -> Prop) (c : M A) :
  yields Q T c -> (forall r, T r -> S r) -> yields Q S c.
Proof. intros H HS w. destruct (H w). split; auto. Qed.

Lemma yields_catch {A} (S T : result A -> Prop) (c : M A) (h : js_error -> M A) :
  yields Q T c -> (forall a, T (Ok a) -> S (Ok a)) -> (forall e, yields Q S (h e)) ->
  yields Q S (catch c h).
Proof.
  intros Hc Ha Hh w. destruct (Hc w) as [H1 H2]. rewrite catch_run.
  destruct (c w) as [[a|e] w1]; cbn [fst snd] in *.
  - split; [exact H1 | apply Ha, H2].
  - destruct (Hh e w1) as [H3 H4]. split; [eapply extends_trans; eauto | exact H4].
Qed.

Lemma yields_lift_ok {A B} (S : result B -> Prop) (a : A) (k : A -> M B) :
  yields Q S (k a) -> yields Q S (bind (lift (Ok a)) k).
Proof. intros H. exact H. Qed.

Lemma yields_log {A} (S : result A -> Prop) lv lbl dtl (c : M A) :
  yields Q S c -> yields Q S (bind (log lv lbl dtl) (fun _ => c)).
Proof.
  intros H w. rewrite bind_run.
  pose proof (only_log Q lv lbl dtl w) as He.
  destruct (log lv lbl dtl w) as [[[]|e'] w1] eqn:E; [|discriminate E].
  destruct (H w1) as [H1 H2]. split; [eapply extends_trans; eauto | exact H2].
Qed.

Lemma yields_console_error {A} (S : result A -> Prop) lbl e (c : M A) :
  yields Q S c -> yields Q S (bind (console_error lbl e) (fun _ => c)).
Proof. apply yields_log. Qed.

End Yields.



Section Gate.
Variable rt : runtime.
Variables (form : UploadRoute.form) (f : UploadRoute.file) (u : string).
Hypothesis Hf : UploadRoute.form_file form = Some f.
Hypothesis Hu : if_truthy (UploadRoute.form_userId form) = Some u.

Let early (r : result (UploadRoute.upload_response + UploadRoute.ingest)) : Prop :=
  match r with
  | Ok (inl response) => is_document_response response = false
  | Ok (inr _) => False
  | Err _ => True
  end.

Let refused (r : result (UploadRoute.upload_response + UploadRoute.ingest)) : Prop :=
  match r with
  | Ok (inl response) => is_error_response response = true
  | Ok (inr _) => False
  | Err _ => True
  end.

Let checked (r : result (UploadRoute.upload_response + string)) : Prop :=
  match r with
  | Ok (inl response) => is_error_response response = true
  | _ => True
  end.

Let unread (r : result (UploadRoute.upload_response + string)) : Prop :=
  match r with
  | Ok (inl response) => is_error_response response = true
  | Ok (inr _) => False
  | Err _ => True
  end.

Ltac quiet_bind := eapply yields_bind; [apply yields_only | intros ? _ | exact (fun _ => I)].

(** Steps 1 and 2, up to the test of the file type. *)
Lemma prepare_gate (ks : list call_kind) S
    (k : string -> M (UploadRoute.upload_response + UploadRoute.ingest)) :
  forallb (has_kind ks) [Schema; UserRead; UserWrite] = true ->
  (forall r, refused r -> S r) ->
  (forall finalUserId, yields (among ks) S (k finalUserId)) ->
  yields (among ks) S
    (initialized <-
       catch (Db.initializeDatabase rt ;; ret true)
             (fun initError => console_error "Database init error:" initError ;; ret false) ;;
     if negb initialized
     then ret (inl (UploadRoute.UploadError 500 "Database initialization failed" None None))
     else
       ensured <-
         catch (finalUserId <- UploadRoute.ensureUserExists rt u ;; ret (inr finalUserId))
               (fun userError =>
                  console_error "User creation failed:" userError ;;
                  ret (inl (UploadRoute.UploadError 500 "Failed to create user record"
                              (Some (error_text userError)) None))) ;;
       match ensured with
       | inl response => ret (inl response)
       | inr finalUserId => k finalUserId
       end).
Proof.
  intros Hks HS Hk.
  assert (Hw : forall c, among [Schema; UserRead; UserWrite] c -> among ks c)
    by (apply among_weaken; exact Hks).
  assert (HE : forall e, S (Err e)) by (intros e; apply HS; exact I).
  eapply yields_bind; [apply yields_only | intros initialized _ | exact HE].
  { eapply only_weaken; [exact Hw|]. kinds_tac. }
  destruct (negb initialized); [apply yields_ret, HS; reflexivity|].
  eapply yields_bind with (T := checked); [ | | exact HE].
  - eapply yields_catch with (T := checked).
    + eapply yields_bind; [apply yields_only | intros ? _ | exact (fun _ => I)].
      * eapply only_weaken; [exact Hw|]. footprint_of kinds_ensureUserExists.
      * apply yields_ret. exact I.
    + auto.
    + intros e. eapply yields_bind; [apply yields_only | intros ? _ | exact (fun _ => I)].
      * apply only_console_error.
      * apply yields_ret. reflexivity.
  - intros [response|finalUserId] Hc; [|apply Hk].
    apply yields_ret, HS. exact Hc.
Qed.

Lemma prepare_image :
  is_image (UploadRoute.file_type f) = true ->
  yields (among [Schema; UserRead; UserWrite; FileProcessing]) early
         (UploadRoute.prepare rt (Ok form)).
Proof.
  intros Himg. unfold UploadRoute.prepare. apply yields_lift_ok. rewrite Hf, Hu.
  apply prepare_gate; [reflexivity | |].
  { intros [[r|]|]; cbn; auto. destruct r; cbn; congruence. }
  intros finalUserId. cbv zeta. unfold is_image in Himg. rewrite Himg.
  apply yields_catch with (T := early).
  - quiet_bind; [kinds_tac|]. apply yields_ret. reflexivity.
  - auto.
  - intros e. quiet_bind; [kinds_tac|]. apply yields_ret. reflexivity.
Qed.

Lemma prepare_unsupported :
  is_image (UploadRoute.file_type f) = false ->
  UploadRoute.includes_type UploadRoute.SUPPORTED_DOC_TYPES (UploadRoute.file_type f) = false ->
  yields (among [Schema; UserRead; UserWrite]) refused
         (UploadRoute.prepare rt (Ok form)).
Proof.
  intros Himg Hdoc. unfold UploadRoute.prepare. apply yields_lift_ok. rewrite Hf, Hu.
  apply prepare_gate; [reflexivity | auto |].
  intros finalUserId. cbv zeta. unfold is_image in Himg. rewrite Himg.
  unfold UploadRoute.includes_type, UploadRoute.SUPPORTED_DOC_TYPES in Hdoc.
  cbn [existsb] in Hdoc.
  repeat (apply orb_false_iff in Hdoc; destruct Hdoc as [?E Hdoc]).
  rewrite E, E0, E1, E2. cbn [orb].
  eapply yields_bind with (T := unread).
  - apply yields_catch with (T := unread).
    + apply yields_ret. reflexivity.
    + auto.
    + intros e. quiet_bind; [kinds_tac|]. apply yields_ret. reflexivity.
  - intros [response|text] H; [|contradiction]. apply yields_ret. exact H.
  - exact (fun _ => I).
Qed.

Lemma POST_of_prepare (ks : list call_kind) (S : UploadRoute.upload_response -> bool) :
  yields (among ks)
         (fun r => match r with
                   | Ok (inl response) => S response = true
                   | Ok (inr _) => False
                   | Err _ => True
                   end)
         (UploadRoute.prepare rt (Ok form)) ->
  (forall d, S (UploadRoute.UploadError 500 "Failed to process file" d None) = true) ->
  forall w,
    extends (among ks) w (snd (UploadRoute.POST rt (Ok form) w))
    /\ exists response,
         fst (UploadRoute.POST rt (Ok form) w) = Ok response /\ S response = true.
Proof.
  intros Hp Hs w.
  assert (H : yields (among ks)
                (fun r => exists response, r = Ok response /\ S response = true)
                (UploadRoute.POST rt (Ok form))).
  { unfold UploadRoute.POST.
    apply yields_catch with
      (T := fun r => match r with Ok response => S response = true | Err _ => True end).
    - eapply yields_bind; [exact Hp | | exact (fun _ => I)].
      intros [response|c] H; [|contradiction]. apply yields_ret. exact H.
    - intros a Ha. eauto.
    - intros e. apply yields_console_error. apply yields_ret. eauto. }
  apply H.
Qed.

End Gate.



(** X16.  The upload route answers every request: a form that cannot be
    read gives 500 with the error as details; a form without file gives
    400 "No file provided" whether or not it has a user id; a file
    without user id gives 401; in these cases nothing is called. *)
Theorem X16_upload_early_answers (rt : runtime) (w : world) :
  (forall e,
      UploadRoute.POST rt (Err e) w
      = (Ok (UploadRoute.UploadError 500 "Failed to process file"
               (Some (error_text e)) None),
         snd (console_error "Upload error:" e w)))
  /\ (forall form,
         UploadRoute.form_file form = None ->
         UploadRoute.POST rt (Ok form) w
         = (Ok (UploadRoute.UploadError 400 "No file provided" None None), w))
  /\ (forall form f,
         UploadRoute.form_file form = Some f ->
         if_truthy (UploadRoute.form_userId form) = None ->
         UploadRoute.POST rt (Ok form) w
         = (Ok (UploadRoute.UploadError 401 "User ID is required" None None), w))
  /\ (forall request, exists response, fst (UploadRoute.POST rt request w) = Ok response).
Proof.
  split; [|split; [|split]].
  - intros e. reflexivity.
  - intros form H. unfold UploadRoute.POST, UploadRoute.prepare.
    rewrite catch_run, bind_run, bind_run. cbn [lift]. rewrite H. reflexivity.
  - intros form f Hf Hu. unfold UploadRoute.POST, UploadRoute.prepare.
    rewrite catch_run, bind_run, bind_run. cbn [lift]. rewrite Hf, Hu. reflexivity.
  - intros request. unfold UploadRoute.POST. rewrite catch_run.
    match goal with |- context [match ?c with _ => _ end] => destruct c as [[r|e] w1] end;
      eexists; reflexivity.
Qed.


(* ================================================================== *)
(** ** The rows of the chunks *)
(* ================================================================== *)


Section ChunkFacts.
Variable rt : runtime.
Variable c : UploadRoute.ingest.

Ltac chunk_leaf :=
  first [ apply only_perform | apply only_await ]; intro; cbn;
  rewrite ?cleanMetadata_keeps_flat by reflexivity; cbn; auto 10.

Ltac chunk_step :=
  lazymatch goal with
  | |- only _ (Db.getDb _) => eapply only_weaken; [|apply kinds_getDb]; intros ? H; discriminate H
  | |- only _ (Rag.initPinecone _) =>
      eapply only_weaken; [|apply kinds_initPinecone];
      intros [? [] ?] H; first [exact I | discriminate H]
  | |- only _ (Rag.embedText _ _) =>
      eapply only_weaken; [|apply kinds_embedText];
      intros [? [] ?] H; first [exact I | discriminate H]
  | |- only _ (perform _ _) => chunk_leaf
  | |- only _ (await _ _) => chunk_leaf
  | _ => kinds_step
  end.

Lemma writes_process_chunk i chunk :
  only (writes_chunk c i chunk) (UploadRoute.process_chunk rt c i chunk).
Proof.
  unfold UploadRoute.process_chunk, Rag.storeEmbedding, Db.embeddings_create.
  repeat chunk_step.
Qed.

Lemma writes_chunk_loop chunks : forall from s f,
  only (writes_chunk_of c from chunks) (UploadRoute.chunk_loop rt c from chunks s f).
Proof.
  induction chunks as [|chunk rest IH]; intros from s f; cbn [UploadRoute.chunk_loop].
  - apply only_ret.
  - apply only_bind.
    + eapply only_weaken; [|apply writes_process_chunk].
      intros x Hx. exists 0, chunk. rewrite Nat.add_0_r. split; [reflexivity | exact Hx].
    + assert (Hw : forall x, writes_chunk_of c (S from) rest x
                             -> writes_chunk_of c from (chunk :: rest) x).
      { intros x (i & ch & Hn & Hx). exists (S i), ch. split; [exact Hn|].
        rewrite Nat.add_succ_r. exact Hx. }
      intros [|]; (eapply only_weaken; [exact Hw | apply IH]).
Qed.

End ChunkFacts.

(** X19.  Every row and every index record written by the chunk loop of
    an upload belongs to a chunk of the document: for some [i] it has
    the id [documentId-chunk-i], the index [i] and the text of chunk
    [i], rows with the file name and type, records with the document
    and user ids in their metadata. *)
Theorem X19_chunk_rows (rt : runtime) (request : result UploadRoute.form)
    (c : UploadRoute.ingest) (w w1 : world) :
  UploadRoute.prepare rt request w = (Ok (inr c), w1) ->
  exists d,
    trace (snd (UploadRoute.POST rt request w)) = trace w1 ++ d
    /\ Forall (writes_chunk_of c 0 (UploadRoute.in_chunks c)) d.
Proof.
  intros Hp. unfold UploadRoute.POST. rewrite catch_run, bind_run, Hp, bind_run.
  pose proof (writes_chunk_loop rt c (UploadRoute.in_chunks c) 0 0 0 w1) as (d & l & Ht & _ & Hd).
  destruct (chunk_loop_counts rt c (UploadRoute.in_chunks c) 0 0 0 w1)
    as (s & f & w2 & Hl & _).
  rewrite Hl in *. cbn [fst snd ret] in *. exists d. auto.
Qed.

Lemma X19_witness :
  exists d,
    trace (snd (UploadRoute.POST rt_partial (Ok notes_upload) fresh))
    = trace (snd (UploadRoute.prepare rt_partial (Ok notes_upload) fresh)) ++ d
    /\ Forall (writes_chunk_of notes_ingest 0 two_chunks) d.
Proof.
  apply (X19_chunk_rows rt_partial (Ok notes_upload) notes_ingest fresh).
  vm_compute. reflexivity.
Defined.

Section DoubleWrite.
Variable rt : runtime.

Lemma process_chunk_two_writes c i chunk w :
  fst (UploadRoute.process_chunk rt c i chunk w) = Ok true ->
  exists d,
    trace (snd (UploadRoute.process_chunk rt c i chunk w)) = trace w ++ d
    /\ length (filter is_embedding_write d) = 2.
Proof.
  pose proof (kinds_embedText rt chunk w) as (d0 & l0 & Ht0 & _ & Hd0).
  assert (H0 : filter is_embedding_write d0 = []).
  { clear Ht0. induction Hd0 as [|x d Hx _ IH]; [reflexivity|].
    cbn [filter]. rewrite IH. destruct x as [X [] a]; first [reflexivity | discriminate Hx]. }
  revert Ht0.
  unfold UploadRoute.process_chunk, Rag.storeEmbedding, Db.embeddings_create,
    Rag.initPinecone, Db.getDb.
  run; intros Ht0 H; try discriminate H.
  all: cbn [trace record] in *; rewrite Ht0, <- ?app_assoc; cbn [app].
  all: eexists; split; [reflexivity|].
  all: rewrite filter_app, H0; reflexivity.
Qed.

End DoubleWrite.

Lemma stored_once_or_twice d :
  length (filter is_embedding_write d) = 2 ->
  turn_stored d = true ->
  1 <= length (filter row_stored d) <= 2.
Proof.
  intros Hn Hs. split.
  - destruct (turn_stored_last d Hs) as (pre & x & -> & Hx).
    rewrite filter_app, length_app. cbn [filter]. rewrite Hx. cbn. lia.
  - rewrite <- Hn. apply filter_length_sub. exact row_stored_is_write.
Qed.

(** X18.  In the turn of a chunk counted as stored two INSERTs into
    embeddings are sent, the one of [storeEmbedding] and the one of the
    route, both with the id, document, index and text of the chunk; the
    second, the last call of the turn, was accepted; the answer to the
    first is not looked at, so that the row was written once or
    twice. *)
Theorem X18_chunk_sent_twice (rt : runtime) (c : UploadRoute.ingest)
    (i : nat) (chunk : string) (w : world) :
  fst (UploadRoute.process_chunk rt c i chunk w) = Ok true ->
  exists d,
    trace (snd (UploadRoute.process_chunk rt c i chunk w)) = trace w ++ d
    /\ length (filter is_embedding_write d) = 2
    /\ Forall (writes_chunk c i chunk) d
    /\ turn_stored d = true
    /\ 1 <= length (filter row_stored d) <= 2.
Proof.
  intros H. destruct (process_chunk_two_writes rt c i chunk w H) as (d & Ht & Hn).
  exists d. split; [exact Ht|]. split; [exact Hn|].
  assert (Hs : turn_stored d = true).
  { destruct (process_chunk_turn rt c i chunk w) as (d' & Ht' & Hr).
    rewrite Ht in Ht'. apply app_inv_head in Ht'. subst d'.
    rewrite H in Hr. injection Hr as Hr. symmetry. exact Hr. }
  split; [|split; [exact Hs | apply stored_once_or_twice; assumption]].
  destruct (writes_process_chunk rt c i chunk w) as (d' & l & Ht' & _ & Hd).
  rewrite Ht in Ht'. apply app_inv_head in Ht'. subst d'. exact Hd.
Qed.

Lemma X18_witness :
  (exists d,
      trace (snd (UploadRoute.process_chunk rt_calm notes_ingest 1 "The second chunk." fresh))
      = trace fresh ++ d
      /\ length (filter is_embedding_write d) = 2
      /\ Forall (writes_chunk notes_ingest 1 "The second chunk.") d
      /\ turn_stored d = true
      /\ 1 <= length (filter row_stored d) <= 2)
  /\ length (filter row_stored
               (trace (snd (UploadRoute.process_chunk rt_calm notes_ingest 1
                              "The second chunk." fresh)))) = 2
  /\ fst (UploadRoute.process_chunk rt_first_write_fails notes_ingest 1
            "The second chunk." fresh) = Ok true
  /\ length (filter row_stored
               (trace (snd (UploadRoute.process_chunk rt_first_write_fails notes_ingest 1
                              "The second chunk." fresh)))) = 1.
Proof.
  split; [|split; [|split]].
  - apply (X18_chunk_sent_twice rt_calm notes_ingest 1 "The second chunk." fresh).
    vm_compute. reflexivity.
  - vm_compute. reflexivity.
  - vm_compute. reflexivity.
  - vm_compute. reflexivity.
Defined.


(* ================================================================== *)
(** ** The prompt messages of the chat route *)
(* ================================================================== *)


Section UserMessages.
Variable req : ChatRoute.chat_request.

Let f (msg : ChatRoute.chat_message) (index : nat) : prompt_message :=
  let role_ := prompt_role msg in
  if String.eqb role_ "user" && ChatRoute.hasImages (ChatRoute.images req)
     && (S index =? length (ChatRoute.messages req))
  then {| pm_role := role_; pm_content := with_images req msg |}
  else {| pm_role := role_; pm_content := Plain (ChatRoute.content msg) |}.

Lemma userMessages_unfold :
  ChatRoute.userMessages req
  = ChatRoute.mapi f (filter kept (ChatRoute.messages req)).
Proof. reflexivity. Qed.

Lemma mapi_from_length {A B} (g : A -> nat -> B) l : forall i,
  length (ChatRoute.mapi_from i g l) = length l.
Proof. induction l as [|x l IH]; intros i; cbn; [reflexivity | rewrite IH; reflexivity]. Qed.

Lemma mapi_from_roles l : forall i,
  map pm_role (ChatRoute.mapi_from i f l) = map prompt_role l.
Proof.
  induction l as [|x l IH]; intros i; cbn [ChatRoute.mapi_from map]; [reflexivity|].
  rewrite IH. f_equal. unfold f. cbv zeta.
  destruct (_ && _ && _); reflexivity.
Qed.

Lemma mapi_from_plain l n : forall i,
  i + length l < n \/ ChatRoute.hasImages (ChatRoute.images req) = false ->
  length (ChatRoute.messages req) = n ->
  ChatRoute.mapi_from i f l
  = map (fun msg => {| pm_role := prompt_role msg;
                       pm_content := Plain (ChatRoute.content msg) |}) l.
Proof.
  induction l as [|x l IH]; intros i Hi Hn; cbn [ChatRoute.mapi_from map]; [reflexivity|].
  rewrite IH; [ | cbn [length] in Hi; destruct Hi; [left; lia | right; assumption] | exact Hn].
  f_equal. unfold f. cbv zeta. destruct Hi as [Hi| ->].
  - cbn [length] in Hi. rewrite Hn.
    replace (S i =? n) with false by (symmetry; apply Nat.eqb_neq; lia).
    rewrite andb_false_r. reflexivity.
  - rewrite andb_false_r. reflexivity.
Qed.

Lemma filter_length_lt {A} (p : A -> bool) (l : list A) :
  existsb (fun x => negb (p x)) l = true -> length (filter p l) < length l.
Proof.
  induction l as [|x l IH]; [discriminate|].
  cbn [existsb filter]. destruct (p x); cbn [negb orb length].
  - intros H. specialize (IH H). lia.
  - intros _. pose proof (filter_length_le p l). lia.
Qed.

Lemma mapi_from_last (l : list ChatRoute.chat_message) (x : ChatRoute.chat_message) : forall i,
  i + length l + 1 = length (ChatRoute.messages req) ->
  ChatRoute.mapi_from i f (l ++ [x])
  = map (fun msg => {| pm_role := prompt_role msg;
                       pm_content := Plain (ChatRoute.content msg) |}) l
    ++ [f x (i + length l)].
Proof.
  induction l as [|y l IH]; intros i Hi; cbn [ChatRoute.mapi_from map app length] in *.
  - rewrite Nat.add_0_r. reflexivity.
  - rewrite (IH (S i)) by lia.
    replace (i + S (length l)) with (S i + length l) by lia.
    f_equal. unfold f. cbv zeta.
    replace (S i =? length (ChatRoute.messages req)) with false
      by (symmetry; apply Nat.eqb_neq; lia).
    rewrite andb_false_r. reflexivity.
Qed.

End UserMessages.

Lemma userMessages_roles (req : ChatRoute.chat_request) :
  map pm_role (ChatRoute.userMessages req)
  = map prompt_role (filter kept (ChatRoute.messages req)).
Proof. rewrite userMessages_unfold. apply mapi_from_roles. Qed.

Lemma userMessages_plain (req : ChatRoute.chat_request) :
  existsb (fun msg => negb (kept msg)) (ChatRoute.messages req) = true
  \/ ChatRoute.hasImages (ChatRoute.images req) = false ->
  ChatRoute.userMessages req
  = map plain_message (filter kept (ChatRoute.messages req)).
Proof.
  intros H. rewrite userMessages_unfold. unfold ChatRoute.mapi.
  apply mapi_from_plain with (n := length (ChatRoute.messages req)); [|reflexivity].
  destruct H as [H|H]; [left | right; exact H].
  apply filter_length_lt in H. cbn. exact H.
Qed.

Lemma userMessages_last_images (req : ChatRoute.chat_request) earlier msg :
  ChatRoute.messages req = earlier ++ [msg] ->
  forallb kept (ChatRoute.messages req) = true ->
  ChatRoute.hasImages (ChatRoute.images req) = true ->
  prompt_role msg = "user" ->
  ChatRoute.userMessages req
  = map plain_message earlier
    ++ [{| pm_role := "user"; pm_content := with_images req msg |}].
Proof.
  intros Hm Hk Hi Hr. rewrite userMessages_unfold. unfold ChatRoute.mapi.
  rewrite filter_all by (rewrite forallb_forall in Hk; exact Hk).
  pose proof (mapi_from_last req earlier msg 0) as HL. rewrite <- Hm in HL.
  cbv zeta in HL |- *. rewrite HL by (rewrite Hm, length_app; cbn; lia).
  f_equal. cbv zeta. rewrite Hr, Hi, Hm, length_app. cbn [length Nat.add].
  replace (S (length earlier) =? length earlier + 1) with true
    by (symmetry; apply Nat.eqb_eq; lia).
  reflexivity.
Qed.

(** X20.  The prompt messages of the chat route.  Their roles are
    "assistant" or "user" and follow the messages that have a role and
    a content.  When a message is dropped by that filter, or there is no
    image, every prompt message is plain text: the index of the map
    counts in the filtered array and can no longer reach the length of
    the unfiltered one, so no image is sent although the model for
    images is chosen.  When nothing is dropped and the last message is
    a user message, it alone carries the images. *)
Theorem X20_userMessages (req : ChatRoute.chat_request) :
  map pm_role (ChatRoute.userMessages req)
  = map prompt_role (filter kept (ChatRoute.messages req))
  /\ Forall (fun m => pm_role m = "assistant" \/ pm_role m = "user")
            (ChatRoute.userMessages req)
  /\ (existsb (fun msg => negb (kept msg)) (ChatRoute.messages req) = true
      \/ ChatRoute.hasImages (ChatRoute.images req) = false ->
      ChatRoute.userMessages req
      = map plain_message (filter kept (ChatRoute.messages req)))
  /\ (forall earlier msg,
         ChatRoute.messages req = earlier ++ [msg] ->
         forallb kept (ChatRoute.messages req) = true ->
         ChatRoute.hasImages (ChatRoute.images req) = true ->
         prompt_role msg = "user" ->
         ChatRoute.userMessages req
         = map plain_message earlier
           ++ [{| pm_role := "user"; pm_content := with_images req msg |}]).
Proof.
  split; [apply userMessages_roles|]. split; [|split].
  - apply Forall_forall. intros m Hm.
    apply (in_map pm_role) in Hm. rewrite userMessages_roles in Hm.
    apply in_map_iff in Hm. destruct Hm as (msg & <- & _).
    unfold prompt_role. destruct (_ =? _)%string; auto.
  - apply userMessages_plain.
  - apply userMessages_last_images.
Qed.

Lemma X20_witness :
  Forall (fun m => is_plain m = true) (ChatRoute.userMessages image_only_turn)
  /\ ChatRoute.model_for image_only_turn = "google/gemini-flash-1.5".
Proof.
  split; [|reflexivity].
  destruct (X20_userMessages image_only_turn) as (_ & _ & H & _).
  rewrite H by (left; reflexivity). repeat constructor.
Defined.


(* ================================================================== *)
(** ** The client reads the stream of the route *)
(* ================================================================== *)


Section ClientFacts.
Variable rt : runtime.
Variable ToString : jsval -> string.


Lemma read_line_empty c : ChatClient.read_line rt ToString c "" = c.
Proof. reflexivity. Qed.

Lemma read_chunk_cut c a b :
  ChatClient.read_chunk rt ToString c (a ^^ nl ^^ b) = ChatClient.read_chunk rt ToString (ChatClient.read_chunk rt ToString c a) b.
Proof.
  unfold ChatClient.read_chunk, nl. cbn [String.append].
  rewrite split_at_separator, fold_left_app. reflexivity.
Qed.

Lemma read_chunk_line c a : ChatClient.read_chunk rt ToString c (a ^^ nl) = ChatClient.read_chunk rt ToString c a.
Proof.
  change (a ^^ nl) with (a ^^ nl ^^ ""). rewrite read_chunk_cut. reflexivity.
Qed.

(** A chunk made of [a], which ends a line, and [rest]. *)
Lemma read_chunk_after_line c a rest :
  ChatClient.read_chunk rt ToString c ((a ^^ nl) ^^ rest) = ChatClient.read_chunk rt ToString (ChatClient.read_chunk rt ToString c (a ^^ nl)) rest.
Proof. rewrite append_assoc, read_chunk_cut, read_chunk_line. reflexivity. Qed.

Lemma read_chunk_one_line c line :
  no_newline line = true -> ChatClient.read_chunk rt ToString c line = ChatClient.read_line rt ToString c line.
Proof.
  intros H. unfold ChatClient.read_chunk.
  assert (Hs : split LF line = [line]).
  { clear c. induction line as [|x line IH]; [reflexivity|].
    unfold no_newline in *. cbn [list_ascii_of_string forallb] in H.
    apply andb_true_iff in H. destruct H as [Hx Hl].
    cbn [split]. apply negb_true_iff in Hx. rewrite Hx, (IH Hl). reflexivity. }
  rewrite Hs. reflexivity.
Qed.

Lemma read_event c line :
  no_newline line = true ->
  ChatClient.read_chunk rt ToString c (line ^^ nlnl) = ChatClient.read_line rt ToString c line.
Proof.
  intros H. change nlnl with (nl ^^ nl). rewrite <- append_assoc.
  rewrite !read_chunk_line. apply read_chunk_one_line, H.
Qed.

Lemma no_newline_append a b :
  no_newline (a ^^ b) = no_newline a && no_newline b.
Proof.
  unfold no_newline. induction a as [|x a IH]; [reflexivity|].
  cbn [String.append list_ascii_of_string forallb]. rewrite IH, andb_assoc. reflexivity.
Qed.

Lemma read_done c : ChatClient.read_chunk rt ToString c ChatRoute.done_event = c.
Proof. reflexivity. Qed.

Lemma read_text_delta c delta :
  truthy delta = true -> round_trips rt delta ->
  ChatClient.read_chunk rt ToString c (ChatRoute.text_delta_event rt delta) = c ^^ ToString delta.
Proof.
  intros Ht (Hnl & Hdone & Hparse). unfold ChatRoute.text_delta_event.
  fold (event_object delta). rewrite <- append_assoc.
  rewrite read_event by (rewrite no_newline_append, Hnl; reflexivity).
  unfold ChatClient.read_line.
  change (startsWith "data: " ("data: " ^^ ?j)) with (prefix "" j).
  replace (prefix "" (JSON_stringify rt (event_object delta))) with true
    by (destruct (JSON_stringify rt (event_object delta)); reflexivity).
  change (slice_from 6 ("data: " ^^ ?j)) with j. cbv zeta.
  apply String.eqb_neq in Hdone. rewrite Hdone, Hparse.
  cbn. rewrite Ht. reflexivity.
Qed.

Lemma concat_empty_cons x l : String.concat "" (x :: l) = x ^^ String.concat "" l.
Proof.
  destruct l as [|y l]; cbn [String.concat]; [|reflexivity].
  induction x as [|a x IH]; cbn; [reflexivity | rewrite <- IH; reflexivity].
Qed.

Lemma read_chunk_events c evs :
  Forall ends_line evs ->
  ChatClient.read_chunk rt ToString c (String.concat "" evs)
  = fold_left (ChatClient.read_chunk rt ToString) evs c.
Proof.
  intros H. revert c. induction H as [|ev evs [a ->] _ IH]; intros c; [reflexivity|].
  rewrite concat_empty_cons, read_chunk_after_line, IH. reflexivity.
Qed.

Lemma read_groups groups : forall c,
  Forall ends_line (concat groups) ->
  fold_left (ChatClient.read_chunk rt ToString) (map (String.concat "") groups) c
  = fold_left (ChatClient.read_chunk rt ToString) (concat groups) c.
Proof.
  induction groups as [|g groups IH]; intros c H; [reflexivity|].
  cbn [concat map fold_left] in *. apply Forall_app in H. destruct H as [Hg Hr].
  rewrite fold_left_app, read_chunk_events by exact Hg. apply IH, Hr.
Qed.

Lemma read_events deltas : forall c,
  Forall (fun delta => truthy delta = true /\ round_trips rt delta) deltas ->
  fold_left (ChatClient.read_chunk rt ToString)
            (map (ChatRoute.text_delta_event rt) deltas ++ [ChatRoute.done_event]) c
  = c ^^ String.concat "" (map ToString deltas).
Proof.
  induction deltas as [|d ds IH]; intros c H.
  - cbn. clear. induction c as [|x c IH]; cbn; [reflexivity | rewrite <- IH; reflexivity].
  - inversion H as [|? ? [Ht Hr] Hds]; subst.
    cbn [map app fold_left]. rewrite (read_text_delta c d Ht Hr), (IH _ Hds).
    rewrite concat_empty_cons, append_assoc. reflexivity.
Qed.

Lemma events_end_lines deltas :
  Forall ends_line (map (ChatRoute.text_delta_event rt) deltas ++ [ChatRoute.done_event]).
Proof.
  apply Forall_app. split.
  - apply Forall_forall. intros ev Hev. apply in_map_iff in Hev.
    destruct Hev as (d & <- & _). unfold ChatRoute.text_delta_event.
    exists ("data: " ^^ JSON_stringify rt
                          (JObj [("type", JStr "text-delta"); ("delta", JObj [("text", d)])])
            ^^ nl).
    change nlnl with (nl ^^ nl). rewrite !append_assoc. reflexivity.
  - constructor; [|constructor]. exists ("data: [DONE]" ^^ nl). reflexivity.
Qed.

End ClientFacts.

Lemma truthy_texts texts :
  filter truthy (map JStr texts) = map JStr (filter nonempty texts).
Proof.
  induction texts as [|t ts IH]; [reflexivity|].
  cbn [map filter truthy]. destruct (nonempty t); cbn [map]; rewrite IH; reflexivity.
Qed.

Lemma concat_nonempty texts :
  String.concat "" (filter nonempty texts) = String.concat "" texts.
Proof.
  induction texts as [|t ts IH]; [reflexivity|].
  cbn [filter]. destruct t as [|x t].
  - cbn [nonempty String.length Nat.eqb negb]. rewrite IH, concat_empty_cons. reflexivity.
  - cbn [nonempty String.length Nat.eqb negb]. rewrite !concat_empty_cons, IH. reflexivity.
Qed.

(** X21.  From the provider to the screen: when the provider's chunks
    carry the texts [texts], the events of the route reach the client
    grouped in reads at event boundaries, and the two JSON functions
    agree on the events, the text the client has assembled at the end of
    the stream is the concatenation of [texts]: the empty deltas the
    route drops do not change it. *)
Theorem X21_client_text (rt : runtime) (ToString : jsval -> string)
    (chunks texts : list string) (groups : list (list string))
    (br : option js_error) :
  (forall s, ToString (JStr s) = s) ->
  Forall2 (delta_chunk rt) chunks (map JStr texts) ->
  Forall (round_trips rt) (map JStr (filter nonempty texts)) ->
  concat groups
  = ChatRoute.stream_start rt (Some {| reads := chunks ++ [done_chunk]; broken := br |}) ->
  ChatClient.read_stream rt ToString (map (String.concat "") groups)
  = String.concat "" texts.
Proof.
  intros Hs Hc Hr Hg. unfold ChatRoute.stream_start in Hg. cbn [reads] in Hg.
  rewrite (stream_of_deltas rt chunks (map JStr texts) Hc), truthy_texts in Hg.
  unfold ChatClient.read_stream.
  rewrite read_groups by (rewrite Hg; apply events_end_lines).
  rewrite Hg, read_events.
  - cbn [String.append]. rewrite map_map.
    rewrite (map_ext _ (fun s => s)) by exact Hs.
    rewrite map_id. apply concat_nonempty.
  - apply Forall_forall. intros d Hd. split.
    + apply in_map_iff in Hd. destruct Hd as (t & <- & Ht).
      apply filter_In in Ht. apply Ht.
    + rewrite Forall_forall in Hr. apply Hr, Hd.
Qed.

Lemma X21_witness :
  ChatClient.read_stream rt_both_ways string_of_value
    [ ChatRoute.text_delta_event rt_both_ways (JStr "Hel")
      ^^ ChatRoute.text_delta_event rt_both_ways (JStr "lo");
      ChatRoute.done_event ]
  = "Hello".
Proof.
  apply (X21_client_text rt_both_ways string_of_value
           [sse_chunk (delta_payload ""); sse_chunk (delta_payload "Hel");
            sse_chunk (delta_payload "lo")]
           [""; "Hel"; "lo"]
           [[ChatRoute.text_delta_event rt_both_ways (JStr "Hel");
             ChatRoute.text_delta_event rt_both_ways (JStr "lo")];
            [ChatRoute.done_event]]
           None).
  - reflexivity.
  - repeat constructor.
    all: eexists _, _; repeat split; try reflexivity; discriminate.
  - repeat constructor; discriminate.
  - reflexivity.
Defined.


(* ================================================================== *)
(** ** The request and the sessions of the client *)
(* ================================================================== *)


Lemma last_message_snoc l (m : ChatRoute.chat_message) :
  ChatRoute.last_message (l ++ [m]) = Some m.
Proof.
  unfold ChatRoute.last_message. destruct l as [|x l]; [reflexivity|].
  cbn [app]. f_equal. apply last_last.
Qed.

Section RequestFacts.
Variables (isLoaded : bool) (user : option string) (history : list message)
  (now timestamp : Z) (content : string) (attachments : list attachment)
  (req : ChatRoute.chat_request).
Hypothesis Hreq : request_of isLoaded user history now timestamp content attachments = Some req.

Lemma request_shape :
  exists id,
    if_truthy user = Some id
    /\ req = request_body (history ++ [user_message now timestamp content attachments])
               attachments id.
Proof.
  unfold request_of in Hreq.
  destruct (negb (nonempty (trim content)) && (length attachments =? 0)); [discriminate|].
  destruct (negb isLoaded); [discriminate|].
  destruct (if_truthy user) as [id|]; [|discriminate].
  exists id. split; [reflexivity|]. inversion Hreq. reflexivity.
Qed.

Lemma request_user : exists id, if_truthy (ChatRoute.userId req) = Some id.
Proof.
  destruct request_shape as (id & Hid & ->). exists id. cbn.
  unfold if_truthy in Hid. destruct user as [s|]; [|discriminate].
  destruct (String.length s =? 0) eqn:E; [discriminate|]. inversion Hid. subst s.
  unfold if_truthy. rewrite E. reflexivity.
Qed.

Lemma request_last :
  ChatRoute.last_message (ChatRoute.messages req)
  = Some {| ChatRoute.role := "user"; ChatRoute.content := content |}.
Proof.
  destruct request_shape as (id & _ & ->). cbn [request_body ChatRoute.messages].
  rewrite map_app. cbn [map]. apply last_message_snoc.
Qed.

Lemma request_images :
  ChatRoute.hasImages (ChatRoute.images req) = (0 <? length (images_of attachments)).
Proof.
  destruct request_shape as (id & _ & ->). cbn [request_body ChatRoute.images].
  destruct (images_of attachments); reflexivity.
Qed.

Lemma request_image_only :
  content = "" ->
  Forall (fun m => is_plain m = true) (ChatRoute.userMessages req)
  /\ length (ChatRoute.userMessages req) < length (ChatRoute.messages req).
Proof.
  intros Hc.
  assert (Hd : existsb (fun msg => negb (kept msg)) (ChatRoute.messages req) = true).
  { destruct request_shape as (id & _ & ->). cbn [request_body ChatRoute.messages].
    rewrite map_app, existsb_app. cbn. rewrite Hc. cbn. apply orb_true_r. }
  rewrite userMessages_plain by (left; exact Hd). split.
  - apply Forall_forall. intros m Hm. apply in_map_iff in Hm.
    destruct Hm as (msg & <- & _). reflexivity.
  - rewrite length_map. apply filter_length_lt, Hd.
Qed.

End RequestFacts.

(** X22.  A request the client sends carries a user id the route
    accepts, its last message is the user's text with role "user", and
    it has images exactly when an attachment has a base64 text.  When
    the text is empty the message was sent for its attachments, and the
    route then sends no image and not this turn to the completion
    service: every prompt message is plain and the last message is
    dropped. *)
Theorem X22_client_request (isLoaded : bool) (user : option string)
    (history : list message) (now timestamp : Z) (content : string)
    (attachments : list attachment) (req : ChatRoute.chat_request) :
  request_of isLoaded user history now timestamp content attachments = Some req ->
  (exists id, if_truthy (ChatRoute.userId req) = Some id)
  /\ ChatRoute.last_message (ChatRoute.messages req)
     = Some {| ChatRoute.role := "user"; ChatRoute.content := content |}
  /\ ChatRoute.hasImages (ChatRoute.images req) = (0 <? length (images_of attachments))
  /\ (content = "" ->
      0 < length attachments
      /\ Forall (fun m => is_plain m = true) (ChatRoute.userMessages req)
      /\ length (ChatRoute.userMessages req) < length (ChatRoute.messages req)).
Proof.
  intros H. split; [|split; [|split]].
  - eapply request_user, H.
  - eapply request_last, H.
  - eapply request_images, H.
  - intros Hc. split; [|eapply request_image_only; eassumption].
    unfold request_of in H. rewrite Hc in H. cbn [trim trimStart trimEnd nonempty
      String.length Nat.eqb negb andb] in H.
    destruct attachments; [discriminate H | cbn; lia].
Qed.

Lemma X22_witness :
  exists req,
    request_of true (Some "u1") [] 1700000000000 1700000000001 "" [photo] = Some req
    /\ ChatRoute.model_for req = "google/gemini-flash-1.5"
    /\ Forall (fun m => is_plain m = true) (ChatRoute.userMessages req).
Proof.
  eexists. split; [reflexivity|]. split; [reflexivity|].
  eapply (X22_client_request true (Some "u1") [] 1700000000000 1700000000001 "" [photo]);
    reflexivity.
Defined.

Section SessionFacts.
Variables (now : Z) (sessions : list session) (sessionId : string)
  (newMessages : list message).

Lemma updateSession_ids :
  map s_id (updateSession now sessions sessionId newMessages) = map s_id sessions.
Proof.
  unfold updateSession. rewrite map_map. apply map_ext.
  intros s. destruct (s_id s =? sessionId)%string; reflexivity.
Qed.

Lemma updateSession_absent :
  selectSession sessions sessionId = None ->
  updateSession now sessions sessionId newMessages = sessions.
Proof.
  unfold selectSession, updateSession. induction sessions as [|s l IH]; [reflexivity|].
  cbn [find map]. destruct (s_id s =? sessionId)%string; [discriminate|].
  intros H. rewrite (IH H). reflexivity.
Qed.

Lemma updateSession_select id :
  selectSession (updateSession now sessions sessionId newMessages) id
  = match selectSession sessions id with
    | Some s =>
        Some (if String.eqb id sessionId
              then {| s_id := s_id s;
                      s_title := title_of newMessages;
                      s_messages := newMessages;
                      s_createdAt := s_createdAt s;
                      s_updatedAt := now |}
              else s)
    | None => None
    end.
Proof.
  unfold selectSession, updateSession. induction sessions as [|s l IH]; [reflexivity|].
  cbn [find map]. destruct (s_id s =? sessionId)%string eqn:E.
  - cbn [s_id]. destruct (s_id s =? id)%string eqn:E'; [|exact IH].
    apply String.eqb_eq in E, E'. subst. rewrite String.eqb_refl. reflexivity.
  - destruct (s_id s =? id)%string eqn:E'; [|exact IH].
    apply String.eqb_eq in E'. subst id. rewrite E. reflexivity.
Qed.

Lemma title_of_bounds :
  0 < String.length (title_of newMessages) <= 50.
Proof.
  unfold title_of. destruct newMessages as [|m l]; [cbn; lia|]. cbv zeta.
  pose proof (slice_to_length 50 (msg_content m)) as Hle.
  destruct (slice_to 50 (msg_content m)) as [|c t] eqn:E; cbn [nonempty String.length
    Nat.eqb negb]; [cbn; lia|]. cbn [String.length] in *. lia.
Qed.

Lemma deleteSession_select id :
  selectSession (deleteSession sessions sessionId) id
  = if String.eqb id sessionId then None else selectSession sessions id.
Proof.
  unfold selectSession, deleteSession. induction sessions as [|s l IH].
  - cbn. destruct (id =? sessionId)%string; reflexivity.
  - cbn [filter find]. destruct (s_id s =? sessionId)%string eqn:E; cbn [negb].
    + rewrite IH. destruct (id =? sessionId)%string eqn:E'; [reflexivity|].
      destruct (s_id s =? id)%string eqn:E''; [|reflexivity].
      apply String.eqb_eq in E, E''. subst. rewrite String.eqb_refl in E'. discriminate.
    + cbn [find]. destruct (s_id s =? id)%string eqn:E''.
      * apply String.eqb_eq in E''. subst id. rewrite E. reflexivity.
      * exact IH.
Qed.

End SessionFacts.

(** X23.  The session list of the client.  [updateSession] keeps the
    ids and their order and changes the session of the given id only,
    giving it the messages and a title of 1 to 50 characters;
    [deleteSession] removes the sessions of the given id and no
    other. *)
Theorem X23_sessions (now : Z) (sessions : list session) (sessionId : string)
    (newMessages : list message) :
  map s_id (updateSession now sessions sessionId newMessages) = map s_id sessions
  /\ (forall id,
         selectSession (updateSession now sessions sessionId newMessages) id
         = match selectSession sessions id with
           | Some s =>
               Some (if String.eqb id sessionId
                     then {| s_id := s_id s;
                             s_title := title_of newMessages;
                             s_messages := newMessages;
                             s_createdAt := s_createdAt s;
                             s_updatedAt := now |}
                     else s)
           | None => None
           end)
  /\ 0 < String.length (title_of newMessages) <= 50
  /\ (forall id,
         selectSession (deleteSession sessions sessionId) id
         = if String.eqb id sessionId then None else selectSession sessions id).
Proof.
  split; [apply updateSession_ids|]. split; [apply updateSession_select|].
  split; [apply title_of_bounds | apply deleteSession_select].
Qed.

(** X24.  A session made by sending a message is lost: when there is no
    current session, [handleSendMessage] makes one with a new id, but
    the session list it leaves is the one of [updateSession] over the
    list it closed over, which has no session of that id, so the list
    is unchanged and the new id, now the current session, selects
    nothing. *)
Theorem X24_new_session_is_lost (sessions : list session) (now updatedAt : Z)
    (currentSessionId : option string) (finalMessages : list message) :
  if_truthy currentSessionId = None ->
  selectSession sessions (string_of_Z now) = None ->
  sessions_after_send sessions currentSessionId now updatedAt finalMessages = sessions
  /\ selectSession
       (sessions_after_send sessions currentSessionId now updatedAt finalMessages)
       (session_for_send currentSessionId now)
     = None.
Proof.
  intros Hc Hs. unfold sessions_after_send, session_for_send. rewrite Hc.
  rewrite updateSession_absent by exact Hs. auto.
Qed.

Lemma X24_witness :
  sessions_after_send [earlier_chat] None 1700000000000 1700000000500
    [user_message 1700000000000 1700000000001 "What colour is the sky?" []]
  = [earlier_chat].
Proof.
  apply (X24_new_session_is_lost [earlier_chat] 1700000000000 1700000000500 None);
    reflexivity.
Defined.


(* ================================================================== *)
(** ** File names: src/lib/utils.ts *)
(* ================================================================== *)


Lemma lower_char_idem c : lower_char (lower_char c) = lower_char c.
Proof. destruct c as [[] [] [] [] [] [] [] []]; reflexivity. Qed.

Lemma toLowerCase_idem s : toLowerCase (toLowerCase s) = toLowerCase s.
Proof.
  induction s as [|c s IH]; [reflexivity|].
  cbn [toLowerCase]. rewrite lower_char_idem, IH. reflexivity.
Qed.

Lemma extension_lower fileName :
  toLowerCase (Utils.extension fileName) = Utils.extension fileName.
Proof. apply toLowerCase_idem. Qed.

Ltac by_extension ext :=
  repeat match goal with
         | |- context [String.eqb ext ?k] =>
             destruct (String.eqb_spec ext k) as [->|?]
         end.

(** X25.  File names in utils.ts and types in the upload route.  No
    name is both an image and a document; for an image name
    [getMimeType] gives a type the route handles as an image, for a
    document name a type the route accepts as a document; for any other
    name it gives "application/octet-stream", except for the extensions
    "constructor" and "__proto__", where the lookup in the object
    literal finds an inherited member and the function returns that
    object instead of a string. *)
Theorem X25_file_kinds (fileName : string) :
  (Utils.isImageFile fileName && Utils.isDocumentFile fileName = false)
  /\ (Utils.isImageFile fileName = true ->
      exists type_, Utils.getMimeType fileName = Utils.MimeType type_
                    /\ is_image type_ = true)
  /\ (Utils.isDocumentFile fileName = true ->
      exists type_, Utils.getMimeType fileName = Utils.MimeType type_
                    /\ is_image type_ = false
                    /\ UploadRoute.includes_type UploadRoute.SUPPORTED_DOC_TYPES type_ = true)
  /\ (Utils.isImageFile fileName = false -> Utils.isDocumentFile fileName = false ->
      match Utils.getMimeType fileName with
      | Utils.MimeType type_ =>
          type_ = "application/octet-stream"
      | Utils.Inherited member =>
          member = Utils.extension fileName
          /\ (member = "constructor" \/ member = "__proto__")
      end).
Proof.
  pose proof (extension_lower fileName) as Hl. revert Hl.
  unfold Utils.isImageFile, Utils.isDocumentFile, Utils.getMimeType.
  cbv zeta. generalize (Utils.extension fileName). intros ext.
  unfold Utils.imageExtensions, Utils.docExtensions, Utils.mimeTypes,
    Utils.Object_prototype.
  cbn [existsb Utils.own].
  by_extension ext; intros Hl; cbn; repeat split; try discriminate;
    try (intros; discriminate); try (eexists; repeat split; reflexivity);
    try (intros; eexists; repeat split; reflexivity); auto.
Qed.


(* ================================================================== *)
(** ** An upload, as the client sees it *)
(* ================================================================== *)


Section ClientUpload.
Variable rt : runtime.
Variables (form : UploadRoute.form) (f : UploadRoute.file) (u : string).
Hypothesis Hf : UploadRoute.form_file form = Some f.
Hypothesis Hu : if_truthy (UploadRoute.form_userId form) = Some u.

Let no_image (r : result (UploadRoute.upload_response + UploadRoute.ingest)) : Prop :=
  match r with
  | Ok (inl response) => is_image_response response = false
  | _ => True
  end.

Let unread (r : result (UploadRoute.upload_response + string)) : Prop :=
  match r with
  | Ok (inl response) => is_error_response response = true
  | _ => True
  end.

Let uncreated (r : result (option UploadRoute.upload_response)) : Prop :=
  match r with
  | Ok (Some response) => is_error_response response = true
  | _ => True
  end.

Ltac quiet_bind := eapply yields_bind; [apply yields_only | intros ? _ | exact (fun _ => I)].

Lemma prepare_no_image :
  is_image (UploadRoute.file_type f) = false ->
  yields (among upload_kinds) no_image (UploadRoute.prepare rt (Ok form)).
Proof.
  intros Himg. unfold UploadRoute.prepare. apply yields_lift_ok. rewrite Hf, Hu.
  apply prepare_gate with (u := u); [reflexivity | |].
  { intros [[r|]|]; cbn; auto. destruct r; cbn; congruence. }
  intros finalUserId. cbv zeta. unfold is_image in Himg. rewrite Himg.
  eapply yields_bind with (T := unread); [ | | exact (fun _ => I)].
  { apply yields_catch with (T := unread).
    - repeat match goal with
             | |- yields _ _ (if ?b then _ else _) => destruct b
             end;
        try (quiet_bind; [kinds_tac|]); apply yields_ret; exact I || reflexivity.
    - auto.
    - intros e. apply yields_console_error. apply yields_ret. reflexivity. }
  intros [response|extractedText] Hr.
  { apply yields_ret. destruct response; cbn in *; congruence. }
  destruct (is_blank extractedText); [apply yields_ret; reflexivity|].
  quiet_bind; [kinds_tac|]. quiet_bind; [kinds_tac|].
  eapply yields_bind with (T := uncreated); [ | | exact (fun _ => I)].
  { apply yields_catch with (T := uncreated).
    - quiet_bind; [kinds_tac|]. apply yields_ret. exact I.
    - auto.
    - intros e. apply yields_console_error. apply yields_log.
      apply yields_ret. reflexivity. }
  intros [response|] Hc.
  { apply yields_ret. destruct response; cbn in *; congruence. }
  quiet_bind; [kinds_tac|].
  match goal with |- yields _ _ (if ?b then _ else _) => destruct b end;
    apply yields_ret; first [reflexivity | exact I].
Qed.

End ClientUpload.

Lemma POST_shape (rt : runtime) (request : result UploadRoute.form)
    (ks : list call_kind) (S : UploadRoute.upload_response -> bool) :
  yields (among ks)
         (fun r => match r with
                   | Ok (inl response) => S response = true
                   | _ => True
                   end)
         (UploadRoute.prepare rt request) ->
  (forall c s f, S (UploadRoute.document_response c s f) = true) ->
  (forall d, S (UploadRoute.UploadError 500 "Failed to process file" d None) = true) ->
  forall w, exists response,
    fst (UploadRoute.POST rt request w) = Ok response /\ S response = true.
Proof.
  intros Hp Hd He w. unfold UploadRoute.POST. rewrite catch_run, bind_run.
  destruct (Hp w) as [_ Hs].
  destruct (UploadRoute.prepare rt request w) as [[[response|c]|e] w1]; cbn [fst] in Hs.
  - exists response. auto.
  - rewrite bind_run.
    destruct (chunk_loop_counts rt c (UploadRoute.in_chunks c) 0 0 0 w1)
      as (s & f & w2 & -> & _).
    eexists. split; [reflexivity | apply Hd].
  - eexists. split; [reflexivity | apply He].
Qed.

(** X26.  An upload as the client sees it, for a file within the size
    limit.  Without user id the client shows "User ID is required".
    When the client gets an attachment, the attachment has the name of
    the file; it has a base64 text if the type starts with "image/";
    otherwise it has none, adds no image to a chat request, and the
    type is one of the four document types. *)
Theorem X26_upload_seen_by_client (rt : runtime) (formatFileSize : Z -> string)
    (userId : option string) (file : UploadRoute.file) (w : world) :
  (FileUpload.maxSize <? UploadRoute.file_size file)%Z = false ->
  (if_truthy userId = None ->
   FileUpload.processFile formatFileSize file
     (fst (UploadRoute.POST rt (Ok (FileUpload.form_of userId file)) w))
   = FileUpload.Failed "User ID is required")
  /\ (forall a success,
         FileUpload.processFile formatFileSize file
           (fst (UploadRoute.POST rt (Ok (FileUpload.form_of userId file)) w))
         = FileUpload.Attached a success ->
         att_name a = UploadRoute.file_name file
         /\ (is_image (UploadRoute.file_type file) = true ->
             exists base64, att_base64 a = Some base64)
         /\ (is_image (UploadRoute.file_type file) = false ->
             att_base64 a = None
             /\ images_of [a] = []
             /\ UploadRoute.includes_type UploadRoute.SUPPORTED_DOC_TYPES
                  (UploadRoute.file_type file) = true)).
Proof.
  intros Hsize. unfold FileUpload.processFile. rewrite Hsize. split.
  - intros Hu. unfold UploadRoute.POST, UploadRoute.prepare.
    rewrite catch_run, bind_run, bind_run. cbn [lift FileUpload.form_of
      UploadRoute.form_file UploadRoute.form_userId].
    rewrite Hu. reflexivity.
  - intros a success.
    destruct (if_truthy userId) as [u|] eqn:Hu.
    2: { unfold UploadRoute.POST, UploadRoute.prepare.
         rewrite catch_run, bind_run, bind_run. cbn [lift FileUpload.form_of
           UploadRoute.form_file UploadRoute.form_userId].
         rewrite Hu. cbn. discriminate. }
    assert (Hform : if_truthy (UploadRoute.form_userId (FileUpload.form_of userId file))
                    = Some u).
    { cbn. unfold if_truthy in *. destruct userId as [s|]; [|discriminate].
      destruct (String.length s =? 0) eqn:E; [discriminate|]. cbn. rewrite E. exact Hu. }
    destruct (is_image (UploadRoute.file_type file)) eqn:Himg.
    + destruct (POST_of_prepare rt (FileUpload.form_of userId file)
                  [Schema; UserRead; UserWrite; FileProcessing]
                  (fun r => negb (is_document_response r))) with (w := w)
        as [_ (r & -> & Hn)].
      * eapply yields_weaken;
          [apply (prepare_image rt (FileUpload.form_of userId file) file u eq_refl Hform Himg)|].
        intros [[r|]|]; cbn; auto. intros ->. reflexivity.
      * reflexivity.
      * destruct r; try discriminate Hn; intros H; inversion H; subst; cbn.
        split; [reflexivity|]. split; [eauto | discriminate].
    + destruct (UploadRoute.includes_type UploadRoute.SUPPORTED_DOC_TYPES
                  (UploadRoute.file_type file)) eqn:Hdoc.
      * destruct (POST_shape rt (Ok (FileUpload.form_of userId file)) upload_kinds
                    (fun r => negb (is_image_response r))) with (w := w)
          as (r & -> & Hn).
        -- eapply yields_weaken;
             [apply (prepare_no_image rt (FileUpload.form_of userId file) file u eq_refl Hform Himg)|].
           intros [[r|]|]; cbn; auto. intros ->. reflexivity.
        -- reflexivity.
        -- reflexivity.
        -- destruct r; try discriminate Hn; intros H; inversion H; subst; cbn.
           split; [reflexivity|]. split; [discriminate | auto].
      * destruct (POST_of_prepare rt (FileUpload.form_of userId file)
                    [Schema; UserRead; UserWrite] is_error_response) with (w := w)
          as [_ (r & -> & Hn)].
        -- eapply yields_weaken;
             [apply (prepare_unsupported rt (FileUpload.form_of userId file) file u eq_refl Hform Himg Hdoc)|].
           intros [[r|]|]; cbn; auto.
        -- reflexivity.
        -- destruct r; try discriminate Hn. discriminate.
Qed.

Lemma X26_witness :
  exists a success,
    FileUpload.processFile (fun _ => "10 MB") notes_file
      (fst (UploadRoute.POST rt_calm (Ok (FileUpload.form_of (Some "u1") notes_file)) fresh))
    = FileUpload.Attached a success
    /\ att_base64 a = None.
Proof.
  eexists _, _. split; [reflexivity|].
  eapply (X26_upload_seen_by_client rt_calm (fun _ => "10 MB") (Some "u1") notes_file fresh);
    reflexivity.
Defined.
